(** * Brain-tumour MRI classifier: a shallow embedding of [website.py]

    The program is a Streamlit script.  Its own logic is small: an image
    preprocessing routine ([preprocess_image]), a three-stage inference
    call chain ([predict_image_class]) and an upload handler wrapped in a
    single [try]/[except].  Everything else is a call into NumPy, OpenCV or
    a pre-trained model.

    The embedding keeps that division:
    - NumPy arrays live in a heap of array objects, because the script
      rebinds names to fresh arrays and writes into one of them in place;
    - [float32]/[float64] values are [spec_float]s of the Standard Library
      (IEEE 754 binary32 and binary64, round to nearest even);
    - Python exceptions are an error result threaded through a state monad
      whose state also records what was sent to the page and which model
      was invoked;
    - the library routines whose result depends on code outside the script
      (resampling, CLAHE, the mean and standard-deviation reductions, the
      image codec and the three loaded models) are variables of a section. *)

From Stdlib Require Import ZArith List String Bool Lia.
From Stdlib Require Import Floats.SpecFloat.
From stdpp Require Import base list strings.

Open Scope Z_scope.

(** ** Python exceptions *)

Module Py.

(** An exception object: its class name and the text [str(e)] yields. *)
Record exn := Exn { exn_class : string; exn_str : string }.

Inductive result (A : Type) : Type :=
  | Ok (a : A)
  | Raise (e : exn).
Arguments Ok {A} a.
Arguments Raise {A} e.

Definition rbind {A B} (r : result A) (k : A -> result B) : result B :=
    match r with
    | Ok a => k a
    | Raise e => Raise e
    end.

Definition rmap {A B} (f : A -> B) (r : result A) : result B :=
    match r with
    | Ok a => Ok (f a)
    | Raise e => Raise e
    end.

Definition ValueError (s : string) : exn := Exn "ValueError" s.
Definition IndexError (s : string) : exn := Exn "IndexError" s.
Definition KeyError (s : string) : exn := Exn "KeyError" s.
Definition TypeError (s : string) : exn := Exn "TypeError" s.
Definition cv2_error (s : string) : exn := Exn "cv2.error" s.

(** [for x in xs: acc = f(acc, x)], stopping at the first exception. *)
Fixpoint foldM {A B} (f : B -> A -> result B) (xs : list A) (acc : B)
    : result B :=
    match xs with
    | [] => Ok acc
    | x :: xs' => rbind (f acc x) (foldM f xs')
    end.

(** A list comprehension [[f(x) for x in xs]]. *)
Fixpoint mapM {A B} (f : A -> result B) (xs : list A) : result (list B) :=
    match xs with
    | [] => Ok []
    | x :: xs' =>
        rbind (f x) (fun y => rbind (mapM f xs') (fun ys => Ok (y :: ys)))
    end.

End Py.
Import Py.

(** ** Floating point *)

Module F32.
(** IEEE 754 binary32: 24 bits of precision, infinities at exponent 128. *)
Definition prec : Z := 24.
Definition emax : Z := 128.

Definition add := SFadd prec emax.
Definition sub := SFsub prec emax.
Definition mul := SFmul prec emax.
Definition div := SFdiv prec emax.

(** Conversion of an integer (exact below 2^24). *)
Definition of_Z (z : Z) : spec_float := binary_normalize prec emax z 0 false.

(** Rounding of a wider float, as when a Python [float] meets a
      [float32] array. *)
Definition of_f64 (x : spec_float) : spec_float :=
    match x with
    | S754_finite s m e => binary_round prec emax s m e
    | _ => x
    end.
End F32.

Module F64.
Definition prec : Z := 53.
Definition emax : Z := 1024.
End F64.

Definition f_zero : spec_float := S754_zero false.
Definition f_one : spec_float := S754_finite false 8388608 (-23).

Definition is_nan (x : spec_float) : bool :=
  match x with S754_nan => true | _ => false end.

Definition is_finite (x : spec_float) : bool :=
  match x with
  | S754_zero _ | S754_finite _ _ _ => true
  | _ => false
  end.

Definition is_zero (x : spec_float) : bool :=
  match x with S754_zero _ => true | _ => false end.

(** [0 <= x <= 1], which excludes NaN and the infinities. *)
Definition in_unit_interval (x : spec_float) : bool :=
  SFleb f_zero x && SFleb x f_one.

(** A probability is a float of the unit interval. *)
Definition is_probability (p : spec_float) : bool := in_unit_interval p.

(** The Python literal [1e-8] (a binary64) and the literal [255.0]. *)
Definition lit_1e_8 : spec_float := S754_finite false 6044629098073146 (-79).
Definition lit_255 : spec_float := S754_finite false 8972014882652160 (-45).
(** The literal [0.02], CLAHE's clip limit. *)
Definition lit_0_02 : spec_float := S754_finite false 5764607523034235 (-58).

(** ** Array values *)

(** A [uint8] is a [byte]; an image array of shape [(H, W, C)] is a list of
    rows, each a list of pixels, each a list of channel values. *)
Definition u8 : Type := Byte.byte.
Definition array2 (A : Type) : Type := list (list A).
Definition array3 (A : Type) : Type := list (list (list A)).

Definition u8_to_Z (b : u8) : Z := Z.of_N (Byte.to_N b).

Definition u8_of_Z (z : Z) : u8 :=
  match Byte.of_N (Z.to_N (z mod 256)) with
  | Some b => b
  | None => Byte.x00
  end.

Definition map3 {A B} (f : A -> B) (a : array3 A) : array3 B :=
  map (map (map f)) a.

Definition values {A} (a : array3 A) : list A := concat (concat a).

(** Shape [(h, w, c)]: [h] rows of [w] pixels of [c] channels. *)
Definition has_shape {A} (h w c : nat) (a : array3 A) : Prop :=
  length a = h /\
  Forall (fun row => length row = w /\ Forall (fun px => length px = c) row) a.

Definition has_shape2 {A} (h w : nat) (a : array2 A) : Prop :=
  length a = h /\ Forall (fun row => length row = w) a.

Definition has_shapeb {A} (h w c : nat) (a : array3 A) : bool :=
  Nat.eqb (length a) h &&
  forallb (fun row => Nat.eqb (length row) w &&
                      forallb (fun px => Nat.eqb (length px) c) row) a.

Module Np.

(** [a.astype(np.float32)] on a [uint8] array: exact. *)
Definition f32_of_u8 (b : u8) : spec_float := F32.of_Z (u8_to_Z b).
Definition astype_f32 (a : array3 u8) : array3 spec_float :=
    map3 f32_of_u8 a.

(** Truncation toward zero of a finite float. *)
Definition trunc (x : spec_float) : Z :=
    match x with
    | S754_finite s m e =>
        let q := match e with
                 | Z0 => Zpos m
                 | Zpos p => Z.shiftl (Zpos m) e
                 | Zneg p => Z.shiftr (Zpos m) (Zpos p)
                 end in
        if s then - q else q
    | _ => 0
    end.

(** [a.astype(np.uint8)] on a [float32] array.  In range the C cast
      truncates toward zero.  Out of range, and for NaN and the infinities,
      the C cast is undefined; the usual outcome is kept here: the
      truncated value modulo 256, and 0 for the non-finite values. *)
Definition u8_of_f32 (x : spec_float) : u8 := u8_of_Z (trunc x).
Definition astype_u8 (a : array3 spec_float) : array3 u8 :=
    map3 u8_of_f32 a.

(** Array and scalar arithmetic.  A Python scalar takes the array's
      [float32] type. *)
Definition sub_scalar (a : array3 spec_float) (s : spec_float) :=
    map3 (fun x => F32.sub x s) a.
Definition div_scalar (a : array3 spec_float) (s : spec_float) :=
    map3 (fun x => F32.div x s) a.
Definition mul_scalar (a : array3 spec_float) (s : spec_float) :=
    map3 (fun x => F32.mul x s) a.

(** [np.minimum] and [np.maximum] on two scalars: a NaN wins. *)
Definition minimum (a x : spec_float) : spec_float :=
    if is_nan a then a else if is_nan x then x
    else if SFltb x a then x else a.
Definition maximum (a x : spec_float) : spec_float :=
    if is_nan a then a else if is_nan x then x
    else if SFltb a x then x else a.

Definition reduce (op : spec_float -> spec_float -> spec_float)
      (what : string) (a : array3 spec_float) : result spec_float :=
    match values a with
    | [] => Raise (ValueError
        ("zero-size array to reduction operation " +:+ what +:+
         " which has no identity"))
    | x :: xs => Ok (fold_left op xs x)
    end.

(** [np.min(a)], [np.max(a)] and [np.ptp(a)] over all elements. *)
Definition min (a : array3 spec_float) := reduce minimum "minimum" a.
Definition max (a : array3 spec_float) := reduce maximum "maximum" a.
Definition ptp (a : array3 spec_float) : result spec_float :=
    rbind (max a) (fun hi => rbind (min a) (fun lo => Ok (F32.sub hi lo))).

(** [np.zeros_like(a)] *)
Definition zeros_like (a : array3 u8) : array3 u8 :=
    map3 (fun _ => Byte.x00) a.

(** [a[..., i]]: channel [i] of every pixel. *)
Definition get_channel {A} (a : array3 A) (i : nat) : result (array2 A) :=
    mapM (mapM (fun px : list A =>
      match px !! i with
      | Some v => Ok v
      | None => Raise (IndexError "index is out of bounds for axis 2")
      end)) a.

(** [a[..., i] = ch] for a [ch] of the shape of [a[..., i]].  (NumPy would
      also broadcast a smaller [ch]; the right-hand sides of this program
      are whole planes, so a plane of another shape is an error here.) *)
Definition shape_error : exn :=
    ValueError "could not broadcast input array".

Fixpoint set_channel_row {A} (row : list (list A)) (i : nat) (ch : list A)
    : result (list (list A)) :=
    match row, ch with
    | [], [] => Ok []
    | px :: row', v :: ch' =>
        if decide (i < length px)%nat
        then rbind (set_channel_row row' i ch')
                   (fun r => Ok (<[i:=v]> px :: r))
        else Raise (IndexError "index is out of bounds for axis 2")
    | _, _ => Raise shape_error
    end.

Fixpoint set_channel {A} (a : array3 A) (i : nat) (ch : array2 A)
    : result (array3 A) :=
    match a, ch with
    | [], [] => Ok []
    | row :: a', crow :: ch' =>
        rbind (set_channel_row row i crow) (fun r =>
        rbind (set_channel a' i ch') (fun rs => Ok (r :: rs)))
    | _, _ => Raise shape_error
    end.

(** [tf.expand_dims(a, axis=0)]: a batch of one. *)
Definition expand_dims {A} (a : A) : list A := [a].

End Np.

(** ** The heap of array objects and the page *)

Inductive ndarray :=
| U8 (a : array3 u8)
| F32a (a : array3 spec_float).

(** A reference to an array object. *)
Definition loc : Type := nat.

Inductive model := FeatureExtractor | FeatureSelector | Classifier.

(** What the script sends to the page.  The bar chart built with
    matplotlib and seaborn is one [Pyplot] carrying the plotted values and
    their labels; the diagnosis card is one [Diagnosis] carrying the two
    values its f-string interpolates. *)
Inductive widget :=
| Title (s : string)
| Markdown (s : string)
| FileUploader (label : string)
| Columns (ratio : list nat)
| StImage (raster : array3 u8) (width : nat)
| Pyplot (bars : list spec_float) (labels : list string)
| Diagnosis (predicted_class : string) (percent : spec_float)
| StError (msg : string).

Inductive event :=
| Call (m : model)
| Show (w : widget).

Record world := World { heap : list ndarray; log : list event }.

(** Computations: state passing with exceptions.  The state survives an
    exception, as objects allocated and widgets drawn before a [raise]
    stay allocated and drawn. *)
Definition M (A : Type) : Type := world -> result A * world.

Definition run {A} (m : M A) (w : world) : result A * world := m w.

#[global] Instance M_ret : MRet M := fun A a w => (Ok a, w).
#[global] Instance M_bind : MBind M := fun A B k m w =>
  match m w with
  | (Ok a, w') => k a w'
  | (Raise e, w') => (Raise e, w')
  end.

Definition raise {A} (e : exn) : M A := fun w => (Raise e, w).

Definition lift {A} (r : result A) : M A := fun w => (r, w).

(** A new array object. *)
Definition alloc (v : ndarray) : M loc := fun w =>
  (Ok (length (heap w)), World (heap w ++ [v]) (log w)).

Definition read_u8 (l : loc) : M (array3 u8) := fun w =>
  match heap w !! l with
  | Some (U8 a) => (Ok a, w)
  | _ => (Raise (TypeError "expected a uint8 array"), w)
  end.

Definition read_f32 (l : loc) : M (array3 spec_float) := fun w =>
  match heap w !! l with
  | Some (F32a a) => (Ok a, w)
  | _ => (Raise (TypeError "expected a float32 array"), w)
  end.

(** An in-place update of an existing array object. *)
Definition write (l : loc) (v : ndarray) : M unit := fun w =>
  (Ok tt, World (<[l:=v]> (heap w)) (log w)).

Definition emit (e : event) : M unit := fun w =>
  (Ok tt, World (heap w) (log w ++ [e])).

(** [try: body except Exception as e: handler(e)] *)
Definition try_except {A} (body : M A) (handler : exn -> M A) : M A :=
  fun w =>
    match body w with
    | (Ok a, w') => (Ok a, w')
    | (Raise e, w') => handler e w'
    end.

(** [for i in range(n): body(i)] *)
Fixpoint for_each {A} (xs : list A) (body : A -> M unit) : M unit :=
  match xs with
  | [] => mret tt
  | x :: xs' => body x ;; for_each xs' body
  end.

Definition for_range (n : nat) (body : nat -> M unit) : M unit :=
  for_each (seq 0 n) body.

(** ** Dictionaries, [zip] and [max] *)

Module Dict.
(** A Python [dict] with string keys: insertion-ordered, one entry per
      key.  Setting an existing key keeps its position. *)
Definition t (V : Type) : Type := list (string * V).

Fixpoint set {V} (d : t V) (k : string) (v : V) : t V :=
    match d with
    | [] => [(k, v)]
    | (k', v') :: d' =>
        if decide (k' = k) then (k', v) :: d' else (k', v') :: set d' k v
    end.

(** [dict(pairs)] *)
Definition of_pairs {V} (pairs : list (string * V)) : t V :=
    fold_left (fun d kv => set d (fst kv) (snd kv)) pairs [].

(** Iterating a dict yields its keys in insertion order. *)
Definition keys {V} (d : t V) : list string := map fst d.

(** [d.get(k)]: [None] for a missing key. *)
Fixpoint get {V} (d : t V) (k : string) : option V :=
    match d with
    | [] => None
    | (k', v) :: d' => if decide (k' = k) then Some v else get d' k
    end.

(** [repr(k)] of a [str] without quotes, backslashes or control
      characters, as the class names are: the text between single
      quotes. *)
Definition repr (k : string) : string := "'" +:+ k +:+ "'".

(** [d[k]]; the text of a [KeyError] is the [repr] of the key. *)
Definition getitem {V} (d : t V) (k : string) : result V :=
    match get d k with
    | Some v => Ok v
    | None => Raise (KeyError (repr k))
    end.
End Dict.

(** [a > b] on what [dict.get] returns: floats compare, [None] does not. *)
Definition py_gt (a b : option spec_float) : result bool :=
  match a, b with
  | Some x, Some y => Ok (SFltb y x)
  | _, _ => Raise (TypeError "'>' not supported between instances")
  end.

(** The loop of the builtin [max(iterable, key=...)]: the first item is the
    running maximum and a later item replaces it only when its key is
    greater. *)
Fixpoint max_loop (key : string -> option spec_float) (items : list string)
    (maxitem : string) (maxval : option spec_float) : result string :=
  match items with
  | [] => Ok maxitem
  | item :: rest =>
      let val := key item in
      rbind (py_gt val maxval) (fun greater =>
        if greater : bool then max_loop key rest item val
        else max_loop key rest maxitem maxval)
  end.

Definition py_max (items : list string) (key : string -> option spec_float)
  : result string :=
  match items with
  | [] => Raise (ValueError "max() iterable argument is empty")
  | item :: rest => max_loop key rest item (key item)
  end.

(** ** Pictures and channel order *)

(** What an encoded file depicts: a colour per pixel. *)
Record color := Color { red : u8; green : u8; blue : u8 }.
Definition picture : Type := list (list color).

Definition bgr_pixel (c : color) : list u8 := [blue c; green c; red c].
Definition rgb_pixel (c : color) : list u8 := [red c; green c; blue c].
Definition bgr_raster (p : picture) : array3 u8 := map (map bgr_pixel) p.
Definition rgb_raster (p : picture) : array3 u8 := map (map rgb_pixel) p.

(** An array with no element. *)
Definition empty {A} (a : array3 A) : bool :=
  match values a with [] => true | _ => false end.

(** One pixel of [cv2.cvtColor(_, cv2.COLOR_BGR2RGB)]: the source has 3 or
    4 channels, the result the first three in reverse order. *)
Definition swap_rb (px : list u8) : result (list u8) :=
  match px with
  | [b; g; r] => Ok [r; g; b]
  | [b; g; r; _] => Ok [r; g; b]
  | _ => Raise (cv2_error "Invalid number of channels in input image")
  end.

(** ** Constants of the script *)

Definition IMG_SIZE : nat * nat := (224, 224)%nat.
Definition CLASS_NAMES : list string :=
  ["Glioma"; "Meningioma"; "No Tumor"; "Pituitary"]%string.

(** ** The script *)

Section Script.

(** *** Library routines and loaded models

      [cv2.resize(src, dsize)] with [dsize = (width, height)];
      [cv2.createCLAHE(clipLimit, tileGridSize).apply(plane)];
      the codec behind [cv2.imdecode]; [np.mean] and [np.std] over all
      elements of a [float32] array (their rounding depends on NumPy's
      summation order); and the three objects [load_models] returns, seen
      through the one method the script calls on each. *)
Variable cv2_resize : nat * nat -> array3 u8 -> result (array3 u8).
Variable clahe_apply :
    spec_float -> nat * nat -> array2 u8 -> result (array2 u8).
Variable decode_picture : list u8 -> option picture.
Variable np_mean np_std : array3 spec_float -> spec_float.
Variable feature_extractor_predict :
    list (array3 spec_float) -> result (array2 spec_float).
Variable feature_selector_transform :
    array2 spec_float -> result (array2 spec_float).
Variable classifier_predict_proba :
    array2 spec_float -> result (array2 spec_float).

(** [cv2.imdecode(buf, cv2.IMREAD_COLOR)]: a new 3-channel array in
      blue, green, red order; [None] when no codec reads the buffer; and
      on an empty buffer OpenCV raises instead of returning [None].  (It
      tests the buffer before it tries a codec; no codec reads an empty
      buffer, so the test is made here where the codec has given
      nothing.) *)
Definition cv2_imdecode (buf : list u8) : M (option loc) :=
    match decode_picture buf with
    | Some p => l ← alloc (U8 (bgr_raster p)); mret (Some l)
    | None =>
        match buf with
        | [] => raise (cv2_error "(-215:Assertion failed) !buf.empty()")
        | _ :: _ => mret None
        end
    end.

(** [cv2.cvtColor(img, cv2.COLOR_BGR2RGB)]: a new array. *)
Definition cv2_cvtColor_BGR2RGB (img : option loc) : M loc :=
    match img with
    | None => raise (cv2_error "(-215:Assertion failed) !_src.empty()")
    | Some l =>
        src ← read_u8 l;
        if empty src
        then raise (cv2_error "(-215:Assertion failed) !_src.empty()")
        else dst ← lift (mapM (mapM swap_rb) src); alloc (U8 dst)
    end.

(** Calling a loaded model: the invocation is logged, then its result or
      exception is the call's. *)
Definition call {A} (m : model) (r : result A) : M A :=
    emit (Call m) ;; lift r.

(** *** [preprocess_image] (lines 49-60) *)

Definition eps : spec_float := F32.of_f64 lit_1e_8.

Definition preprocess_image (image : loc) : M loc :=
    src ← read_u8 image;
    resized ← lift (cv2_resize IMG_SIZE src);
    img_resized ← alloc (U8 resized);
    a ← read_u8 img_resized;
    img ← alloc (F32a (Np.astype_f32 a));
    x ← read_f32 img;
    img ← alloc (F32a (Np.div_scalar (Np.sub_scalar x (np_mean x))
                                    (F32.add (np_std x) eps)));
    x ← read_f32 img;
    lo ← lift (Np.min x);
    range ← lift (Np.ptp x);
    img ← alloc (F32a (Np.div_scalar (Np.sub_scalar x lo)
                                    (F32.add range eps)));
    x ← read_f32 img;
    img ← alloc (U8 (Np.astype_u8 (Np.mul_scalar x (F32.of_Z 255))));
    let clahe := clahe_apply lit_0_02 (8, 8)%nat in
    x ← read_u8 img;
    img_clahe ← alloc (U8 (Np.zeros_like x));
    for_range 3 (fun i =>
      x ← read_u8 img;
      plane ← lift (Np.get_channel x i);
      out ← lift (clahe plane);
      dst ← read_u8 img_clahe;
      dst' ← lift (Np.set_channel dst i out);
      write img_clahe (U8 dst')) ;;
    x ← read_u8 img_clahe;
    alloc (F32a (Np.div_scalar (Np.astype_f32 x) (F32.of_f64 lit_255))).

(** *** [predict_image_class] (lines 63-68) *)

Definition row0 {A} (a : array2 A) : result (list A) :=
    match a with
    | r :: _ => Ok r
    | [] => Raise (IndexError "index 0 is out of bounds for axis 0")
    end.

Definition predict_image_class (img : loc) : M (Dict.t spec_float) :=
    img_processed ← preprocess_image img;
    x ← read_f32 img_processed;
    features ← call FeatureExtractor
                 (feature_extractor_predict (Np.expand_dims x));
    selected_features ← call FeatureSelector
                          (feature_selector_transform features);
    probs ← call Classifier (classifier_predict_proba selected_features);
    prediction_probs ← lift (row0 probs);
    mret (Dict.of_pairs (zip CLASS_NAMES prediction_probs)).

(** *** The page (lines 71-139) *)

(** Lines 82-84: decode the upload and reorder its channels. *)
Definition decode_rgb (uploaded_file : list u8) : M loc :=
    let file_bytes := uploaded_file in
    img ← cv2_imdecode file_bytes;
    cv2_cvtColor_BGR2RGB img.

(** Lines 82-88: decode, infer, pick the class. *)
Definition decode_and_predict (uploaded_file : list u8)
    : M (loc * Dict.t spec_float * string) :=
    img_rgb ← decode_rgb uploaded_file;
    predictions ← predict_image_class img_rgb;
    predicted_class ← lift (py_max (Dict.keys predictions)
                                   (Dict.get predictions));
    mret (img_rgb, predictions, predicted_class).

Definition hundred : spec_float :=
    binary_normalize F64.prec F64.emax 100 0 false.

(** Line 133, [predictions[predicted_class]*100].  The probability is a
      NumPy scalar of the type of the classifier's array, and NumPy keeps
      that type when the scalar meets a Python [int]: the product is a
      [float32] product for a [float32] probability and a [float64]
      product for a [float64] one.  A float carries its format in its
      mantissa: no finite non-zero number is canonical in both formats,
      and the zeros, the infinities and NaN give the same product in
      both. *)
Definition percent (confidence : spec_float) : spec_float :=
    if valid_binary F32.prec F32.emax confidence
    then F32.mul confidence (F32.of_Z 100)
    else SFmul F64.prec F64.emax confidence hundred.

(** Lines 91-136: the preview, the confidence chart, the diagnosis. *)
Definition render (r : loc * Dict.t spec_float * string) : M unit :=
    let '(img_rgb, predictions, predicted_class) := r in
    emit (Show (Columns [3; 7]%nat)) ;;
    emit (Show (Markdown
      "<h5 style='margin-bottom:10px;'>MRI Scan Preview</h5>")) ;;
    shown ← read_u8 img_rgb;
    emit (Show (StImage shown 230)) ;;
    emit (Show (Markdown
      "<h5 style='margin-bottom:10px;'>Classification Confidence</h5>")) ;;
    values ← lift (mapM (Dict.getitem predictions) CLASS_NAMES);
    emit (Show (Pyplot values CLASS_NAMES)) ;;
    confidence ← lift (Dict.getitem predictions predicted_class);
    emit (Show (Diagnosis predicted_class (percent confidence))).

(** Lines 79-139: the body runs under one [try]; any exception becomes
      one [st.error]. *)
Definition on_upload (uploaded_file : list u8) : M unit :=
    try_except
      (r ← decode_and_predict uploaded_file; render r)
      (fun e => emit (Show (StError
                  ("Error processing image: " +:+ exn_str e)))).

Definition script (uploaded_file : option (list u8)) : M unit :=
    emit (Show (Title "Brain Tumor Detection from MRI Scans")) ;;
    emit (Show (Markdown "
**Upload an MRI scan for automated tumor classification**  
Supported formats: JPEG, PNG
")) ;;
    emit (Show (FileUploader "Choose an MRI image...")) ;;
    match uploaded_file with
    | Some f => on_upload f
    | None => mret tt
    end.

End Script.

(** ** Value-level reading of [preprocess_image]

    The array the routine returns, as a function of the array it is given:
    the same statements with every array passed by value. *)

Section Denotation.
Variable cv2_resize : nat * nat -> array3 u8 -> result (array3 u8).
Variable clahe_apply :
    spec_float -> nat * nat -> array2 u8 -> result (array2 u8).
Variable np_mean np_std : array3 spec_float -> spec_float.

(** One turn of the loop over the channels. *)
Definition clahe_channel (img : array3 u8) (img_clahe : array3 u8)
      (i : nat) : result (array3 u8) :=
    rbind (Np.get_channel img i) (fun plane =>
    rbind (clahe_apply lit_0_02 (8, 8)%nat plane) (fun out =>
    Np.set_channel img_clahe i out)).

Definition preprocess_value (image : array3 u8)
    : result (array3 spec_float) :=
    rbind (cv2_resize IMG_SIZE image) (fun img_resized =>
    let img := Np.astype_f32 img_resized in
    let img := Np.div_scalar (Np.sub_scalar img (np_mean img))
                             (F32.add (np_std img) eps) in
    rbind (Np.min img) (fun lo =>
    rbind (Np.ptp img) (fun range =>
    let img := Np.div_scalar (Np.sub_scalar img lo) (F32.add range eps) in
    let img := Np.astype_u8 (Np.mul_scalar img (F32.of_Z 255)) in
    rbind (foldM (clahe_channel img) (seq 0 3) (Np.zeros_like img))
      (fun img_clahe =>
    Ok (Np.div_scalar (Np.astype_f32 img_clahe) (F32.of_f64 lit_255)))))).
End Denotation.

(** ** The preprocessing steps as the specification words them *)

Module Steps.
Section Steps.
Variable cv2_resize : nat * nat -> array3 u8 -> result (array3 u8).
Variable clahe_apply :
    spec_float -> nat * nat -> array2 u8 -> result (array2 u8).
Variable np_mean np_std : array3 spec_float -> spec_float.

(** 1. Resize to 224 x 224. *)
Definition resize (image : array3 u8) : result (array3 u8) :=
    cv2_resize (224, 224)%nat image.

(** 2. Convert to floating point. *)
Definition to_float (a : array3 u8) : array3 spec_float :=
    map3 (fun b => F32.of_Z (u8_to_Z b)) a.

(** 3. Subtract the global mean, divide by the global standard deviation
         plus 1e-8. *)
Definition standardize (a : array3 spec_float) : array3 spec_float :=
    let mu := np_mean a in
    let sigma := np_std a in
    map3 (fun x => F32.div (F32.sub x mu) (F32.add sigma eps)) a.

(** 4. Subtract the global minimum, divide by the peak-to-peak range plus
         1e-8. *)
Definition rescale (a : array3 spec_float) : result (array3 spec_float) :=
    rbind (Np.min a) (fun lo =>
    rbind (Np.max a) (fun hi =>
    Ok (map3 (fun x => F32.div (F32.sub x lo)
                               (F32.add (F32.sub hi lo) eps)) a))).

(** 5. Quantize to the 8-bit range. *)
Definition quantize (a : array3 spec_float) : array3 u8 :=
    map3 (fun x => Np.u8_of_f32 (F32.mul x (F32.of_Z 255))) a.

(** 6. CLAHE with clip limit 0.02 and an 8 x 8 tile grid, on each of the
         three channels by itself. *)
Definition equalize (plane : array2 u8) : result (array2 u8) :=
    clahe_apply lit_0_02 (8, 8)%nat plane.

Fixpoint zip3 {A B C D} (f : A -> B -> C -> D)
      (xs : list A) (ys : list B) (zs : list C) : list D :=
    match xs, ys, zs with
    | x :: xs', y :: ys', z :: zs' => f x y z :: zip3 f xs' ys' zs'
    | _, _, _ => []
    end.

Definition merge (c0 c1 c2 : array2 u8) : array3 u8 :=
    zip3 (zip3 (fun a b c => [a; b; c])) c0 c1 c2.

Definition equalize_channels (a : array3 u8) : result (array3 u8) :=
    rbind (rbind (Np.get_channel a 0) equalize) (fun c0 =>
    rbind (rbind (Np.get_channel a 1) equalize) (fun c1 =>
    rbind (rbind (Np.get_channel a 2) equalize) (fun c2 =>
    Ok (merge c0 c1 c2)))).

(** 7. Back to floating point, divided by 255. *)
Definition to_unit (a : array3 u8) : array3 spec_float :=
    map3 (fun b => F32.div (F32.of_Z (u8_to_Z b)) (F32.of_Z 255)) a.

Definition preprocess (image : array3 u8) : result (array3 spec_float) :=
    rbind (resize image) (fun a =>
    rbind (rescale (standardize (to_float a))) (fun a =>
    rbind (equalize_channels (quantize a)) (fun a =>
    Ok (to_unit a)))).
End Steps.
End Steps.

(** ** Auxiliary notions *)

(** The array [a] with plane [ch] written into channel [i]. *)
Definition set_plane {A} (a : array3 A) (i : nat) (ch : array2 A) : array3 A :=
  zip_with (zip_with (fun px v => <[i:=v]> px)) a ch.

(** What OpenCV raises when handed no image, and when handed no
    bytes. *)
Definition src_empty : exn :=
  cv2_error "(-215:Assertion failed) !_src.empty()".
Definition buf_empty : exn :=
  cv2_error "(-215:Assertion failed) !buf.empty()".

(** What lines 83-84 raise on a buffer no codec reads. *)
Definition undecodable (buf : list u8) : exn :=
  match buf with
  | [] => buf_empty
  | _ :: _ => src_empty
  end.

(** Every element of the array is [c]. *)
Definition constant {A} (c : A) (a : array3 A) : Prop :=
  Forall (fun v => v = c) (values a).

Definition constantb (c : u8) (a : array3 u8) : bool :=
  forallb (fun v => Byte.eqb v c) (values a).

(** ** What the script relies on from its libraries and models *)

(** Resampling a constant image gives a constant image. *)
Definition resize_keeps_constant
    (cv2_resize : nat * nat -> array3 u8 -> result (array3 u8)) : Prop :=
  forall dsize src dst c,
    cv2_resize dsize src = Ok dst -> constant c src -> constant c dst.

(** [cv2.resize] returns an array of the requested size with the channels
    of its source, for every source with at least one pixel. *)
Definition resize_contract
    (cv2_resize : nat * nat -> array3 u8 -> result (array3 u8)) : Prop :=
  forall (dw dh h w c : nat) (src : array3 u8),
    (0 < h)%nat -> (0 < w)%nat -> has_shape h w c src ->
    exists dst, cv2_resize (dw, dh) src = Ok dst /\ has_shape dh dw c dst.

(** [CLAHE.apply] returns a plane of the size of its source. *)
Definition clahe_contract
    (clahe_apply : spec_float -> nat * nat -> array2 u8 -> result (array2 u8))
    : Prop :=
  forall clip tiles (h w : nat) (plane : array2 u8),
    has_shape2 h w plane ->
    exists out, clahe_apply clip tiles plane = Ok out /\ has_shape2 h w out.

(** The loaded models accept a batch of one 224 x 224 x 3 image and the
    classifier answers with one row of four probabilities. *)
Definition models_contract
    (fe : list (array3 spec_float) -> result (array2 spec_float))
    (fs clf : array2 spec_float -> result (array2 spec_float)) : Prop :=
  forall x : array3 spec_float,
    has_shape 224 224 3 x ->
    exists f s p,
      fe [x] = Ok f /\ fs f = Ok s /\ clf s = Ok [p] /\
      length p = 4%nat /\ Forall (fun v => is_probability v = true) p.

(** ** Stand-ins for the libraries and the models

    Simple total implementations of the section variables, on which the
    script can be run. *)

Module Fixture.

(** Nearest-neighbour resampling. *)
Definition resize (dsize : nat * nat) (src : array3 u8)
    : result (array3 u8) :=
    let '(dw, dh) := dsize in
    match src with
    | (px0 :: _) :: _ =>
        let h := length src in
        Ok (map (fun r =>
                   let row := default [] (src !! (r * h / dh)%nat) in
                   map (fun c =>
                          default px0 (row !! (c * length row / dw)%nat))
                       (seq 0 dw))
                (seq 0 dh))
    | _ => Raise (cv2_error "(-215:Assertion failed) !ssize.empty()")
    end.

(** An equalization that changes nothing. *)
Definition clahe (clip : spec_float) (tiles : nat * nat)
      (plane : array2 u8) : result (array2 u8) := Ok plane.

(** A codec: the buffer is one row of red, green, blue triples. *)
Fixpoint pixels (buf : list u8) : option (list color) :=
    match buf with
    | [] => Some []
    | r :: g :: b :: rest => option_map (cons (Color r g b)) (pixels rest)
    | _ => None
    end.

Definition decode (buf : list u8) : option picture :=
    match buf with
    | [] => None
    | _ => option_map (fun row => [row]) (pixels buf)
    end.

(** Mean and standard deviation by summation from left to right. *)
Definition count (a : array3 spec_float) : spec_float :=
    F32.of_Z (Z.of_nat (length (values a))).

Definition mean (a : array3 spec_float) : spec_float :=
    F32.div (fold_left F32.add (values a) f_zero) (count a).

Definition std (a : array3 spec_float) : spec_float :=
    let mu := mean a in
    let sq x := F32.mul (F32.sub x mu) (F32.sub x mu) in
    SFsqrt F32.prec F32.emax
      (F32.div (fold_left (fun acc x => F32.add acc (sq x)) (values a) f_zero)
               (count a)).

(** Models: a constant embedding, an identity selection and a classifier
      that always answers with the same row. *)
Definition p_10 : spec_float := S754_finite false 7205759403792794 (-56).
Definition p_20 : spec_float := S754_finite false 7205759403792794 (-55).
Definition p_60 : spec_float := S754_finite false 5404319552844595 (-53).

Definition extractor (batch : list (array3 spec_float))
    : result (array2 spec_float) := Ok [[f_one]].
Definition selector (f : array2 spec_float)
    : result (array2 spec_float) := Ok f.
Definition classifier (f : array2 spec_float)
    : result (array2 spec_float) := Ok [[p_10; p_20; p_60; p_10]].
(** A classifier trained on three classes only. *)
Definition classifier3 (f : array2 spec_float)
    : result (array2 spec_float) := Ok [[p_20; p_60; p_20]].

(** Inputs. *)
Definition black (h w : nat) : array3 u8 :=
    repeat (repeat [Byte.x00; Byte.x00; Byte.x00] w) h.

Definition tiny : array3 u8 :=
    [[[Byte.x0a; Byte.x14; Byte.x1e]; [Byte.x28; Byte.x32; Byte.x3c]];
     [[Byte.x46; Byte.x50; Byte.x5a]; [Byte.xc8; Byte.xd2; Byte.xdc]]].

(** An upload of two pixels: one red, one blue. *)
Definition two_pixels : list u8 :=
    [Byte.xff; Byte.x00; Byte.x00; Byte.x00; Byte.x00; Byte.xff].

Definition start (a : array3 u8) : world := World [U8 a] [].

(** A classifier that answers with an empty row, and one that answers
    with five probabilities and a second row. *)
Definition classifier0 (f : array2 spec_float)
  : result (array2 spec_float) := Ok [[]].
Definition classifier5 (f : array2 spec_float)
  : result (array2 spec_float) :=
  Ok [[p_10; p_20; p_60; p_10; p_20]; [p_60]].

(** The picture [two_pixels] encodes. *)
Definition red_blue : picture :=
  [[Color Byte.xff Byte.x00 Byte.x00; Color Byte.x00 Byte.x00 Byte.xff]].

End Fixture.

(** ** Value-level reading of [predict_image_class]

    The distribution the function returns, and the models it has invoked
    by the time it returns or raises, as functions of the image. *)

Section PredictValue.
Variable cv2_resize : nat * nat -> array3 u8 -> result (array3 u8).
Variable clahe_apply :
  spec_float -> nat * nat -> array2 u8 -> result (array2 u8).
Variable np_mean np_std : array3 spec_float -> spec_float.
Variable feature_extractor_predict :
  list (array3 spec_float) -> result (array2 spec_float).
Variable feature_selector_transform :
  array2 spec_float -> result (array2 spec_float).
Variable classifier_predict_proba :
  array2 spec_float -> result (array2 spec_float).

Definition predict_value (image : array3 u8) : result (Dict.t spec_float) :=
  rbind (preprocess_value cv2_resize clahe_apply np_mean np_std image)
    (fun img_processed =>
  rbind (feature_extractor_predict (Np.expand_dims img_processed))
    (fun features =>
  rbind (feature_selector_transform features) (fun selected_features =>
  rbind (classifier_predict_proba selected_features) (fun probs =>
  rbind (row0 probs) (fun prediction_probs =>
  Ok (Dict.of_pairs (zip CLASS_NAMES prediction_probs))))))).

Definition predict_calls (image : array3 u8) : list model :=
  match preprocess_value cv2_resize clahe_apply np_mean np_std image with
  | Raise _ => []
  | Ok img_processed =>
      FeatureExtractor ::
      match feature_extractor_predict (Np.expand_dims img_processed) with
      | Raise _ => []
      | Ok features =>
          FeatureSelector ::
          match feature_selector_transform features with
          | Raise _ => []
          | Ok _ => [Classifier]
          end
      end
  end.
End PredictValue.

(** ** The order of the floats

    Every float but NaN has a place in a lexicographic order on triples of
    integers; [SFcompare] is the comparison of the places. *)

Definition place (x : spec_float) : Z * Z * Z :=
  match x with
  | S754_nan => (0, 0, 0)
  | S754_zero _ => (0, 0, 0)
  | S754_infinity true => (-2, 0, 0)
  | S754_infinity false => (2, 0, 0)
  | S754_finite true m e => (-1, - e, Zneg m)
  | S754_finite false m e => (1, e, Zpos m)
  end.

Definition before (p q : Z * Z * Z) : Prop :=
  let '(a1, b1, c1) := p in
  let '(a2, b2, c2) := q in
  a1 < a2 \/ (a1 = a2 /\ (b1 < b2 \/ (b1 = b2 /\ c1 < c2))).

(** ** Pixels whose channels past the third hold a given value *)

Definition tail_zero {A} (zero : A) (px : list A) : Prop :=
  forall j, (3 <= j)%nat -> (j < length px)%nat -> px !! j = Some zero.

(** ** Error messages on the page *)

Definition is_error (e : event) : bool :=
  match e with
  | Show (StError _) => true
  | _ => false
  end.

(** ** Model loading (lines 33-46) and a run of the whole script *)

(** A loaded artifact, seen through the one method the script calls on
    it: [predict] for the Keras model, [transform] and [predict_proba] for
    the two unpickled objects. *)
Definition extractor_t : Type :=
  list (array3 spec_float) -> result (array2 spec_float).
Definition estimator_t : Type :=
  array2 spec_float -> result (array2 spec_float).

Record models := Models {
  feature_extractor : extractor_t;
  feature_selector : estimator_t;
  mlp_loaded : estimator_t
}.

Section Loading.
(** [tf.keras.models.load_model(path)], [open(path, 'rb')] and
    [pickle.load(file)], each of which may raise. *)
Variable keras_load_model : string -> result extractor_t.
Variable open_rb : string -> result (list u8).
Variable pickle_load : list u8 -> result estimator_t.

(** [load_models] (lines 35-44) *)
Definition load_models : result models :=
  rbind (keras_load_model "feature_extractor.keras") (fun feature_extractor =>
  rbind (rbind (open_rb "final_feature_extractor_pipeline.pkl") pickle_load)
    (fun feature_selector =>
  rbind (rbind (open_rb "mlp_model.pkl") pickle_load) (fun mlp_loaded =>
  Ok (Models feature_extractor feature_selector mlp_loaded)))).

(** [@st.cache_resource] (line 34): the function runs when the cache of
    the process is empty and what it returns is kept; what it raises is
    not. *)
Definition load_models_cached (cache : option models)
  : result models * option models :=
  match cache with
  | Some ms => (Ok ms, cache)
  | None =>
      match load_models with
      | Ok ms => (Ok ms, Some ms)
      | Raise e => (Raise e, None)
      end
  end.

Variable cv2_resize : nat * nat -> array3 u8 -> result (array3 u8).
Variable clahe_apply :
  spec_float -> nat * nat -> array2 u8 -> result (array2 u8).
Variable decode_picture : list u8 -> option picture.
Variable np_mean np_std : array3 spec_float -> spec_float.

(** One run of the script from top to bottom: the models are obtained
    (line 46), then the page is drawn (lines 71-139).  Streamlit runs the
    script again on every interaction, with the same cache. *)
Definition rerun (cache : option models) (uploaded_file : option (list u8))
    (w : world) : result unit * world * option models :=
  match load_models_cached cache with
  | (Raise e, cache') => (Raise e, w, cache')
  | (Ok ms, cache') =>
      (run (script cv2_resize clahe_apply decode_picture np_mean np_std
              (feature_extractor ms) (feature_selector ms) (mlp_loaded ms)
              uploaded_file) w,
       cache')
  end.
End Loading.

(** Stand-ins for the loaders: every file is present, or the
    classifier's file is missing. *)
Module FixtureLoad.
Definition keras_ok (path : string) : result extractor_t :=
  Ok Fixture.extractor.
Definition open_ok (path : string) : result (list u8) := Ok [].
Definition open_no_mlp (path : string) : result (list u8) :=
  if decide (path = "mlp_model.pkl"%string)
  then Raise (Exn "FileNotFoundError" "No such file or directory")
  else Ok [].
Definition unpickle (file : list u8) : result estimator_t :=
  Ok Fixture.selector.
End FixtureLoad.

(** ** Signs and magnitudes of floats *)

(** The smallest exponent of a [float32]: that of its subnormals. *)
Definition f32_emin : Z := SpecFloat.emin F32.prec F32.emax.

(** Not NaN and not negative: a zero, a positive finite number whose
    exponent is not below [emin], or plus infinity. *)
Definition nonneg_float (emin : Z) (x : spec_float) : bool :=
  match x with
  | S754_zero _ => true
  | S754_infinity s => negb s
  | S754_finite s _ e => negb s && (emin <=? e)
  | S754_nan => false
  end.

(** Strictly positive: as above and not a zero. *)
Definition positive_float (emin : Z) (x : spec_float) : bool :=
  nonneg_float emin x && negb (is_zero x).

(** Finite with [0 <= x < 2^b]. *)
Definition below (emin b : Z) (x : spec_float) : bool :=
  match x with
  | S754_zero _ => true
  | S754_finite s m e =>
      negb s && (emin <=? e) && (Zpos (digits2_pos m) + e <=? b)
  | _ => false
  end.

(** ** The metric [F1Score] (lines 13-31) *)

(** The Python literal behind [tf.keras.backend.epsilon()], [1e-07]. *)
Definition lit_1e_7 : spec_float := S754_finite false 7555786372591432 (-76).

Module F1Score.
Section F1Score.
(** A Keras [Precision] and a Keras [Recall] object, each seen through
    the three methods the class calls; [batch] stands for the arguments
    [(y_true, y_pred, sample_weight)] of an update.  Their [result()] is
    a [float32] scalar.  [reset_states] is looked up by name on the
    object: Keras 2 has a method of that name, Keras 3 names it
    [reset_state], and the lookup then raises [AttributeError] and leaves
    the object as it was; so the call yields a result and the object's
    new state. *)
Variables precision_t recall_t batch : Type.
Variable precision_new : precision_t.
Variable precision_update : precision_t -> batch -> precision_t.
Variable precision_result : precision_t -> spec_float.
Variable precision_reset_states :
  precision_t -> Py.result unit * precision_t.
Variable recall_new : recall_t.
Variable recall_update : recall_t -> batch -> recall_t.
Variable recall_result : recall_t -> spec_float.
Variable recall_reset_states : recall_t -> Py.result unit * recall_t.

(** The object's two attributes. *)
Record t := Metric { precision : precision_t; recall : recall_t }.

(** [__init__] (lines 15-18) *)
Definition init : t := Metric precision_new recall_new.

(** [update_state] (lines 20-22) *)
Definition update_state (self : t) (b : batch) : t :=
  Metric (precision_update (precision self) b)
         (recall_update (recall self) b).

(** [tf.keras.backend.epsilon()] as it meets a [float32] tensor. *)
Definition epsilon : spec_float := F32.of_f64 lit_1e_7.

(** [result] (lines 24-27): [2 * (p * r) / (p + r + epsilon())]. *)
Definition result (self : t) : spec_float :=
  let p := precision_result (precision self) in
  let r := recall_result (recall self) in
  F32.div (F32.mul (F32.of_Z 2) (F32.mul p r))
          (F32.add (F32.add p r) epsilon).

(** [reset_states] (lines 29-31): the precision is reset first; when
    that raises, the recall is not touched. *)
Definition reset_states (self : t) : Py.result unit * t :=
  match precision_reset_states (precision self) with
  | (Raise e, p) => (Raise e, Metric p (recall self))
  | (Ok _, p) =>
      let '(r, rc) := recall_reset_states (recall self) in
      (r, Metric p rc)
  end.
End F1Score.
Arguments Metric {precision_t recall_t}.
Arguments precision {precision_t recall_t}.
Arguments recall {precision_t recall_t}.
Arguments init {precision_t recall_t}.
Arguments update_state {precision_t recall_t batch}.
Arguments result {precision_t recall_t}.
Arguments reset_states {precision_t recall_t}.
End F1Score.

(** Stand-ins for the two Keras metrics: counters of hits and of trials,
    reporting their ratio, and 0 when nothing was counted. *)
Module FixtureMetric.
Definition counter : Type := Z * Z.
Definition new : counter := (0, 0).
Definition update (c : counter) (b : Z * Z) : counter :=
  (fst c + fst b, snd c + snd b).
Definition ratio (c : counter) : spec_float :=
  if snd c =? 0 then f_zero
  else F32.div (F32.of_Z (fst c)) (F32.of_Z (snd c)).
End FixtureMetric.

(** ** A session: the script run again on every interaction *)

(** What one run meets: the files as the loaders find them at that
    moment, and the content of the upload widget. *)
Record interaction := Interaction {
  at_keras : string -> result extractor_t;
  at_open : string -> result (list u8);
  at_pickle : list u8 -> result estimator_t;
  uploaded : option (list u8)
}.

Section Session.
Variable cv2_resize : nat * nat -> array3 u8 -> result (array3 u8).
Variable clahe_apply :
  spec_float -> nat * nat -> array2 u8 -> result (array2 u8).
Variable decode_picture : list u8 -> option picture.
Variable np_mean np_std : array3 spec_float -> spec_float.

(** Streamlit runs the script from the top on every interaction, each
    time on a fresh page; the resource cache lives as long as the
    process.  A session yields the result and the page of each run, and
    the cache it ends with. *)
Fixpoint session (cache : option models) (runs : list interaction)
  : list (result unit * world) * option models :=
  match runs with
  | [] => ([], cache)
  | i :: rest =>
      let '(out, cache1) :=
        rerun (at_keras i) (at_open i) (at_pickle i) cv2_resize clahe_apply
          decode_picture np_mean np_std cache (uploaded i) (World [] []) in
      let '(outs, cache2) := session cache1 rest in
      (out :: outs, cache2)
  end.
End Session.

(** * Properties *)

(** ** Running computations *)

Lemma run_bind {A B} (m : M A) (k : A -> M B) (w : world) :
  run (m ≫= k) w =
  match run m w with
  | (Ok a, w') => run (k a) w'
  | (Raise e, w') => (Raise e, w')
  end.
Proof. reflexivity. Qed.

Lemma run_ret {A} (a : A) (w : world) : run (mret a) w = (Ok a, w).
Proof. reflexivity. Qed.

Lemma run_lift {A} (r : result A) (w : world) : run (lift r) w = (r, w).
Proof. reflexivity. Qed.

Lemma run_alloc (v : ndarray) (w : world) :
  run (alloc v) w = (Ok (length (heap w)), World (heap w ++ [v]) (log w)).
Proof. reflexivity. Qed.

Lemma run_read_u8 (l : loc) (a : array3 u8) (w : world) :
  heap w !! l = Some (U8 a) -> run (read_u8 l) w = (Ok a, w).
Proof. intros H. unfold run, read_u8. now rewrite H. Qed.

Lemma run_read_f32 (l : loc) (a : array3 spec_float) (w : world) :
  heap w !! l = Some (F32a a) -> run (read_f32 l) w = (Ok a, w).
Proof. intros H. unfold run, read_f32. now rewrite H. Qed.

Lemma lookup_snoc {A} (h : list A) (v : A) : (h ++ [v]) !! length h = Some v.
Proof. now apply list_lookup_middle. Qed.

Lemma lookup_app_plus {A} (h xs : list A) (k : nat) :
  (h ++ xs) !! (length h + k)%nat = xs !! k.
Proof. induction h as [|a h IH]; simpl; auto. Qed.

Lemma lookup_app_here {A} (h xs : list A) :
  (h ++ xs) !! length h = xs !! 0%nat.
Proof. rewrite <- (lookup_app_plus h xs 0). f_equal. lia. Qed.

Lemma insert_app_plus {A} (h xs : list A) (k : nat) (v : A) :
  <[(length h + k)%nat := v]> (h ++ xs) = h ++ <[k := v]> xs.
Proof. induction h as [|a h IH]; simpl; auto. now rewrite IH. Qed.

Lemma world_eta (w : world) : World (heap w) (log w) = w.
Proof. now destruct w. Qed.

(** ** The loop over the channels *)

Section Loop.
Variable clahe_apply :
    spec_float -> nat * nat -> array2 u8 -> result (array2 u8).
Variables (img img_clahe : loc) (q : array3 u8).
Hypothesis distinct : img <> img_clahe.

Let body : nat -> M unit := fun i =>
    x ← read_u8 img;
    plane ← lift (Np.get_channel x i);
    out ← lift (clahe_apply lit_0_02 (8, 8)%nat plane);
    dst ← read_u8 img_clahe;
    dst' ← lift (Np.set_channel dst i out);
    write img_clahe (U8 dst').

Lemma clahe_channel_eq (z : array3 u8) (i : nat) :
    clahe_channel clahe_apply q z i =
    rbind (Np.get_channel q i) (fun plane =>
    rbind (clahe_apply lit_0_02 (8, 8)%nat plane) (fun out =>
    Np.set_channel z i out)).
  Proof. reflexivity. Qed.

(** The loop reads [img], rewrites [img_clahe] in place and touches no
      other object; what it leaves in [img_clahe] is the fold of
      [clahe_channel]. *)
Lemma channel_loop_run (idx : list nat) :
    forall (w : world) (z : array3 u8),
      heap w !! img = Some (U8 q) ->
      heap w !! img_clahe = Some (U8 z) ->
      exists v,
        run (for_each idx body) w =
          (rmap (fun _ => tt) (foldM (clahe_channel clahe_apply q) idx z),
           World (<[img_clahe := U8 v]> (heap w)) (log w)) /\
        (forall z', foldM (clahe_channel clahe_apply q) idx z = Ok z' ->
                    v = z').
  Proof.
    induction idx as [|i idx IH]; intros w z Hq Hz.
    - exists z. split; [|intros z' H; simpl in H; congruence].
      simpl. rewrite run_ret. f_equal.
      rewrite list_insert_id by exact Hz. now rewrite world_eta.
    - simpl for_each. simpl foldM. rewrite clahe_channel_eq.
      rewrite run_bind. unfold body at 1.
      rewrite run_bind, (run_read_u8 _ _ _ Hq).
      rewrite run_bind, run_lift.
      destruct (Np.get_channel q i) as [plane|e]; simpl rbind;
        [|exists z; split; [|intros z' H; simpl in H; discriminate];
          simpl; now rewrite list_insert_id, world_eta by exact Hz].
      rewrite run_bind, run_lift.
      destruct (clahe_apply lit_0_02 (8, 8)%nat plane) as [out|e]; simpl rbind;
        [|exists z; split; [|intros z' H; simpl in H; discriminate];
          simpl; now rewrite list_insert_id, world_eta by exact Hz].
      rewrite run_bind, (run_read_u8 _ _ _ Hz).
      rewrite run_bind, run_lift.
      destruct (Np.set_channel z i out) as [z1|e]; simpl rbind;
        [|exists z; split; [|intros z' H; simpl in H; discriminate];
          simpl; now rewrite list_insert_id, world_eta by exact Hz].
      unfold run at 1, write.
      assert (Hlen : (img_clahe < length (heap w))%nat)
        by (eapply lookup_lt_Some; exact Hz).
      destruct (IH (World (<[img_clahe := U8 z1]> (heap w)) (log w)) z1)
        as (v & Hrun & Hv).
      + simpl. rewrite list_lookup_insert_ne by auto. exact Hq.
      + simpl. now apply list_lookup_insert_eq.
      + exists v. split; [|exact Hv].
        rewrite Hrun. simpl. now rewrite list_insert_insert_eq.
  Qed.
End Loop.

Lemma insert_snoc {A} (h : list A) (z v : A) :
  <[length h := v]> (h ++ [z]) = h ++ [v].
Proof.
  rewrite <- (Nat.add_0_r (length h)) at 1. now rewrite insert_app_plus.
Qed.

Lemma lookup_snoc_before {A} (h : list A) (a z : A) :
  ((h ++ [a]) ++ [z]) !! length h = Some a.
Proof.
  rewrite lookup_app_l by (rewrite length_app; simpl; lia).
  apply lookup_snoc.
Qed.

(** ** [preprocess_image] computes [preprocess_value]

    On every path: the result or the exception is that of the value-level
    reading, the objects that existed before the call are untouched, the
    arrays the routine creates (seven when it returns) come after them, and
    nothing is sent to the page. *)

Section Preprocess.
Variable cv2_resize : nat * nat -> array3 u8 -> result (array3 u8).
Variable clahe_apply :
    spec_float -> nat * nat -> array2 u8 -> result (array2 u8).
Variable np_mean np_std : array3 spec_float -> spec_float.

Local Abbreviation pre := (preprocess_image cv2_resize clahe_apply np_mean np_std).
Local Abbreviation pre_value :=
    (preprocess_value cv2_resize clahe_apply np_mean np_std).

Ltac exit_here :=
    cbn [rbind rmap]; eexists; split;
    [ f_equal; rewrite <- ?app_assoc; cbn [app]; reflexivity
    | intros ? ?; discriminate ].

Lemma preprocess_image_run (w : world) (l : loc) (img : array3 u8) :
    heap w !! l = Some (U8 img) ->
    exists extra,
      run (pre l) w =
        (rmap (fun _ => (length (heap w) + 6)%nat) (pre_value img),
         World (heap w ++ extra) (log w)) /\
      (forall out, pre_value img = Ok out ->
                   extra !! 6%nat = Some (F32a out) /\ length extra = 7%nat).
  Proof.
    intros Hl. destruct w as [h lg]. simpl in Hl. simpl heap. simpl log.
    unfold preprocess_image, preprocess_value.
    rewrite run_bind, (run_read_u8 l img (World h lg) Hl).
    rewrite run_bind, run_lift.
    destruct (cv2_resize IMG_SIZE img) as [r|e]; cbn [rbind rmap];
      [|exists []; split; [now rewrite app_nil_r | discriminate]].
    rewrite run_bind, run_alloc. simpl heap. simpl log.
    rewrite run_bind, (run_read_u8 _ r) by (simpl; apply lookup_snoc).
    rewrite run_bind, run_alloc. simpl heap. simpl log.
    rewrite run_bind, (run_read_f32 _ (Np.astype_f32 r)) by (simpl; apply lookup_snoc).
    set (x1 := Np.astype_f32 r).
    rewrite run_bind, run_alloc. simpl heap. simpl log.
    set (x2 := Np.div_scalar (Np.sub_scalar x1 (np_mean x1))
                             (F32.add (np_std x1) eps)).
    rewrite run_bind, (run_read_f32 _ x2) by (simpl; apply lookup_snoc).
    rewrite run_bind, run_lift.
    destruct (Np.min x2) as [lo|e]; cbn [rbind rmap]; [|exit_here].
    rewrite run_bind, run_lift.
    destruct (Np.ptp x2) as [range|e]; cbn [rbind rmap]; [|exit_here].
    rewrite run_bind, run_alloc. simpl heap. simpl log.
    set (x3 := Np.div_scalar (Np.sub_scalar x2 lo) (F32.add range eps)).
    rewrite run_bind, (run_read_f32 _ x3) by (simpl; apply lookup_snoc).
    rewrite run_bind, run_alloc. simpl heap. simpl log.
    set (q := Np.astype_u8 (Np.mul_scalar x3 (F32.of_Z 255))).
    rewrite run_bind, (run_read_u8 _ q) by (simpl; apply lookup_snoc).
    rewrite run_bind, run_alloc. simpl heap. simpl log.
    set (H4 := (((h ++ [U8 r]) ++ [F32a x1]) ++ [F32a x2]) ++ [F32a x3]).
    rewrite run_bind. unfold for_range.
    destruct (channel_loop_run clahe_apply (length H4)
                (length (H4 ++ [U8 q])) q) with
      (idx := seq 0 3)
      (w := World ((H4 ++ [U8 q]) ++ [U8 (Np.zeros_like q)]) lg)
      (z := Np.zeros_like q) as (v & Hrun & Hv).
    { rewrite length_app. simpl. lia. }
    { simpl. apply lookup_snoc_before. }
    { simpl. apply lookup_snoc. }
    rewrite Hrun. clear Hrun. simpl heap. simpl log.
    rewrite insert_snoc.
    destruct (foldM (clahe_channel clahe_apply q) (seq 0 3) (Np.zeros_like q))
      as [z'|e]; cbn [rbind rmap]; [|subst H4; exit_here].
    rewrite (Hv z' eq_refl). clear Hv.
    rewrite run_bind, (run_read_u8 _ z') by (simpl; apply lookup_snoc).
    rewrite run_alloc. simpl heap. simpl log. subst H4.
    eexists. split.
    - f_equal.
      + f_equal. rewrite !length_app. simpl. lia.
      + f_equal. rewrite <- !app_assoc. cbn [app]. reflexivity.
    - intros out [= <-]. split; reflexivity.
  Qed.

(** The arrays of a call that returns, in the order of their creation:
    the resized image, its [float32] copy, the standardized and the
    rescaled array, the quantized one, the buffer of the loop as the
    loop leaves it, and the result. *)
Lemma preprocess_image_trace (w : world) (l : loc) (img r : array3 u8)
    (lo range : spec_float) (z : array3 u8) :
    heap w !! l = Some (U8 img) ->
    cv2_resize IMG_SIZE img = Ok r ->
    let x1 := Np.astype_f32 r in
    let x2 := Np.div_scalar (Np.sub_scalar x1 (np_mean x1))
                            (F32.add (np_std x1) eps) in
    Np.min x2 = Ok lo ->
    Np.ptp x2 = Ok range ->
    let x3 := Np.div_scalar (Np.sub_scalar x2 lo) (F32.add range eps) in
    let q := Np.astype_u8 (Np.mul_scalar x3 (F32.of_Z 255)) in
    foldM (clahe_channel clahe_apply q) (seq 0 3) (Np.zeros_like q) = Ok z ->
    run (pre l) w =
      (Ok (length (heap w) + 6)%nat,
       World (heap w ++
              [U8 r; F32a x1; F32a x2; F32a x3; U8 q; U8 z;
               F32a (Np.div_scalar (Np.astype_f32 z) (F32.of_f64 lit_255))])
             (log w)).
  Proof.
    intros Hl Hr x1 x2 Hlo Hptp x3 q Hz.
    destruct w as [h lg]. simpl in Hl. simpl heap. simpl log.
    unfold preprocess_image.
    rewrite run_bind, (run_read_u8 l img (World h lg) Hl).
    rewrite run_bind, run_lift, Hr.
    rewrite run_bind, run_alloc. simpl heap. simpl log.
    rewrite run_bind, (run_read_u8 _ r) by (simpl; apply lookup_snoc).
    rewrite run_bind, run_alloc. simpl heap. simpl log.
    rewrite run_bind, (run_read_f32 _ (Np.astype_f32 r))
      by (simpl; apply lookup_snoc).
    fold x1.
    rewrite run_bind, run_alloc. simpl heap. simpl log. fold x2.
    rewrite run_bind, (run_read_f32 _ x2) by (simpl; apply lookup_snoc).
    rewrite run_bind, run_lift, Hlo.
    rewrite run_bind, run_lift, Hptp.
    rewrite run_bind, run_alloc. simpl heap. simpl log. fold x3.
    rewrite run_bind, (run_read_f32 _ x3) by (simpl; apply lookup_snoc).
    rewrite run_bind, run_alloc. simpl heap. simpl log. fold q.
    rewrite run_bind, (run_read_u8 _ q) by (simpl; apply lookup_snoc).
    rewrite run_bind, run_alloc. simpl heap. simpl log.
    set (H4 := (((h ++ [U8 r]) ++ [F32a x1]) ++ [F32a x2]) ++ [F32a x3]).
    rewrite run_bind. unfold for_range.
    destruct (channel_loop_run clahe_apply (length H4)
                (length (H4 ++ [U8 q])) q) with
      (idx := seq 0 3)
      (w := World ((H4 ++ [U8 q]) ++ [U8 (Np.zeros_like q)]) lg)
      (z := Np.zeros_like q) as (v & Hrun & Hv).
    { rewrite length_app. simpl. lia. }
    { simpl. apply lookup_snoc_before. }
    { simpl. apply lookup_snoc. }
    rewrite Hrun. clear Hrun. simpl heap. simpl log.
    rewrite insert_snoc, Hz. cbn [rmap].
    rewrite (Hv z Hz). clear Hv.
    rewrite run_bind, (run_read_u8 _ z) by (simpl; apply lookup_snoc).
    rewrite run_alloc. simpl heap. simpl log. subst H4.
    f_equal.
    - f_equal. rewrite !length_app. simpl. lia.
    - f_equal. rewrite <- !app_assoc. cbn [app]. reflexivity.
  Qed.

(** With no image at [l], the first statement raises. *)
Lemma preprocess_image_dangling (w : world) (l : loc) :
    (forall img, heap w !! l <> Some (U8 img)) ->
    exists e, run (pre l) w = (Raise e, w).
  Proof.
    intros Hl. unfold preprocess_image. rewrite run_bind.
    unfold run at 1, read_u8.
    destruct (heap w !! l) as [[a|a]|] eqn:E; eauto.
    now destruct (Hl a).
  Qed.
End Preprocess.

(** ** Shapes *)

Lemma has_shape_map3 {A B} (f : A -> B) (h w c : nat) (a : array3 A) :
  has_shape h w c a -> has_shape h w c (map3 f a).
Proof.
  intros [Hh Hrows]. split; [unfold map3; now rewrite length_map|].
  unfold map3. rewrite Forall_map. eapply Forall_impl; [exact Hrows|].
  intros row [Hw Hpx]. simpl. split; [now rewrite length_map|].
  rewrite Forall_map. eapply Forall_impl; [exact Hpx|].
  intros px Hc. simpl. now rewrite length_map.
Qed.

Lemma has_shapeb_spec {A} (h w c : nat) (a : array3 A) :
  has_shapeb h w c a = true <-> has_shape h w c a.
Proof.
  unfold has_shapeb, has_shape.
  rewrite andb_true_iff, Nat.eqb_eq, forallb_forall, Forall_forall.
  split; intros [Hh H]; (split; [exact Hh|]); intros row Hin.
  - apply list_elem_of_In, H in Hin.
    rewrite andb_true_iff, Nat.eqb_eq, forallb_forall in Hin.
    destruct Hin as [Hw Hpx]. split; [exact Hw|].
    apply Forall_forall. intros px Hp.
    apply Nat.eqb_eq, Hpx. now apply list_elem_of_In.
  - apply list_elem_of_In, H in Hin. destruct Hin as [Hw Hpx].
    rewrite andb_true_iff, Nat.eqb_eq, forallb_forall. split; [exact Hw|].
    intros px Hp. apply Nat.eqb_eq.
    rewrite Forall_forall in Hpx. now apply Hpx, list_elem_of_In.
Qed.

Lemma Forall_values {A} (P : A -> Prop) (a : array3 A) :
  Forall (Forall (Forall P)) a -> Forall P (values a).
Proof.
  intros H. unfold values. apply Forall_concat, Forall_concat. exact H.
Qed.

Lemma Forall_values_map3 {A B} (P : B -> Prop) (f : A -> B) (a : array3 A) :
  (forall x, P (f x)) -> Forall P (values (map3 f a)).
Proof.
  intros H. apply Forall_values. unfold map3.
  rewrite Forall_map. apply Forall_forall. intros row _. simpl.
  rewrite Forall_map. apply Forall_forall. intros px _. simpl.
  rewrite Forall_map. apply Forall_forall. intros x _. apply H.
Qed.

Lemma map3_map3 {A B C} (f : B -> C) (g : A -> B) (a : array3 A) :
  map3 f (map3 g a) = map3 (fun x => f (g x)) a.
Proof.
  unfold map3. rewrite map_map. apply map_ext. intros row.
  rewrite map_map. apply map_ext. intros px. now rewrite map_map.
Qed.

(** *** Planes of an array *)

Lemma get_channel_row_ok {A} (i c : nat) (row : list (list A)) :
  (i < c)%nat -> Forall (fun px => length px = c) row ->
  exists vs,
    mapM (fun px : list A =>
            match px !! i with
            | Some v => Ok v
            | None => Raise (IndexError "index is out of bounds for axis 2")
            end) row = Ok vs /\ length vs = length row.
Proof.
  intros Hi. induction 1 as [|px row Hpx _ IH]; simpl.
  - now exists [].
  - destruct (lookup_lt_is_Some_2 px i) as [v Hv]; [lia|].
    rewrite Hv. simpl. destruct IH as (vs & -> & Hlen). simpl.
    exists (v :: vs). simpl. now rewrite Hlen.
Qed.

Lemma get_channel_ok {A} (h w c i : nat) (a : array3 A) :
  (i < c)%nat -> has_shape h w c a ->
  exists plane, Np.get_channel a i = Ok plane /\ has_shape2 h w plane.
Proof.
  intros Hi [Hh Hrows]. subst h. unfold Np.get_channel.
  induction Hrows as [|row a [Hw Hpx] _ IH]; simpl.
  - exists []. repeat split. constructor.
  - destruct (get_channel_row_ok i c row Hi Hpx) as (vs & -> & Hlen).
    simpl. destruct IH as (plane & -> & Hp1 & Hp2). simpl.
    exists (vs :: plane). repeat split; simpl; [now rewrite Hp1|].
    constructor; [congruence|exact Hp2].
Qed.

Lemma set_channel_row_ok {A} (i c : nat) (row : list (list A)) (ch : list A) :
  (i < c)%nat -> Forall (fun px => length px = c) row ->
  length ch = length row ->
  Np.set_channel_row row i ch = Ok (zip_with (fun px v => <[i:=v]> px) row ch).
Proof.
  intros Hi Hrow. revert ch.
  induction Hrow as [|px row Hpx _ IH]; intros [|v ch] Hlen;
    simpl in *; try discriminate; [reflexivity|].
  destruct (decide (i < length px)%nat) as [_|Hn]; [|lia].
  rewrite IH by lia. reflexivity.
Qed.

Lemma set_channel_ok {A} (h w c i : nat) (a : array3 A) (ch : array2 A) :
  (i < c)%nat -> has_shape h w c a -> has_shape2 h w ch ->
  Np.set_channel a i ch = Ok (set_plane a i ch).
Proof.
  intros Hi [Hh Hrows] [Hh2 Hch]. subst h. revert ch Hh2 Hch.
  induction Hrows as [|row a [Hw Hpx] _ IH]; intros [|crow ch] Hlen Hch;
    simpl in *; try discriminate; [reflexivity|].
  inversion Hch as [|? ? Hc Hch']; subst.
  rewrite (set_channel_row_ok i c) by (auto; congruence). simpl.
  rewrite IH by (auto; lia). reflexivity.
Qed.

Lemma set_plane_shape {A} (h w c i : nat) (a : array3 A) (ch : array2 A) :
  has_shape h w c a -> has_shape2 h w ch -> has_shape h w c (set_plane a i ch).
Proof.
  intros [Hh Hrows] [Hh2 Hch]. subst h. revert ch Hh2 Hch.
  unfold set_plane.
  induction Hrows as [|row a [Hw Hpx] _ IH]; intros [|crow ch] Hlen Hch;
    simpl in *; try discriminate; [split; [reflexivity|constructor]|].
  inversion Hch as [|? ? Hc Hch']; subst.
  destruct (IH ch) as [IH1 IH2]; [lia|exact Hch'|].
  split; [simpl; now rewrite IH1|].
  constructor; [|exact IH2]. split.
  - rewrite length_zip_with. lia.
  - clear -Hpx. revert crow. induction Hpx as [|px row Hp _ IHp];
      intros [|v crow]; simpl; constructor; auto.
    now rewrite length_insert.
Qed.

Lemma set_three_row {A} (zs : list (list A)) (r0 r1 r2 : list A) :
  Forall (fun px => length px = 3%nat) zs ->
  length r0 = length zs -> length r1 = length zs -> length r2 = length zs ->
  zip_with (fun px v => <[2%nat:=v]> px)
    (zip_with (fun px v => <[1%nat:=v]> px)
       (zip_with (fun px v => <[0%nat:=v]> px) zs r0) r1) r2
  = Steps.zip3 (fun a b c => [a; b; c]) r0 r1 r2.
Proof.
  intros Hz. revert r0 r1 r2.
  induction Hz as [|px zs Hpx _ IH]; intros [|a r0] [|b r1] [|c r2] H0 H1 H2;
    simpl in *; try discriminate; [reflexivity|].
  rewrite IH by lia. f_equal.
  destruct px as [|x [|y [|z [|]]]]; simpl in Hpx; try discriminate.
  reflexivity.
Qed.

(** Writing three planes into the three channels of an array leaves
    exactly those planes, whatever the array held. *)
Lemma set_three_planes {A} (h w : nat) (z : array3 A) (c0 c1 c2 : array2 A) :
  has_shape h w 3 z ->
  has_shape2 h w c0 -> has_shape2 h w c1 -> has_shape2 h w c2 ->
  set_plane (set_plane (set_plane z 0 c0) 1 c1) 2 c2
  = Steps.zip3 (Steps.zip3 (fun a b c => [a; b; c])) c0 c1 c2.
Proof.
  intros [Hh Hz] [H0 F0] [H1 F1] [H2 F2]. subst h. unfold set_plane.
  revert c0 c1 c2 H0 F0 H1 F1 H2 F2.
  induction Hz as [|row z [Hw Hpx] _ IH];
    intros [|r0 c0] [|r1 c1] [|r2 c2] H0 F0 H1 F1 H2 F2;
    simpl in *; try discriminate; [reflexivity|].
  inversion F0; inversion F1; inversion F2; subst.
  rewrite IH by (auto; lia). f_equal.
  apply set_three_row; auto; congruence.
Qed.

Lemma zeros_like_shape (h w c : nat) (a : array3 u8) :
  has_shape h w c a -> has_shape h w c (Np.zeros_like a).
Proof. apply has_shape_map3. Qed.

(** ** The loop is CLAHE on each channel by itself *)

Section Channels.
Variable clahe_apply :
    spec_float -> nat * nat -> array2 u8 -> result (array2 u8).
Hypothesis clahe_ok : clahe_contract clahe_apply.

Lemma channel_loop_value (h w : nat) (q : array3 u8) :
    has_shape h w 3 q ->
    exists out,
      foldM (clahe_channel clahe_apply q) (seq 0 3) (Np.zeros_like q) = Ok out /\
      Steps.equalize_channels clahe_apply q = Ok out /\
      has_shape h w 3 out.
  Proof.
    intros Hq.
    destruct (get_channel_ok h w 3 0 q) as (p0 & G0 & S0); [lia|exact Hq|].
    destruct (get_channel_ok h w 3 1 q) as (p1 & G1 & S1); [lia|exact Hq|].
    destruct (get_channel_ok h w 3 2 q) as (p2 & G2 & S2); [lia|exact Hq|].
    destruct (clahe_ok lit_0_02 (8, 8)%nat h w p0 S0) as (c0 & E0 & T0).
    destruct (clahe_ok lit_0_02 (8, 8)%nat h w p1 S1) as (c1 & E1 & T1).
    destruct (clahe_ok lit_0_02 (8, 8)%nat h w p2 S2) as (c2 & E2 & T2).
    pose proof (zeros_like_shape h w 3 q Hq) as Z0.
    pose proof (set_plane_shape h w 3 0 _ c0 Z0 T0) as Z1.
    pose proof (set_plane_shape h w 3 1 _ c1 Z1 T1) as Z2.
    pose proof (set_plane_shape h w 3 2 _ c2 Z2 T2) as Z3.
    exists (Steps.merge c0 c1 c2).
    unfold Steps.merge.
    rewrite <- (set_three_planes h w (Np.zeros_like q) c0 c1 c2 Z0 T0 T1 T2).
    split; [|split; [|exact Z3]].
    - cbn [seq foldM]. unfold clahe_channel.
      rewrite G0. cbn [rbind]. rewrite E0. cbn [rbind].
      rewrite (set_channel_ok h w 3 0) by (auto; lia). cbn [rbind].
      rewrite G1. cbn [rbind]. rewrite E1. cbn [rbind].
      rewrite (set_channel_ok h w 3 1) by (auto; lia). cbn [rbind].
      rewrite G2. cbn [rbind]. rewrite E2. cbn [rbind].
      rewrite (set_channel_ok h w 3 2) by (auto; lia). reflexivity.
    - unfold Steps.equalize_channels, Steps.equalize.
      rewrite G0, G1, G2. cbn [rbind]. rewrite E0, E1, E2. cbn [rbind].
      unfold Steps.merge.
      now rewrite (set_three_planes h w (Np.zeros_like q) c0 c1 c2).
  Qed.
End Channels.

(** ** Reductions over a non-empty array *)

Lemma values_nonempty {A} (h w c : nat) (a : array3 A) :
  (0 < h)%nat -> (0 < w)%nat -> (0 < c)%nat -> has_shape h w c a ->
  exists x xs, values a = x :: xs.
Proof.
  intros Hh Hw Hc [Hlen Hrows].
  destruct a as [|row a]; simpl in Hlen; [lia|].
  apply Forall_cons in Hrows. destruct Hrows as [[Hrow Hpx] _].
  destruct row as [|px row]; simpl in Hrow; [lia|].
  apply Forall_cons in Hpx. destruct Hpx as [Hp _].
  destruct px as [|x px]; simpl in Hp; [lia|].
  unfold values. simpl. eauto.
Qed.

Lemma reduce_ok op what (a : array3 spec_float) x xs :
  values a = x :: xs -> Np.reduce op what a = Ok (fold_left op xs x).
Proof. intros H. unfold Np.reduce. now rewrite H. Qed.

Lemma ptp_ok (a : array3 spec_float) x xs :
  values a = x :: xs ->
  exists lo hi, Np.min a = Ok lo /\ Np.max a = Ok hi /\
                Np.ptp a = Ok (F32.sub hi lo).
Proof.
  intros H. unfold Np.ptp, Np.min, Np.max.
  rewrite !(reduce_ok _ _ a x xs H). simpl. eauto.
Qed.

Lemma lit_255_f32 : F32.of_f64 lit_255 = F32.of_Z 255.
Proof. reflexivity. Qed.

(** Every [uint8] divided by 255 in [float32] lies in the unit interval. *)
Lemma u8_over_255_unit (b : u8) :
  in_unit_interval (F32.div (Np.f32_of_u8 b) (F32.of_f64 lit_255)) = true.
Proof. destruct b; vm_compute; reflexivity. Qed.

Lemma in_unit_interval_finite (x : spec_float) :
  in_unit_interval x = true -> is_finite x = true.
Proof.
  unfold in_unit_interval. destruct x as [s|[|]| |s m e]; simpl; try reflexivity;
    intros H; try discriminate.
Qed.

(** ** The value [preprocess_image] returns *)

Section PreprocessValue.
Variable cv2_resize : nat * nat -> array3 u8 -> result (array3 u8).
Variable clahe_apply :
    spec_float -> nat * nat -> array2 u8 -> result (array2 u8).
Variable np_mean np_std : array3 spec_float -> spec_float.
Hypothesis resize_ok : resize_contract cv2_resize.
Hypothesis clahe_ok : clahe_contract clahe_apply.

Lemma preprocess_value_ok (h w : nat) (img : array3 u8) :
    (0 < h)%nat -> (0 < w)%nat -> has_shape h w 3 img ->
    exists out,
      preprocess_value cv2_resize clahe_apply np_mean np_std img = Ok out /\
      Steps.preprocess cv2_resize clahe_apply np_mean np_std img = Ok out /\
      has_shape 224 224 3 out /\
      Forall (fun v => in_unit_interval v = true) (values out).
  Proof.
    intros Hh Hw Himg.
    destruct (resize_ok 224 224 h w 3 img Hh Hw Himg)%nat as (r & Hr & Sr).
    unfold preprocess_value, Steps.preprocess, Steps.resize, IMG_SIZE.
    rewrite Hr. cbn [rbind].
    set (x1 := Np.astype_f32 r).
    set (x2 := Np.div_scalar (Np.sub_scalar x1 (np_mean x1))
                             (F32.add (np_std x1) eps)).
    assert (E2 : Steps.standardize np_mean np_std (Steps.to_float r) = x2).
    { change (Steps.to_float r) with x1.
      unfold Steps.standardize, x2, Np.div_scalar, Np.sub_scalar.
      now rewrite map3_map3. }
    rewrite E2.
    assert (S2 : has_shape 224 224 3 x2)
      by (unfold x2, x1, Np.div_scalar, Np.sub_scalar, Np.astype_f32;
          now repeat apply has_shape_map3).
    destruct (values_nonempty 224 224 3 x2)%nat as (v & vs & Hv);
      [lia|lia|lia|exact S2|].
    destruct (ptp_ok x2 v vs Hv) as (lo & hi & Hlo & Hhi & Hptp).
    unfold Steps.rescale. rewrite Hlo, Hhi, Hptp. cbn [rbind].
    set (x3 := Np.div_scalar (Np.sub_scalar x2 lo)
                 (F32.add (F32.sub hi lo) eps)).
    replace (map3 (fun x => F32.div (F32.sub x lo)
                              (F32.add (F32.sub hi lo) eps)) x2) with x3
      by (unfold x3, Np.div_scalar, Np.sub_scalar; now rewrite map3_map3).
    set (q := Np.astype_u8 (Np.mul_scalar x3 (F32.of_Z 255))).
    replace (Steps.quantize x3) with q
      by (unfold q, Steps.quantize, Np.astype_u8, Np.mul_scalar;
          now rewrite map3_map3).
    assert (Sq : has_shape 224 224 3 q)
      by (unfold q, x3, Np.astype_u8, Np.mul_scalar, Np.div_scalar,
            Np.sub_scalar; now repeat apply has_shape_map3).
    destruct (channel_loop_value clahe_apply clahe_ok 224 224 q Sq)%nat
      as (c & Hloop & Hsteps & Sc).
    rewrite Hloop, Hsteps. cbn [rbind].
    exists (Np.div_scalar (Np.astype_f32 c) (F32.of_f64 lit_255)).
    split; [reflexivity|]. split; [|split].
    - f_equal. unfold Steps.to_unit, Np.div_scalar, Np.astype_f32.
      rewrite map3_map3. now rewrite lit_255_f32.
    - unfold Np.div_scalar, Np.astype_f32. now repeat apply has_shape_map3.
    - unfold Np.div_scalar, Np.astype_f32. rewrite map3_map3.
      apply Forall_values_map3. intros b. apply u8_over_255_unit.
  Qed.
End PreprocessValue.

(** ** The stand-ins meet the contracts *)

Lemma fixture_resize_ok : resize_contract Fixture.resize.
Proof.
  intros dw dh h w c src Hh Hw [Hlen Hrows].
  destruct src as [|row0 src]; simpl in Hlen; [lia|].
  pose proof Hrows as Hall.
  apply Forall_cons in Hrows. destruct Hrows as [[Hrow0 Hpx0] _].
  destruct row0 as [|px0 row0]; simpl in Hrow0; [lia|].
  apply Forall_cons in Hpx0. destruct Hpx0 as [Hp0 _].
  eexists. split; [reflexivity|]. split.
  - now rewrite length_map, length_seq.
  - rewrite Forall_map. apply Forall_forall. intros r _. simpl. split.
    + now rewrite length_map, length_seq.
    + rewrite Forall_map. apply Forall_forall. intros k _. simpl.
      set (row := default [] (_ !! _)).
      assert (Hrow : Forall (fun px : list u8 => length px = c) row).
      { subst row. destruct (_ !! _) as [row|] eqn:Erow; simpl; [|constructor].
        rewrite Forall_forall in Hall.
        destruct (Hall row) as [_ Hpx]; [|exact Hpx].
        eapply list_elem_of_lookup_2; eauto. }
      destruct (row !! _) as [px|] eqn:Epx; simpl; [|exact Hp0].
      rewrite Forall_forall in Hrow. apply Hrow.
      eapply list_elem_of_lookup_2; eauto.
Qed.

Lemma fixture_clahe_ok : clahe_contract Fixture.clahe.
Proof. intros clip tiles h w plane Hp. exists plane. now split. Qed.

Lemma fixture_models_ok :
  models_contract Fixture.extractor Fixture.selector Fixture.classifier.
Proof.
  intros x _. eexists _, _, _. repeat split; try reflexivity.
  repeat constructor.
Qed.

Lemma fixture_tiny_shape : has_shape 2 2 3 Fixture.tiny.
Proof. now apply has_shapeb_spec. Qed.

(** * The claims *)

Section PreprocessClaims.
Variable cv2_resize : nat * nat -> array3 u8 -> result (array3 u8).
Variable clahe_apply :
    spec_float -> nat * nat -> array2 u8 -> result (array2 u8).
Variable np_mean np_std : array3 spec_float -> spec_float.
Hypothesis resize_ok : resize_contract cv2_resize.
Hypothesis clahe_ok : clahe_contract clahe_apply.

Local Abbreviation pre :=
    (preprocess_image cv2_resize clahe_apply np_mean np_std).

(** The call returns a new [float32] array holding what the value-level
      reading and the seven steps both compute. *)
Lemma preprocess_image_ok (w : world) (l : loc) (h wd : nat)
      (img : array3 u8) :
    heap w !! l = Some (U8 img) ->
    (0 < h)%nat -> (0 < wd)%nat -> has_shape h wd 3 img ->
    exists out extra,
      run (pre l) w =
        (Ok (length (heap w) + 6)%nat, World (heap w ++ extra) (log w)) /\
      extra !! 6%nat = Some (F32a out) /\
      preprocess_value cv2_resize clahe_apply np_mean np_std img = Ok out /\
      Steps.preprocess cv2_resize clahe_apply np_mean np_std img = Ok out /\
      has_shape 224 224 3 out /\
      Forall (fun v => in_unit_interval v = true) (values out).
  Proof.
    intros Hl Hh Hw Himg.
    destruct (preprocess_value_ok cv2_resize clahe_apply np_mean np_std
                resize_ok clahe_ok h wd img Hh Hw Himg)
      as (out & Hval & Hsteps & Hshape & Hrange).
    destruct (preprocess_image_run cv2_resize clahe_apply np_mean np_std
                w l img Hl) as (extra & Hrun & Hout).
    rewrite Hval in Hrun. cbn [rmap] in Hrun.
    exists out, extra.
    split; [exact Hrun|]. split; [exact (proj1 (Hout _ Hval))|].
    split; [exact Hval|]. split; [exact Hsteps|]. now split.
  Qed.

(** C2.  On every image, [preprocess_image] returns what these steps
      give, applied in this order: resize to 224 x 224, convert to float,
      standardize with the global mean and the global standard deviation
      plus 1e-8, rescale with the global minimum and the peak-to-peak range
      plus 1e-8, quantize to 8 bits, CLAHE (clip limit 0.02, tiles 8 x 8) on
      each of the three channels by itself, convert to float and divide by
      255. *)
Theorem preprocess_image_follows_steps (w : world) (l : loc) (h wd : nat)
      (img : array3 u8) :
    heap w !! l = Some (U8 img) ->
    (0 < h)%nat -> (0 < wd)%nat -> has_shape h wd 3 img ->
    exists l' w' resized rescaled equalized,
      run (pre l) w = (Ok l', w') /\
      Steps.resize cv2_resize img = Ok resized /\
      Steps.rescale
        (Steps.standardize np_mean np_std (Steps.to_float resized))
        = Ok rescaled /\
      Steps.equalize_channels clahe_apply (Steps.quantize rescaled)
        = Ok equalized /\
      heap w' !! l' = Some (F32a (Steps.to_unit equalized)).
  Proof.
    intros Hl Hh Hw Himg.
    destruct (preprocess_image_ok w l h wd img Hl Hh Hw Himg)
      as (out & extra & Hrun & Hout & _ & Hsteps & _).
    unfold Steps.preprocess in Hsteps.
    destruct (Steps.resize cv2_resize img) as [a1|] eqn:E1; [|discriminate].
    cbn [rbind] in Hsteps.
    destruct (Steps.rescale _) as [a4|] eqn:E4; [|discriminate].
    cbn [rbind] in Hsteps.
    destruct (Steps.equalize_channels _ _) as [a6|] eqn:E6; [|discriminate].
    cbn [rbind] in Hsteps. injection Hsteps as <-.
    eexists _, _, a1, a4, a6. split; [exact Hrun|].
    split; [reflexivity|]. split; [exact E4|]. split; [exact E6|].
    cbn [heap]. rewrite lookup_app_plus. exact Hout.
  Qed.

(** C3.  For an image of any height and width, [preprocess_image] returns
      a [float32] array of shape 224 x 224 x 3 whose values all lie in
      [0, 1]. *)
Theorem preprocess_image_shape_and_range (w : world) (l : loc) (h wd : nat)
      (img : array3 u8) :
    heap w !! l = Some (U8 img) ->
    (0 < h)%nat -> (0 < wd)%nat -> has_shape h wd 3 img ->
    exists l' w' out,
      run (pre l) w = (Ok l', w') /\
      heap w' !! l' = Some (F32a out) /\
      has_shape 224 224 3 out /\
      Forall (fun v => SFleb f_zero v = true /\ SFleb v f_one = true)
             (values out).
  Proof.
    intros Hl Hh Hw Himg.
    destruct (preprocess_image_ok w l h wd img Hl Hh Hw Himg)
      as (out & extra & Hrun & Hout & _ & _ & Hshape & Hrange).
    eexists _, _, out. split; [exact Hrun|]. split; [|split; [exact Hshape|]].
    - cbn [heap]. rewrite lookup_app_plus. exact Hout.
    - eapply Forall_impl; [exact Hrange|]. intros v Hv.
      now apply andb_true_iff in Hv.
  Qed.
End PreprocessClaims.

Lemma preprocess_image_follows_steps_witness :
  exists l' w' resized rescaled equalized,
    run (preprocess_image Fixture.resize Fixture.clahe Fixture.mean
           Fixture.std 0%nat) (Fixture.start Fixture.tiny) = (Ok l', w') /\
    Steps.resize Fixture.resize Fixture.tiny = Ok resized /\
    Steps.rescale
      (Steps.standardize Fixture.mean Fixture.std (Steps.to_float resized))
      = Ok rescaled /\
    Steps.equalize_channels Fixture.clahe (Steps.quantize rescaled)
      = Ok equalized /\
    heap w' !! l' = Some (F32a (Steps.to_unit equalized)).
Proof.
  apply (preprocess_image_follows_steps Fixture.resize Fixture.clahe
           Fixture.mean Fixture.std fixture_resize_ok fixture_clahe_ok
           (Fixture.start Fixture.tiny) 0%nat 2%nat 2%nat Fixture.tiny).
  - reflexivity.
  - lia.
  - lia.
  - exact fixture_tiny_shape.
Defined.

Lemma preprocess_image_shape_and_range_witness :
  exists l' w' out,
    run (preprocess_image Fixture.resize Fixture.clahe Fixture.mean
           Fixture.std 0%nat) (Fixture.start Fixture.tiny) = (Ok l', w') /\
    heap w' !! l' = Some (F32a out) /\
    has_shape 224 224 3 out /\
    Forall (fun v => SFleb f_zero v = true /\ SFleb v f_one = true)
           (values out).
Proof.
  apply (preprocess_image_shape_and_range Fixture.resize Fixture.clahe
           Fixture.mean Fixture.std fixture_resize_ok fixture_clahe_ok
           (Fixture.start Fixture.tiny) 0%nat 2%nat 2%nat Fixture.tiny).
  - reflexivity.
  - lia.
  - lia.
  - exact fixture_tiny_shape.
Defined.

(** ** Constant arrays *)

Lemma values_map3 {A B} (f : A -> B) (a : array3 A) :
  values (map3 f a) = map f (values a).
Proof.
  unfold values, map3. now rewrite !concat_map.
Qed.

Lemma constant_map3 {A B} (f : A -> B) (c : A) (a : array3 A) :
  constant c a -> constant (f c) (map3 f a).
Proof.
  unfold constant. rewrite values_map3, Forall_map. intros H.
  eapply Forall_impl; [exact H|]. now intros v ->.
Qed.

Lemma constantb_spec (c : u8) (a : array3 u8) :
  constantb c a = true -> constant c a.
Proof.
  unfold constantb, constant. rewrite forallb_forall, Forall_forall.
  intros H v Hv. apply Byte.byte_dec_bl, H. now apply list_elem_of_In.
Qed.

Lemma fold_left_constant {A} (op : A -> A -> A) (z : A) (xs : list A) :
  op z z = z -> Forall (fun v => v = z) xs -> fold_left op xs z = z.
Proof.
  intros Hop. induction 1 as [|x xs -> _ IH]; simpl; [reflexivity|].
  now rewrite Hop.
Qed.

Lemma minimum_idem (z : spec_float) : Np.minimum z z = z.
Proof. unfold Np.minimum. now repeat destruct (_ : bool). Qed.

Lemma maximum_idem (z : spec_float) : Np.maximum z z = z.
Proof. unfold Np.maximum. now repeat destruct (_ : bool). Qed.

Lemma min_max_constant (z : spec_float) (a : array3 spec_float) x xs :
  values a = x :: xs -> constant z a ->
  Np.min a = Ok z /\ Np.max a = Ok z /\ Np.ptp a = Ok (F32.sub z z).
Proof.
  intros Hv Hc. unfold constant in Hc. rewrite Hv in Hc.
  apply Forall_cons in Hc. destruct Hc as [-> Hxs].
  unfold Np.ptp, Np.min, Np.max. rewrite !(reduce_ok _ _ a z xs Hv).
  rewrite (fold_left_constant _ z xs (minimum_idem z) Hxs).
  rewrite (fold_left_constant _ z xs (maximum_idem z) Hxs).
  now cbn [rbind].
Qed.

(** ** Arithmetic around zero *)

Lemma sub_self (z : spec_float) : is_finite z = true -> F32.sub z z = f_zero.
Proof.
  destruct z as [[|]| | |s m e]; try discriminate; intros _; try reflexivity.
  unfold F32.sub, SFsub. rewrite Z.min_id. unfold shl_align.
  rewrite Z.sub_diag. cbn [fst]. reflexivity.
Qed.

Lemma sub_self_zero_finite (z : spec_float) :
  is_zero (F32.sub z z) = true -> is_finite z = true.
Proof. destruct z as [s|[|]| |s m e]; simpl; auto. Qed.

Lemma add_zero_eps (z : spec_float) : is_zero z = true -> F32.add z eps = eps.
Proof. destruct z as [[|]| | |]; try discriminate; reflexivity. Qed.

Lemma eps_value : eps = S754_finite false 11258999 (-50).
Proof. reflexivity. Qed.

Lemma zero_over_eps : F32.div f_zero eps = f_zero.
Proof. reflexivity. Qed.

Lemma fixture_resize_constant : resize_keeps_constant Fixture.resize.
Proof.
  intros [dw dh] src dst c Hres Hc. unfold Fixture.resize in Hres.
  unfold constant, values in Hc.
  rewrite !Forall_concat in Hc.
  destruct src as [|row0 src]; [discriminate|].
  destruct row0 as [|px0 row0]; [discriminate|].
  injection Hres as <-.
  assert (Hp0 : Forall (fun v => v = c) px0).
  { apply Forall_cons in Hc. destruct Hc as [Hc _].
    apply Forall_cons in Hc. now destruct Hc. }
  apply Forall_values. rewrite Forall_map. apply Forall_forall.
  intros r _. simpl. rewrite Forall_map. apply Forall_forall.
  intros k _. simpl.
  set (row := default [] (_ !! _)).
  assert (Hrow : Forall (Forall (fun v => v = c)) row).
  { subst row. destruct (_ !! _) as [row|] eqn:Erow; simpl; [|constructor].
    rewrite Forall_forall in Hc. apply Hc.
    eapply list_elem_of_lookup_2; eauto. }
  destruct (row !! _) as [px|] eqn:Epx; simpl; [|exact Hp0].
  rewrite Forall_forall in Hrow. apply Hrow.
  eapply list_elem_of_lookup_2; eauto.
Qed.

Section UniformClaim.
Variable cv2_resize : nat * nat -> array3 u8 -> result (array3 u8).
Variable clahe_apply :
  spec_float -> nat * nat -> array2 u8 -> result (array2 u8).
Variable np_mean np_std : array3 spec_float -> spec_float.
Hypothesis resize_ok : resize_contract cv2_resize.
Hypothesis resize_const : resize_keeps_constant cv2_resize.
Hypothesis clahe_ok : clahe_contract clahe_apply.

(** C5.  On a uniform image, for which the standard deviation and the
    peak-to-peak range come out as zero, [preprocess_image] returns, and
    the arrays the call leaves show both divisions: the array of line 52
    is the centred image divided by the epsilon itself, all its values
    finite; the array of line 53 is that array less its minimum, divided
    by the epsilon itself, and is zero everywhere; the epsilon is finite
    and not zero; and the result holds finite values only. *)
Theorem preprocess_image_uniform_no_zero_division
    (w : world) (l : loc) (h wd : nat) (img r : array3 u8) (c : u8) :
  heap w !! l = Some (U8 img) ->
  (0 < h)%nat -> (0 < wd)%nat -> has_shape h wd 3 img ->
  constant c img ->
  cv2_resize IMG_SIZE img = Ok r ->
  let x1 := Np.astype_f32 r in
  let x2 := Np.div_scalar (Np.sub_scalar x1 (np_mean x1))
                          (F32.add (np_std x1) eps) in
  is_zero (np_std x1) = true ->
  (exists range, Np.ptp x2 = Ok range /\ is_zero range = true) ->
  exists l' w' lo range out,
    run (preprocess_image cv2_resize clahe_apply np_mean np_std l) w
      = (Ok l', w') /\
    heap w' !! (length (heap w) + 1)%nat = Some (F32a x1) /\
    F32.add (np_std x1) eps = eps /\
    heap w' !! (length (heap w) + 2)%nat =
      Some (F32a (Np.div_scalar (Np.sub_scalar x1 (np_mean x1)) eps)) /\
    has_shape 224 224 3 x2 /\
    Forall (fun v => is_finite v = true) (values x2) /\
    Np.min x2 = Ok lo /\ Np.ptp x2 = Ok range /\
    F32.add range eps = eps /\
    heap w' !! (length (heap w) + 3)%nat =
      Some (F32a (Np.div_scalar (Np.sub_scalar x2 lo) eps)) /\
    has_shape 224 224 3 (Np.div_scalar (Np.sub_scalar x2 lo) eps) /\
    constant f_zero (Np.div_scalar (Np.sub_scalar x2 lo) eps) /\
    is_finite eps = true /\ is_zero eps = false /\
    heap w' !! l' = Some (F32a out) /\
    has_shape 224 224 3 out /\
    Forall (fun v => is_finite v = true) (values out).
Proof.
  intros Hl Hh Hw Himg Hc Hr x1 x2 Hstd (range & Hptp & Hzero).
  destruct (resize_ok 224 224 h wd 3 img Hh Hw Himg)%nat as (r' & Hr' & Sr).
  pose proof Hr as Hr0.
  unfold IMG_SIZE in Hr. rewrite Hr in Hr'. injection Hr' as <-.
  pose proof (resize_const _ _ _ _ Hr Hc) as Cr.
  assert (C1 : constant (Np.f32_of_u8 c) x1) by now apply constant_map3.
  pose proof (constant_map3 (fun x => F32.sub x (np_mean x1)) _ _ C1) as C2.
  pose proof (constant_map3 (fun x => F32.div x (F32.add (np_std x1) eps))
                _ _ C2) as C2'.
  change (constant (F32.div (F32.sub (Np.f32_of_u8 c) (np_mean x1))
                            (F32.add (np_std x1) eps)) x2) in C2'.
  set (z := F32.div (F32.sub (Np.f32_of_u8 c) (np_mean x1))
                    (F32.add (np_std x1) eps)) in C2'.
  assert (S2 : has_shape 224 224 3 x2)
    by (unfold x2, x1, Np.div_scalar, Np.sub_scalar, Np.astype_f32;
        now repeat apply has_shape_map3).
  destruct (values_nonempty 224 224 3 x2)%nat as (v & vs & Hv);
    [lia|lia|lia|exact S2|].
  destruct (min_max_constant z x2 v vs Hv C2') as (Hmin & _ & Hptp').
  rewrite Hptp in Hptp'. injection Hptp' as ->.
  pose proof (sub_self_zero_finite z Hzero) as Hz.
  pose proof (add_zero_eps _ Hstd) as E1.
  pose proof (add_zero_eps _ Hzero) as E2.
  set (x3 := Np.div_scalar (Np.sub_scalar x2 z) (F32.add (F32.sub z z) eps)).
  set (q := Np.astype_u8 (Np.mul_scalar x3 (F32.of_Z 255))).
  assert (S3 : has_shape 224 224 3 x3)
    by (unfold x3, Np.div_scalar, Np.sub_scalar;
        now repeat apply has_shape_map3).
  assert (Sq : has_shape 224 224 3 q)
    by (unfold q, Np.astype_u8, Np.mul_scalar; now repeat apply has_shape_map3).
  destruct (channel_loop_value clahe_apply clahe_ok 224 224 q Sq)%nat
    as (eq & Hloop & _ & Seq).
  pose proof (preprocess_image_trace cv2_resize clahe_apply np_mean np_std
                w l img r z (F32.sub z z) eq Hl Hr0 Hmin Hptp Hloop) as Hrun.
  cbv zeta in Hrun. fold x1 x2 x3 q in Hrun.
  eexists _, _, z, (F32.sub z z), _. split; [exact Hrun|]. cbn [heap].
  rewrite !lookup_app_plus. cbn [lookup list_lookup].
  split; [reflexivity|]. split; [exact E1|].
  split; [unfold x2; now rewrite E1|]. split; [exact S2|].
  split; [eapply Forall_impl; [exact C2'|]; now intros ? ->|].
  split; [exact Hmin|]. split; [exact Hptp|]. split; [exact E2|].
  assert (E3 : x3 = Np.div_scalar (Np.sub_scalar x2 z) eps)
    by (unfold x3; now rewrite E2).
  rewrite <- E3.
  split; [reflexivity|]. split; [exact S3|]. split.
  { pose proof (constant_map3 (fun x => F32.sub x z) _ _ C2') as C3.
    pose proof (constant_map3 (fun x => F32.div x eps) _ _ C3) as C3'.
    cbv beta in C3'. rewrite (sub_self z Hz), zero_over_eps in C3'.
    rewrite E3. exact C3'. }
  split; [reflexivity|]. split; [reflexivity|].
  split; [reflexivity|]. split.
  - unfold Np.div_scalar, Np.astype_f32. now repeat apply has_shape_map3.
  - unfold Np.div_scalar, Np.astype_f32. rewrite map3_map3.
    apply Forall_values_map3. intros b.
    apply in_unit_interval_finite, u8_over_255_unit.
Qed.
End UniformClaim.

Lemma fixture_black_shape : has_shape 4 4 3 (Fixture.black 4 4).
Proof. now apply has_shapeb_spec. Qed.

Lemma fixture_black_resized :
  Fixture.resize IMG_SIZE (Fixture.black 4 4) = Ok (Fixture.black 224 224).
Proof. vm_compute. reflexivity. Qed.

Lemma preprocess_image_uniform_no_zero_division_witness :
  let x1 := Np.astype_f32 (Fixture.black 224 224) in
  let x2 := Np.div_scalar (Np.sub_scalar x1 (Fixture.mean x1))
                          (F32.add (Fixture.std x1) eps) in
  let w := Fixture.start (Fixture.black 4 4) in
  exists l' w' lo range out,
    run (preprocess_image Fixture.resize Fixture.clahe Fixture.mean
           Fixture.std 0%nat) w = (Ok l', w') /\
    heap w' !! (length (heap w) + 1)%nat = Some (F32a x1) /\
    F32.add (Fixture.std x1) eps = eps /\
    heap w' !! (length (heap w) + 2)%nat =
      Some (F32a (Np.div_scalar (Np.sub_scalar x1 (Fixture.mean x1)) eps)) /\
    has_shape 224 224 3 x2 /\
    Forall (fun v => is_finite v = true) (values x2) /\
    Np.min x2 = Ok lo /\ Np.ptp x2 = Ok range /\
    F32.add range eps = eps /\
    heap w' !! (length (heap w) + 3)%nat =
      Some (F32a (Np.div_scalar (Np.sub_scalar x2 lo) eps)) /\
    has_shape 224 224 3 (Np.div_scalar (Np.sub_scalar x2 lo) eps) /\
    constant f_zero (Np.div_scalar (Np.sub_scalar x2 lo) eps) /\
    is_finite eps = true /\ is_zero eps = false /\
    heap w' !! l' = Some (F32a out) /\
    has_shape 224 224 3 out /\
    Forall (fun v => is_finite v = true) (values out).
Proof.
  apply (preprocess_image_uniform_no_zero_division Fixture.resize
           Fixture.clahe Fixture.mean Fixture.std
           fixture_resize_ok fixture_resize_constant fixture_clahe_ok
           (Fixture.start (Fixture.black 4 4)) 0%nat 4%nat 4%nat
           (Fixture.black 4 4) (Fixture.black 224 224) Byte.x00).
  - reflexivity.
  - lia.
  - lia.
  - exact fixture_black_shape.
  - apply constantb_spec. reflexivity.
  - exact fixture_black_resized.
  - vm_compute. reflexivity.
  - exists f_zero. split; vm_compute; reflexivity.
Defined.

(** ** The order of the floats *)

Ltac order_cases :=
  intros Hx Hy; unfold SFltb, SFleb, SFcompare, before, place;
  repeat match goal with
  | x : spec_float |- _ => destruct x as [[|]|[|]| |[|] ? ?]
  end; try discriminate;
  change (Pos.compare_cont Eq) with Pos.compare;
  repeat match goal with
  | |- context [Z.compare ?a ?b] => destruct (Z.compare_spec a b)
  | |- context [Pos.compare ?a ?b] => destruct (Pos.compare_spec a b)
  end; cbn [CompOpp]; split; intros;
  try discriminate; try reflexivity; try lia.

Lemma SFltb_before (x y : spec_float) :
  is_nan x = false -> is_nan y = false ->
  SFltb x y = true <-> before (place x) (place y).
Proof. order_cases. Qed.

Lemma SFleb_not_before (x y : spec_float) :
  is_nan x = false -> is_nan y = false ->
  SFleb x y = true <-> ~ before (place y) (place x).
Proof. order_cases. Qed.

Lemma before_le_lt (p q r : Z * Z * Z) :
  ~ before q p -> before q r -> before p r.
Proof.
  destruct p as [[? ?] ?], q as [[? ?] ?], r as [[? ?] ?].
  unfold before. lia.
Qed.

Lemma before_irrefl (p : Z * Z * Z) : ~ before p p.
Proof. destruct p as [[? ?] ?]. unfold before. lia. Qed.

Lemma before_asym (p q : Z * Z * Z) : before p q -> ~ before q p.
Proof.
  destruct p as [[? ?] ?], q as [[? ?] ?]. unfold before. lia.
Qed.

(** ** Dictionaries *)

Lemma dict_keys_cons {V} (k : string) (v : V) (d : Dict.t V) :
  Dict.keys ((k, v) :: d) = k :: Dict.keys d.
Proof. reflexivity. Qed.

Lemma dict_keys_app {V} (d1 d2 : Dict.t V) :
  Dict.keys (d1 ++ d2) = Dict.keys d1 ++ Dict.keys d2.
Proof. unfold Dict.keys. apply map_app. Qed.

Lemma dict_key_elem {V} (d : Dict.t V) (i : nat) (k : string) (v : V) :
  d !! i = Some (k, v) -> k ∈ Dict.keys d.
Proof.
  revert i. induction d as [|[k' v'] d IH]; intros [|i] H; simpl in H;
    try discriminate.
  - injection H as -> ->. rewrite dict_keys_cons. apply list_elem_of_here.
  - rewrite dict_keys_cons. apply list_elem_of_further. eauto.
Qed.

Lemma dict_get_lookup {V} (d : Dict.t V) (i : nat) (k : string) (v : V) :
  NoDup (Dict.keys d) -> d !! i = Some (k, v) -> Dict.get d k = Some v.
Proof.
  revert i. induction d as [|[k' v'] d IH]; intros [|i] Hnd H; simpl in H;
    try discriminate; rewrite dict_keys_cons in Hnd;
    apply NoDup_cons in Hnd; destruct Hnd as [Hk Hnd]; simpl.
  - injection H as -> ->. now rewrite decide_True.
  - rewrite decide_False; [eauto|].
    intros ->. apply Hk. eapply dict_key_elem; eauto.
Qed.

Lemma dict_get_Some {V} (d : Dict.t V) (k : string) (v : V) :
  Dict.get d k = Some v -> exists i, d !! i = Some (k, v).
Proof.
  induction d as [|[k' v'] d IH]; simpl; [discriminate|].
  destruct (decide (k' = k)) as [->|Hne].
  - intros [= ->]. now exists 0%nat.
  - intros H. destruct (IH H) as [i Hi]. now exists (S i).
Qed.

Lemma dict_set_fresh {V} (d : Dict.t V) (k : string) (v : V) :
  k ∉ Dict.keys d -> Dict.set d k v = d ++ [(k, v)].
Proof.
  induction d as [|[k' v'] d IH]; intros Hk; simpl; [reflexivity|].
  rewrite dict_keys_cons in Hk. apply not_elem_of_cons in Hk.
  destruct Hk as [Hne Hk]. rewrite decide_False by congruence.
  now rewrite IH.
Qed.

Lemma dict_fold_nodup {V} (pairs acc : list (string * V)) :
  NoDup (Dict.keys (acc ++ pairs)) ->
  fold_left (fun d kv => Dict.set d (fst kv) (snd kv)) pairs acc
  = acc ++ pairs.
Proof.
  revert acc. induction pairs as [|[k v] pairs IH]; intros acc Hnd; simpl.
  - now rewrite app_nil_r.
  - rewrite dict_set_fresh.
    + rewrite IH; rewrite <- app_assoc; [reflexivity|exact Hnd].
    + rewrite dict_keys_app, dict_keys_cons in Hnd.
      apply NoDup_app in Hnd. destruct Hnd as (_ & Hdisj & _).
      intros Hin. apply (Hdisj k Hin). apply list_elem_of_here.
Qed.

(** A list of pairs with distinct keys is its own dictionary. *)
Lemma dict_of_pairs_nodup {V} (pairs : list (string * V)) :
  NoDup (Dict.keys pairs) -> Dict.of_pairs pairs = pairs.
Proof. intros H. unfold Dict.of_pairs. now rewrite dict_fold_nodup. Qed.

Lemma keys_zip {V} (names : list string) (p : list V) :
  Dict.keys (zip names p) = take (length p) names.
Proof.
  revert p. induction names as [|n names IH]; intros [|v p];
    try reflexivity.
  change (zip (n :: names) (v :: p)) with ((n, v) :: zip names p).
  rewrite dict_keys_cons, IH. reflexivity.
Qed.

Lemma class_names_nodup : NoDup CLASS_NAMES.
Proof. apply (bool_decide_unpack _). vm_compute. exact I. Qed.

Lemma keys_zip_nodup {V} (p : list V) : NoDup (Dict.keys (zip CLASS_NAMES p)).
Proof.
  rewrite keys_zip.
  exact (sublist_NoDup _ _ class_names_nodup (sublist_take _ _)).
Qed.

(** The distribution is the class names paired with the probabilities,
    position by position. *)
Lemma distribution_zip (p : list spec_float) :
  Dict.of_pairs (zip CLASS_NAMES p) = zip CLASS_NAMES p.
Proof. apply dict_of_pairs_nodup, keys_zip_nodup. Qed.

(** ** The builtin [max] over a dictionary *)

Section MaxLoop.
Variable d : Dict.t spec_float.
Hypothesis keys_nodup : NoDup (Dict.keys d).
Hypothesis no_nan : Forall (fun kv => is_nan (snd kv) = false) d.

Lemma entry_no_nan (j : nat) (kv : string * spec_float) :
  d !! j = Some kv -> is_nan (snd kv) = false.
Proof. intros H. exact (Forall_lookup_1 _ _ _ _ no_nan H). Qed.

(** The running maximum is the first greatest entry of the part of the
    dictionary already seen; the loop keeps that true to the end. *)
Lemma max_loop_first_argmax (rest : Dict.t spec_float) :
  forall (seen : Dict.t spec_float) (k : string) (v : spec_float) (i : nat),
    d = seen ++ rest ->
    seen !! i = Some (k, v) ->
    (forall j kv, seen !! j = Some kv -> SFleb (snd kv) v = true) ->
    (forall j kv, (j < i)%nat -> seen !! j = Some kv ->
                  SFltb (snd kv) v = true) ->
    exists i' k' v',
      max_loop (Dict.get d) (Dict.keys rest) k (Some v) = Ok k' /\
      d !! i' = Some (k', v') /\
      (forall j kv, d !! j = Some kv -> SFleb (snd kv) v' = true) /\
      (forall j kv, (j < i')%nat -> d !! j = Some kv ->
                    SFltb (snd kv) v' = true).
Proof.
  induction rest as [|[k1 v1] rest IH]; intros seen k v i Hd Hi Hle Hlt.
  - rewrite app_nil_r in Hd. subst seen. exists i, k, v. now repeat split.
  - assert (H1 : d !! length seen = Some (k1, v1))
      by (rewrite Hd; apply list_lookup_middle; reflexivity).
    assert (Hseen : forall j kv, seen !! j = Some kv -> d !! j = Some kv)
      by (intros j kv Hj; rewrite Hd; now apply lookup_app_l_Some).
    assert (Nv : is_nan v = false) by exact (entry_no_nan i (k, v) (Hseen _ _ Hi)).
    assert (Nv1 : is_nan v1 = false) by exact (entry_no_nan _ (k1, v1) H1).
    assert (Hlen : (i < length seen)%nat) by (eapply lookup_lt_Some; eauto).
    rewrite dict_keys_cons. cbn [max_loop].
    rewrite (dict_get_lookup d _ k1 v1 keys_nodup H1). cbn [py_gt rbind].
    assert (Hd' : d = (seen ++ [(k1, v1)]) ++ rest)
      by (now rewrite <- app_assoc).
    destruct (SFltb v v1) eqn:Hgt.
    + apply (IH (seen ++ [(k1, v1)]) k1 v1 (length seen) Hd').
      * apply lookup_snoc.
      * intros j kv Hj. apply lookup_snoc_Some in Hj.
        destruct Hj as [[_ Hj]|[_ <-]]; cbn [snd].
        -- pose proof (entry_no_nan j kv (Hseen _ _ Hj)) as Nu.
           apply SFleb_not_before; auto. apply before_asym.
           apply (before_le_lt _ (place v)).
           ++ apply SFleb_not_before; auto. exact (Hle j kv Hj).
           ++ apply SFltb_before; auto.
        -- apply SFleb_not_before; auto. apply before_irrefl.
      * intros j kv Hj Hkv. apply lookup_snoc_Some in Hkv.
        destruct Hkv as [[_ Hkv]|[Heq _]]; [|lia].
        pose proof (entry_no_nan j kv (Hseen _ _ Hkv)) as Nu.
        apply SFltb_before; auto. apply (before_le_lt _ (place v)).
        -- apply SFleb_not_before; auto. exact (Hle j kv Hkv).
        -- apply SFltb_before; auto.
    + apply (IH (seen ++ [(k1, v1)]) k v i Hd').
      * now apply lookup_app_l_Some.
      * intros j kv Hj. apply lookup_snoc_Some in Hj.
        destruct Hj as [[_ Hj]|[_ <-]]; cbn [snd]; [exact (Hle j kv Hj)|].
        apply SFleb_not_before; auto. intros Hb.
        apply SFltb_before in Hb; auto. congruence.
      * intros j kv Hj Hkv. apply lookup_snoc_Some in Hkv.
        destruct Hkv as [[_ Hkv]|[Heq _]]; [|lia].
        exact (Hlt j kv Hj Hkv).
Qed.

Lemma py_max_first_argmax :
  d <> [] ->
  exists i k v,
    py_max (Dict.keys d) (Dict.get d) = Ok k /\
    d !! i = Some (k, v) /\
    (forall j kv, d !! j = Some kv -> SFleb (snd kv) v = true) /\
    (forall j kv, (j < i)%nat -> d !! j = Some kv ->
                  SFltb (snd kv) v = true).
Proof.
  intros Hne.
  assert (Hd : exists k0 v0 rest, d = (k0, v0) :: rest).
  { clear keys_nodup no_nan. destruct d as [|[k0 v0] rest]; [congruence|].
    eauto. }
  destruct Hd as (k0 & v0 & rest & Ed).
  assert (H0 : d !! 0%nat = Some (k0, v0)) by now rewrite Ed.
  assert (N0 : is_nan v0 = false) by exact (entry_no_nan _ (k0, v0) H0).
  replace (Dict.keys d) with (k0 :: Dict.keys rest) by now rewrite Ed.
  cbn [py_max]. rewrite (dict_get_lookup d _ k0 v0 keys_nodup H0).
  apply (max_loop_first_argmax rest [(k0, v0)] k0 v0 0%nat).
  - exact Ed.
  - reflexivity.
  - intros [|j] kv Hj; simpl in Hj; [|discriminate].
    injection Hj as <-. apply SFleb_not_before; auto. apply before_irrefl.
  - intros j kv Hj. lia.
Qed.
End MaxLoop.

Lemma zip_no_nan (names : list string) (p : list spec_float) :
  Forall (fun v => is_nan v = false) p ->
  Forall (fun kv : string * spec_float => is_nan (snd kv) = false)
         (zip names p).
Proof.
  intros Hp. apply Forall_forall. intros [k v] Hin. cbn [snd].
  apply elem_of_zip_r in Hin. rewrite Forall_forall in Hp. now apply Hp.
Qed.

(** C4.  The class the page reports is an argmax of the distribution, and
    among several classes of maximal probability it is the one that comes
    first in [CLASS_NAMES]: every class has a probability at most that of
    the reported one, and every class listed before it has a strictly
    smaller one. *)
Theorem predicted_class_is_first_argmax (p : list spec_float) :
  p <> [] ->
  Forall (fun v => is_nan v = false) p ->
  let predictions := Dict.of_pairs (zip CLASS_NAMES p) in
  exists (i : nat) (predicted_class : string) (v : spec_float),
    py_max (Dict.keys predictions) (Dict.get predictions)
      = Ok predicted_class /\
    CLASS_NAMES !! i = Some predicted_class /\
    Dict.get predictions predicted_class = Some v /\
    (forall k u, Dict.get predictions k = Some u -> SFleb u v = true) /\
    (forall j k u, (j < i)%nat -> CLASS_NAMES !! j = Some k ->
                   Dict.get predictions k = Some u -> SFltb u v = true).
Proof.
  intros Hne Hnan predictions. subst predictions.
  rewrite distribution_zip.
  pose proof (keys_zip_nodup p) as Hnd.
  assert (Hd : zip CLASS_NAMES p <> [])
    by (destruct p; [congruence|discriminate]).
  destruct (py_max_first_argmax _ Hnd (zip_no_nan _ _ Hnan) Hd)
    as (i & k & v & Hmax & Hi & Hle & Hlt).
  exists i, k, v. split; [exact Hmax|].
  pose proof Hi as Hi'. apply lookup_zip_Some in Hi'. destruct Hi' as [Hk _].
  split; [exact Hk|]. split; [exact (dict_get_lookup _ _ _ _ Hnd Hi)|].
  split.
  - intros k' u Hget. apply dict_get_Some in Hget. destruct Hget as [j Hj].
    exact (Hle j (k', u) Hj).
  - intros j k' u Hj Hname Hget. apply dict_get_Some in Hget.
    destruct Hget as [j' Hj']. pose proof Hj' as Hz.
    apply lookup_zip_Some in Hz. destruct Hz as [Hname' _].
    assert (j' = j) by exact (NoDup_lookup _ _ _ _ class_names_nodup Hname' Hname).
    subst j'. exact (Hlt j (k', u) Hj Hj').
Qed.

Lemma predicted_class_is_first_argmax_witness :
  let p := [Fixture.p_20; Fixture.p_60; Fixture.p_60; Fixture.p_10] in
  let predictions := Dict.of_pairs (zip CLASS_NAMES p) in
  exists (i : nat) (predicted_class : string) (v : spec_float),
    py_max (Dict.keys predictions) (Dict.get predictions)
      = Ok predicted_class /\
    CLASS_NAMES !! i = Some predicted_class /\
    Dict.get predictions predicted_class = Some v /\
    (forall k u, Dict.get predictions k = Some u -> SFleb u v = true) /\
    (forall j k u, (j < i)%nat -> CLASS_NAMES !! j = Some k ->
                   Dict.get predictions k = Some u -> SFltb u v = true).
Proof.
  apply (predicted_class_is_first_argmax
           [Fixture.p_20; Fixture.p_60; Fixture.p_60; Fixture.p_10]).
  - discriminate.
  - repeat constructor.
Defined.

(** With two classes at the maximum, the earlier one is reported. *)
Example tie_goes_to_first :
  let predictions :=
    Dict.of_pairs (zip CLASS_NAMES
      [Fixture.p_20; Fixture.p_60; Fixture.p_60; Fixture.p_10]) in
  py_max (Dict.keys predictions) (Dict.get predictions) = Ok "Meningioma"%string.
Proof. reflexivity. Qed.

(** ** [predict_image_class] computes [predict_value] *)

Lemma run_call {A} (m : model) (r : result A) (w : world) :
  run (call m r) w = (r, World (heap w) (log w ++ [Call m])).
Proof. unfold call. rewrite run_bind. cbn. now destruct r. Qed.

Section PredictRun.
Variable cv2_resize : nat * nat -> array3 u8 -> result (array3 u8).
Variable clahe_apply :
  spec_float -> nat * nat -> array2 u8 -> result (array2 u8).
Variable np_mean np_std : array3 spec_float -> spec_float.
Variable feature_extractor_predict :
  list (array3 spec_float) -> result (array2 spec_float).
Variable feature_selector_transform :
  array2 spec_float -> result (array2 spec_float).
Variable classifier_predict_proba :
  array2 spec_float -> result (array2 spec_float).

Local Abbreviation predict :=
  (predict_image_class cv2_resize clahe_apply np_mean np_std
     feature_extractor_predict feature_selector_transform
     classifier_predict_proba).
Local Abbreviation predicted :=
  (predict_value cv2_resize clahe_apply np_mean np_std
     feature_extractor_predict feature_selector_transform
     classifier_predict_proba).
Local Abbreviation invoked :=
  (predict_calls cv2_resize clahe_apply np_mean np_std
     feature_extractor_predict feature_selector_transform).

Ltac stop_after :=
  cbn [rbind map]; eexists; f_equal; f_equal;
  rewrite <- ?app_assoc; reflexivity.

(** On every path the result is that of the value-level reading, the
    objects that existed before the call are untouched, and the page
    receives nothing but the record of the models invoked. *)
Lemma predict_image_class_run (w : world) (l : loc) (img : array3 u8) :
  heap w !! l = Some (U8 img) ->
  exists extra,
    run (predict l) w =
      (predicted img,
       World (heap w ++ extra) (log w ++ map Call (invoked img))).
Proof.
  intros Hl. unfold predict_image_class, predict_value, predict_calls.
  destruct (preprocess_image_run cv2_resize clahe_apply np_mean np_std
              w l img Hl) as (extra & Hrun & Hout).
  rewrite run_bind, Hrun. clear Hrun.
  destruct (preprocess_value cv2_resize clahe_apply np_mean np_std img)
    as [x|e]; cbn [rmap rbind].
  2: { exists extra. cbn [map]. now rewrite app_nil_r. }
  rewrite run_bind, (run_read_f32 _ x)
    by (cbn [heap]; rewrite lookup_app_plus; exact (proj1 (Hout _ eq_refl))).
  rewrite run_bind, run_call. cbn [heap log].
  destruct (feature_extractor_predict (Np.expand_dims x)) as [f|e];
    [|stop_after].
  rewrite run_bind, run_call. cbn [heap log rbind].
  destruct (feature_selector_transform f) as [s|e]; [|stop_after].
  rewrite run_bind, run_call. cbn [heap log rbind].
  destruct (classifier_predict_proba s) as [probs|e]; [|stop_after].
  rewrite run_bind, run_lift. cbn [rbind].
  destruct (row0 probs) as [p|e]; [|stop_after].
  rewrite run_ret. stop_after.
Qed.

(** Without an image at [l] the call raises at once and changes nothing. *)
Lemma predict_image_class_dangling (w : world) (l : loc) :
  (forall img, heap w !! l <> Some (U8 img)) ->
  exists e, run (predict l) w = (Raise e, w).
Proof.
  intros Hl. unfold predict_image_class. rewrite run_bind.
  destruct (preprocess_image_dangling cv2_resize clahe_apply np_mean np_std
              w l Hl) as [e He].
  rewrite He. eauto.
Qed.
End PredictRun.

Section PredictClaims.
Variable cv2_resize : nat * nat -> array3 u8 -> result (array3 u8).
Variable clahe_apply :
  spec_float -> nat * nat -> array2 u8 -> result (array2 u8).
Variable np_mean np_std : array3 spec_float -> spec_float.
Variable feature_extractor_predict :
  list (array3 spec_float) -> result (array2 spec_float).
Variable feature_selector_transform :
  array2 spec_float -> result (array2 spec_float).
Variable classifier_predict_proba :
  array2 spec_float -> result (array2 spec_float).

Local Abbreviation predict :=
  (predict_image_class cv2_resize clahe_apply np_mean np_std
     feature_extractor_predict feature_selector_transform
     classifier_predict_proba).
Local Abbreviation pre_value :=
  (preprocess_value cv2_resize clahe_apply np_mean np_std).

(** What the call returns once the three models have answered. *)
Lemma predict_image_class_answer (w : world) (l : loc) (img : array3 u8)
    (x : array3 spec_float) (f s : array2 spec_float)
    (p : list spec_float) (rest : array2 spec_float) :
  heap w !! l = Some (U8 img) ->
  pre_value img = Ok x ->
  feature_extractor_predict [x] = Ok f ->
  feature_selector_transform f = Ok s ->
  classifier_predict_proba s = Ok (p :: rest) ->
  exists w',
    run (predict l) w = (Ok (Dict.of_pairs (zip CLASS_NAMES p)), w').
Proof.
  intros Hl Hx Hf Hs Hp.
  destruct (predict_image_class_run cv2_resize clahe_apply np_mean np_std
              feature_extractor_predict feature_selector_transform
              classifier_predict_proba w l img Hl) as (extra & Hrun).
  unfold predict_value in Hrun. rewrite Hx in Hrun. cbn [rbind] in Hrun.
  unfold Np.expand_dims in Hrun. rewrite Hf in Hrun. cbn [rbind] in Hrun.
  rewrite Hs in Hrun. cbn [rbind] in Hrun.
  rewrite Hp in Hrun. cbn [rbind row0] in Hrun.
  eexists. exact Hrun.
Qed.

(** C10.  Whatever the length of the classifier's probability vector,
    [predict_image_class] raises nothing: names and probabilities are
    paired up to the shorter of the two, so the mapping has
    [min 4 (length p)] keys and has all four class names exactly when the
    vector has at least four entries. *)
Theorem predict_image_class_short_vector (w : world) (l : loc)
    (img : array3 u8) (x : array3 spec_float) (f s : array2 spec_float)
    (p : list spec_float) (rest : array2 spec_float) :
  heap w !! l = Some (U8 img) ->
  pre_value img = Ok x ->
  feature_extractor_predict [x] = Ok f ->
  feature_selector_transform f = Ok s ->
  classifier_predict_proba s = Ok (p :: rest) ->
  exists d w',
    run (predict l) w = (Ok d, w') /\
    d = zip CLASS_NAMES p /\
    Dict.keys d = take (length p) CLASS_NAMES /\
    length (Dict.keys d) = Nat.min 4 (length p) /\
    (Dict.keys d = CLASS_NAMES <-> (4 <= length p)%nat).
Proof.
  intros Hl Hx Hf Hs Hp.
  destruct (predict_image_class_answer w l img x f s p rest Hl Hx Hf Hs Hp)
    as (w' & Hrun).
  exists (Dict.of_pairs (zip CLASS_NAMES p)), w'.
  split; [exact Hrun|]. rewrite distribution_zip.
  split; [reflexivity|]. rewrite keys_zip.
  split; [reflexivity|]. split.
  - rewrite length_take. change (length CLASS_NAMES) with 4%nat. lia.
  - split.
    + intros H. apply (f_equal length) in H. rewrite length_take in H.
      change (length CLASS_NAMES) with 4%nat in H. lia.
    + intros H. apply take_ge. exact H.
Qed.
End PredictClaims.

Section DistributionClaims.
Variable cv2_resize : nat * nat -> array3 u8 -> result (array3 u8).
Variable clahe_apply :
  spec_float -> nat * nat -> array2 u8 -> result (array2 u8).
Variable np_mean np_std : array3 spec_float -> spec_float.
Variable feature_extractor_predict :
  list (array3 spec_float) -> result (array2 spec_float).
Variable feature_selector_transform :
  array2 spec_float -> result (array2 spec_float).
Variable classifier_predict_proba :
  array2 spec_float -> result (array2 spec_float).

Local Abbreviation predict :=
  (predict_image_class cv2_resize clahe_apply np_mean np_std
     feature_extractor_predict feature_selector_transform
     classifier_predict_proba).
Local Abbreviation pre_value :=
  (preprocess_value cv2_resize clahe_apply np_mean np_std).

(** C6.  Two calls of [predict_image_class] on the same image, one after
    the other and with the same models, return the same distribution or
    raise the same exception: the second call finds the image as the
    first one found it. *)
Theorem predict_image_class_deterministic (w : world) (l : loc) :
  let first := run (predict l) w in
  let second := run (predict l) (snd first) in
  fst second = fst first.
Proof.
  cbv zeta.
  destruct (heap w !! l) as [[img|a]|] eqn:Hl.
  - destruct (predict_image_class_run cv2_resize clahe_apply np_mean np_std
                feature_extractor_predict feature_selector_transform
                classifier_predict_proba w l img Hl) as (extra & Hrun).
    rewrite Hrun. cbn [fst snd].
    destruct (predict_image_class_run cv2_resize clahe_apply np_mean np_std
                feature_extractor_predict feature_selector_transform
                classifier_predict_proba
                (World (heap w ++ extra)
                   (log w ++ map Call
                      (predict_calls cv2_resize clahe_apply np_mean np_std
                         feature_extractor_predict feature_selector_transform
                         img)))
                l img) as (extra' & Hrun').
    { cbn [heap]. now apply lookup_app_l_Some. }
    now rewrite Hrun'.
  - destruct (predict_image_class_dangling cv2_resize clahe_apply np_mean
                np_std feature_extractor_predict feature_selector_transform
                classifier_predict_proba w l) as [e He];
      [intros img; congruence|].
    rewrite He. cbn [fst snd]. now rewrite He.
  - destruct (predict_image_class_dangling cv2_resize clahe_apply np_mean
                np_std feature_extractor_predict feature_selector_transform
                classifier_predict_proba w l) as [e He];
      [intros img; congruence|].
    rewrite He. cbn [fst snd]. now rewrite He.
Qed.

Hypothesis resize_ok : resize_contract cv2_resize.
Hypothesis clahe_ok : clahe_contract clahe_apply.
Hypothesis models_ok :
  models_contract feature_extractor_predict feature_selector_transform
    classifier_predict_proba.

(** C1.  For every image with three channels and at least one pixel,
    [predict_image_class] preprocesses it, passes the result through the
    three models and returns a mapping whose keys are exactly the four
    class names; its values are the classifier's probabilities themselves,
    attached to the names position by position, and each is a probability
    (hence finite). *)
Theorem predict_image_class_distribution (w : world) (l : loc) (h wd : nat)
    (img : array3 u8) :
  heap w !! l = Some (U8 img) ->
  (0 < h)%nat -> (0 < wd)%nat -> has_shape h wd 3 img ->
  exists x f s p d w',
    pre_value img = Ok x /\
    feature_extractor_predict [x] = Ok f /\
    feature_selector_transform f = Ok s /\
    classifier_predict_proba s = Ok [p] /\
    run (predict l) w = (Ok d, w') /\
    Dict.keys d = CLASS_NAMES /\
    map snd d = p /\
    (forall i name, CLASS_NAMES !! i = Some name ->
                    Dict.get d name = p !! i) /\
    Forall (fun kv => is_probability (snd kv) = true
                      /\ is_finite (snd kv) = true) d.
Proof.
  intros Hl Hh Hw Himg.
  destruct (preprocess_value_ok cv2_resize clahe_apply np_mean np_std
              resize_ok clahe_ok h wd img Hh Hw Himg)
    as (x & Hx & _ & Sx & _).
  destruct (models_ok x Sx) as (f & s & p & Hf & Hs & Hp & Hlen & Hprob).
  destruct (predict_image_class_answer cv2_resize clahe_apply np_mean np_std
              feature_extractor_predict feature_selector_transform
              classifier_predict_proba w l img x f s p [] Hl Hx Hf Hs Hp)
    as (w' & Hrun).
  exists x, f, s, p, (Dict.of_pairs (zip CLASS_NAMES p)), w'.
  do 5 (split; [assumption|]).
  rewrite distribution_zip.
  destruct p as [|a [|b [|c [|e [|]]]]]; try discriminate.
  split; [reflexivity|]. split; [reflexivity|]. split.
  - intros [|[|[|[|i]]]] name Hname; cbn in Hname; try discriminate;
      injection Hname as <-; reflexivity.
  - apply Forall_forall. intros [k v] Hin.
    assert (Hv : v ∈ [a; b; c; e]) by (eapply elem_of_zip_r; exact Hin).
    rewrite Forall_forall in Hprob. specialize (Hprob v Hv). cbn [snd].
    split; [exact Hprob|]. now apply in_unit_interval_finite.
Qed.
End DistributionClaims.

Lemma predict_image_class_distribution_witness :
  exists x f s p d w',
    preprocess_value Fixture.resize Fixture.clahe Fixture.mean Fixture.std
      Fixture.tiny = Ok x /\
    Fixture.extractor [x] = Ok f /\
    Fixture.selector f = Ok s /\
    Fixture.classifier s = Ok [p] /\
    run (predict_image_class Fixture.resize Fixture.clahe Fixture.mean
           Fixture.std Fixture.extractor Fixture.selector Fixture.classifier
           0%nat) (Fixture.start Fixture.tiny) = (Ok d, w') /\
    Dict.keys d = CLASS_NAMES /\
    map snd d = p /\
    (forall i name, CLASS_NAMES !! i = Some name ->
                    Dict.get d name = p !! i) /\
    Forall (fun kv => is_probability (snd kv) = true
                      /\ is_finite (snd kv) = true) d.
Proof.
  apply (predict_image_class_distribution Fixture.resize Fixture.clahe
           Fixture.mean Fixture.std Fixture.extractor Fixture.selector
           Fixture.classifier fixture_resize_ok fixture_clahe_ok
           fixture_models_ok (Fixture.start Fixture.tiny) 0%nat 2%nat 2%nat
           Fixture.tiny).
  - reflexivity.
  - lia.
  - lia.
  - exact fixture_tiny_shape.
Defined.

Lemma predict_image_class_short_vector_witness :
  exists d w',
    run (predict_image_class Fixture.resize Fixture.clahe Fixture.mean
           Fixture.std Fixture.extractor Fixture.selector Fixture.classifier3
           0%nat) (Fixture.start Fixture.tiny) = (Ok d, w') /\
    d = zip CLASS_NAMES [Fixture.p_20; Fixture.p_60; Fixture.p_20] /\
    Dict.keys d = take 3 CLASS_NAMES /\
    length (Dict.keys d) = Nat.min 4 3 /\
    (Dict.keys d = CLASS_NAMES <-> (4 <= 3)%nat).
Proof.
  destruct (preprocess_value_ok Fixture.resize Fixture.clahe Fixture.mean
              Fixture.std fixture_resize_ok fixture_clahe_ok 2 2 Fixture.tiny)
    as (x & Hx & _); [lia|lia|exact fixture_tiny_shape|].
  apply (predict_image_class_short_vector Fixture.resize Fixture.clahe
           Fixture.mean Fixture.std Fixture.extractor Fixture.selector
           Fixture.classifier3 (Fixture.start Fixture.tiny) 0%nat
           Fixture.tiny x [[f_one]] [[f_one]]
           [Fixture.p_20; Fixture.p_60; Fixture.p_20] []).
  - reflexivity.
  - exact Hx.
  - reflexivity.
  - reflexivity.
  - reflexivity.
Defined.

(** ** The upload handler *)

Lemma run_emit (e : event) (w : world) :
  run (emit e) w = (Ok tt, World (heap w) (log w ++ [e])).
Proof. reflexivity. Qed.

Lemma run_emit_then {A} (e : event) (k : M A) (w : world) :
  run (emit e ;; k) w = run k (World (heap w) (log w ++ [e])).
Proof. reflexivity. Qed.

Lemma swap_rb_row (row : list color) :
  mapM swap_rb (map bgr_pixel row) = Ok (map rgb_pixel row).
Proof.
  induction row as [|c row IH]; [reflexivity|].
  cbn [map mapM]. rewrite IH. reflexivity.
Qed.

(** Reordering the channels of a decoded picture gives its raster in red,
    green, blue order. *)
Lemma swap_rb_raster (pic : picture) :
  mapM (mapM swap_rb) (bgr_raster pic) = Ok (rgb_raster pic).
Proof.
  unfold bgr_raster, rgb_raster.
  induction pic as [|row pic IH]; [reflexivity|].
  cbn [map mapM]. rewrite swap_rb_row. cbn [rbind]. rewrite IH. reflexivity.
Qed.

Lemma predict_calls_prefix
    cv2_resize clahe_apply np_mean np_std fe fs (img : array3 u8) :
  predict_calls cv2_resize clahe_apply np_mean np_std fe fs img
    `prefix_of` [FeatureExtractor; FeatureSelector; Classifier].
Proof.
  unfold predict_calls.
  destruct (preprocess_value _ _ _ _ _) as [x|]; [|apply prefix_nil].
  apply prefix_cons. destruct (fe _) as [f|]; [|apply prefix_nil].
  apply prefix_cons. destruct (fs _) as [s|]; [|apply prefix_nil].
  reflexivity.
Qed.

Lemma predict_calls_all
    cv2_resize clahe_apply np_mean np_std fe fs clf (img : array3 u8) d :
  predict_value cv2_resize clahe_apply np_mean np_std fe fs clf img = Ok d ->
  predict_calls cv2_resize clahe_apply np_mean np_std fe fs img
    = [FeatureExtractor; FeatureSelector; Classifier].
Proof.
  unfold predict_value, predict_calls.
  destruct (preprocess_value _ _ _ _ _) as [x|]; [|discriminate].
  cbn [rbind]. destruct (fe _) as [f|]; [|discriminate].
  cbn [rbind]. destruct (fs _) as [s|]; [|discriminate].
  reflexivity.
Qed.

Section Handler.
Variable cv2_resize : nat * nat -> array3 u8 -> result (array3 u8).
Variable clahe_apply :
  spec_float -> nat * nat -> array2 u8 -> result (array2 u8).
Variable decode_picture : list u8 -> option picture.
Variable np_mean np_std : array3 spec_float -> spec_float.
Variable feature_extractor_predict :
  list (array3 spec_float) -> result (array2 spec_float).
Variable feature_selector_transform :
  array2 spec_float -> result (array2 spec_float).
Variable classifier_predict_proba :
  array2 spec_float -> result (array2 spec_float).

Local Abbreviation predict :=
  (predict_image_class cv2_resize clahe_apply np_mean np_std
     feature_extractor_predict feature_selector_transform
     classifier_predict_proba).
Local Abbreviation predicted :=
  (predict_value cv2_resize clahe_apply np_mean np_std
     feature_extractor_predict feature_selector_transform
     classifier_predict_proba).
Local Abbreviation infer :=
  (decode_and_predict cv2_resize clahe_apply decode_picture np_mean np_std
     feature_extractor_predict feature_selector_transform
     classifier_predict_proba).
Local Abbreviation upload :=
  (on_upload cv2_resize clahe_apply decode_picture np_mean np_std
     feature_extractor_predict feature_selector_transform
     classifier_predict_proba).

(** For a codec that reads no empty buffer, as every codec is,
    [cv2_imdecode] is OpenCV's order: the test of the buffer first, then
    the codec. *)
Lemma cv2_imdecode_tests_buffer_first (buf : list u8) :
  decode_picture [] = None ->
  cv2_imdecode decode_picture buf =
  match buf with
  | [] => raise (cv2_error "(-215:Assertion failed) !buf.empty()")
  | _ :: _ =>
      match decode_picture buf with
      | None => mret None
      | Some p => l ← alloc (U8 (bgr_raster p)); mret (Some l)
      end
  end.
Proof.
  intros Hcodec. unfold cv2_imdecode.
  destruct buf as [|b buf]; [now rewrite Hcodec|].
  now destruct (decode_picture (b :: buf)).
Qed.

(** Lines 82-84 create two arrays: the decoded one, in blue, green, red
    order, and the reordered one. *)
Lemma decode_rgb_run (w : world) (buf : list u8) :
  run (decode_rgb decode_picture buf) w =
  match decode_picture buf with
  | None => (Raise (undecodable buf), w)
  | Some pic =>
      if empty (bgr_raster pic)
      then (Raise src_empty,
            World (heap w ++ [U8 (bgr_raster pic)]) (log w))
      else (Ok (S (length (heap w))),
            World (heap w ++ [U8 (bgr_raster pic); U8 (rgb_raster pic)])
                  (log w))
  end.
Proof.
  unfold decode_rgb, cv2_imdecode. rewrite run_bind.
  destruct (decode_picture buf) as [pic|]; [|now destruct buf].
  rewrite run_bind, run_alloc, run_ret.
  unfold cv2_cvtColor_BGR2RGB.
  rewrite run_bind, (run_read_u8 _ (bgr_raster pic))
    by (cbn [heap]; apply lookup_snoc).
  destruct (empty (bgr_raster pic)); [reflexivity|].
  rewrite run_bind, run_lift, swap_rb_raster, run_alloc.
  cbn [heap log]. rewrite length_app, <- app_assoc. cbn [length app].
  now rewrite Nat.add_1_r.
Qed.

(** Lines 82-88 on every path: arrays are only added, the page receives
    only the record of the models invoked, each at most once and in
    order; on success the image handed to the pipeline is the decoded
    picture in red, green, blue order. *)
Lemma decode_and_predict_run (w : world) (buf : list u8) :
  exists extra calls r,
    run (infer buf) w =
      (r, World (heap w ++ extra) (log w ++ map Call calls)) /\
    calls `prefix_of` [FeatureExtractor; FeatureSelector; Classifier] /\
    (forall l d c, r = Ok (l, d, c) ->
       exists pic,
         decode_picture buf = Some pic /\
         l = S (length (heap w)) /\
         (heap w ++ extra) !! l = Some (U8 (rgb_raster pic)) /\
         predicted (rgb_raster pic) = Ok d /\
         py_max (Dict.keys d) (Dict.get d) = Ok c /\
         calls = [FeatureExtractor; FeatureSelector; Classifier]).
Proof.
  unfold decode_and_predict. rewrite run_bind, decode_rgb_run.
  destruct (decode_picture buf) as [pic|].
  2: { exists [], [], (Raise (undecodable buf)). cbn [map].
       rewrite !app_nil_r, world_eta.
       split; [reflexivity|]. split; [apply prefix_nil|discriminate]. }
  destruct (empty (bgr_raster pic)).
  { exists [U8 (bgr_raster pic)], [], (Raise src_empty). cbn [map].
    rewrite !app_nil_r.
    split; [reflexivity|]. split; [apply prefix_nil|discriminate]. }
  set (w1 := World (heap w ++ [U8 (bgr_raster pic); U8 (rgb_raster pic)])
                   (log w)).
  assert (Hl : heap w1 !! S (length (heap w)) = Some (U8 (rgb_raster pic))).
  { subst w1. cbn [heap]. rewrite <- Nat.add_1_r. now rewrite lookup_app_plus. }
  destruct (predict_image_class_run cv2_resize clahe_apply np_mean np_std
              feature_extractor_predict feature_selector_transform
              classifier_predict_proba w1 _ _ Hl) as (extra & Hrun).
  rewrite run_bind, Hrun. clear Hrun. subst w1. cbn [heap log] in *.
  set (calls := predict_calls _ _ _ _ _ _ _).
  assert (Hpre : calls `prefix_of`
                   [FeatureExtractor; FeatureSelector; Classifier])
    by apply predict_calls_prefix.
  destruct (predicted (rgb_raster pic)) as [d|e] eqn:Hd.
  2: { eexists _, calls, (Raise e). rewrite <- app_assoc.
       split; [reflexivity|]. split; [exact Hpre|discriminate]. }
  rewrite run_bind, run_lift.
  destruct (py_max (Dict.keys d) (Dict.get d)) as [c|e] eqn:Hc.
  2: { eexists _, calls, (Raise e). rewrite <- app_assoc.
       split; [reflexivity|]. split; [exact Hpre|discriminate]. }
  rewrite run_ret. eexists _, calls, _. rewrite <- app_assoc.
  split; [reflexivity|]. split; [exact Hpre|].
  intros l d' c' [= <- <- <-]. exists pic.
  split; [reflexivity|]. split; [reflexivity|]. split.
  - rewrite app_assoc. now apply lookup_app_l_Some.
  - split; [exact Hd|]. split; [exact Hc|].
    subst calls. eapply predict_calls_all. exact Hd.
Qed.
End Handler.

(** ** Rendering *)

(** [render] allocates and writes no array. *)
Lemma render_heap (r : loc * Dict.t spec_float * string) (w : world) :
  heap (snd (run (render r) w)) = heap w.
Proof.
  destruct r as [[l d] c]. unfold render.
  rewrite !run_emit_then, run_bind. unfold run at 1, read_u8. cbn [heap].
  destruct (heap w !! l) as [[a|a]|]; try reflexivity.
  rewrite !run_emit_then, run_bind, run_lift.
  destruct (mapM (Dict.getitem d) CLASS_NAMES) as [vs|e]; [|reflexivity].
  rewrite run_emit_then, run_bind, run_lift.
  destruct (Dict.getitem d c) as [conf|e]; reflexivity.
Qed.

(** With the image in place, the probabilities of the four classes and
    that of the reported class at hand, [render] draws the preview, the
    chart and the diagnosis, in this order. *)
Lemma render_run (w : world) (l : loc) (d : Dict.t spec_float) (c : string)
    (img : array3 u8) (vs : list spec_float) (conf : spec_float) :
  heap w !! l = Some (U8 img) ->
  mapM (Dict.getitem d) CLASS_NAMES = Ok vs ->
  Dict.getitem d c = Ok conf ->
  run (render (l, d, c)) w =
    (Ok tt,
     World (heap w)
       (log w ++
        [Show (Columns [3; 7]%nat);
         Show (Markdown
           "<h5 style='margin-bottom:10px;'>MRI Scan Preview</h5>");
         Show (StImage img 230);
         Show (Markdown
           "<h5 style='margin-bottom:10px;'>Classification Confidence</h5>");
         Show (Pyplot vs CLASS_NAMES);
         Show (Diagnosis c (percent conf))])).
Proof.
  intros Hl Hvs Hc. unfold render.
  rewrite !run_emit_then, run_bind, (run_read_u8 l img) by exact Hl.
  rewrite !run_emit_then, run_bind, run_lift, Hvs.
  rewrite run_emit_then, run_bind, run_lift, Hc, run_emit.
  cbn [heap log]. now rewrite <- !app_assoc.
Qed.

Lemma probability_not_nan (v : spec_float) :
  is_probability v = true -> is_nan v = false.
Proof. now destruct v. Qed.

(** ** The value of a whole inference, given the contracts *)

Section PredictValueOk.
Variable cv2_resize : nat * nat -> array3 u8 -> result (array3 u8).
Variable clahe_apply :
  spec_float -> nat * nat -> array2 u8 -> result (array2 u8).
Variable np_mean np_std : array3 spec_float -> spec_float.
Variable feature_extractor_predict :
  list (array3 spec_float) -> result (array2 spec_float).
Variable feature_selector_transform :
  array2 spec_float -> result (array2 spec_float).
Variable classifier_predict_proba :
  array2 spec_float -> result (array2 spec_float).
Hypothesis resize_ok : resize_contract cv2_resize.
Hypothesis clahe_ok : clahe_contract clahe_apply.
Hypothesis models_ok :
  models_contract feature_extractor_predict feature_selector_transform
    classifier_predict_proba.

Lemma predict_value_ok (h wd : nat) (img : array3 u8) :
  (0 < h)%nat -> (0 < wd)%nat -> has_shape h wd 3 img ->
  exists a b c e,
    Forall (fun v => is_probability v = true) [a; b; c; e] /\
    predict_value cv2_resize clahe_apply np_mean np_std
      feature_extractor_predict feature_selector_transform
      classifier_predict_proba img
    = Ok (zip CLASS_NAMES [a; b; c; e]).
Proof.
  intros Hh Hw Himg.
  destruct (preprocess_value_ok cv2_resize clahe_apply np_mean np_std
              resize_ok clahe_ok h wd img Hh Hw Himg)
    as (x & Hx & _ & Sx & _).
  destruct (models_ok x Sx) as (f & s & p & Hf & Hs & Hp & Hlen & Hprob).
  destruct p as [|a [|b [|c [|e [|]]]]]; try discriminate.
  exists a, b, c, e. split; [exact Hprob|].
  unfold predict_value. rewrite Hx. cbn [rbind]. unfold Np.expand_dims.
  rewrite Hf. cbn [rbind]. rewrite Hs. cbn [rbind]. rewrite Hp.
  cbn [rbind row0]. now rewrite distribution_zip.
Qed.
End PredictValueOk.

(** *** Pictures as arrays *)

Lemma rgb_raster_shape (h wd : nat) (pic : picture) :
  has_shape2 h wd pic -> has_shape h wd 3 (rgb_raster pic).
Proof.
  intros [Hh Hrows]. unfold rgb_raster. split; [now rewrite length_map|].
  rewrite Forall_map. eapply Forall_impl; [exact Hrows|].
  intros row Hrow. cbn beta. split; [now rewrite length_map|].
  rewrite Forall_map. now apply Forall_forall.
Qed.

Lemma bgr_raster_not_empty (h wd : nat) (pic : picture) :
  (0 < h)%nat -> (0 < wd)%nat -> has_shape2 h wd pic ->
  empty (bgr_raster pic) = false.
Proof.
  intros Hh Hw [Hlen Hrows].
  destruct pic as [|row pic]; cbn in Hlen; [lia|].
  apply Forall_cons in Hrows. destruct Hrows as [Hrow _].
  destruct row as [|c row]; cbn in Hrow; [lia|]. reflexivity.
Qed.

Lemma run_try {A} (body : M A) (handler : exn -> M A) (w : world) :
  run (try_except body handler) w =
  match run body w with
  | (Ok a, w') => (Ok a, w')
  | (Raise e, w') => run (handler e) w'
  end.
Proof. reflexivity. Qed.

Section UploadClaims.
Variable cv2_resize : nat * nat -> array3 u8 -> result (array3 u8).
Variable clahe_apply :
  spec_float -> nat * nat -> array2 u8 -> result (array2 u8).
Variable decode_picture : list u8 -> option picture.
Variable np_mean np_std : array3 spec_float -> spec_float.
Variable feature_extractor_predict :
  list (array3 spec_float) -> result (array2 spec_float).
Variable feature_selector_transform :
  array2 spec_float -> result (array2 spec_float).
Variable classifier_predict_proba :
  array2 spec_float -> result (array2 spec_float).

Local Abbreviation pre :=
  (preprocess_image cv2_resize clahe_apply np_mean np_std).
Local Abbreviation predict :=
  (predict_image_class cv2_resize clahe_apply np_mean np_std
     feature_extractor_predict feature_selector_transform
     classifier_predict_proba).
Local Abbreviation infer :=
  (decode_and_predict cv2_resize clahe_apply decode_picture np_mean np_std
     feature_extractor_predict feature_selector_transform
     classifier_predict_proba).
Local Abbreviation upload :=
  (on_upload cv2_resize clahe_apply decode_picture np_mean np_std
     feature_extractor_predict feature_selector_transform
     classifier_predict_proba).

(** C7.  When decoding, the channel reordering, preprocessing, a model or
    the choice of the class raises, the handler itself raises nothing: the
    page receives one error message, the fixed text followed by the
    exception's own, and no other widget; before it, each model was
    invoked at most once, in pipeline order, and none after the
    failure. *)
Theorem on_upload_failure_single_error
    (w w1 : world) (buf : list u8) (e : exn) :
  run (infer buf) w = (Raise e, w1) ->
  exists calls w2,
    run (upload buf) w = (Ok tt, w2) /\
    log w2 =
      log w ++ map Call calls ++
      [Show (StError ("Error processing image: " +:+ exn_str e))] /\
    calls `prefix_of` [FeatureExtractor; FeatureSelector; Classifier].
Proof.
  intros Hfail.
  destruct (decode_and_predict_run cv2_resize clahe_apply decode_picture
              np_mean np_std feature_extractor_predict
              feature_selector_transform classifier_predict_proba w buf)
    as (extra & calls & r & Hrun & Hpre & _).
  rewrite Hfail in Hrun. injection Hrun as <- ->.
  exists calls. eexists. unfold on_upload.
  rewrite run_try, run_bind, Hfail, run_emit. cbn [heap log].
  split; [reflexivity|]. split; [|exact Hpre].
  cbn [log]. now rewrite <- app_assoc.
Qed.

(** The handler on every path: it raises nothing and only adds arrays. *)
Lemma on_upload_frame (w : world) (buf : list u8) :
  exists extra,
    fst (run (upload buf) w) = Ok tt /\
    heap (snd (run (upload buf) w)) = heap w ++ extra.
Proof.
  destruct (decode_and_predict_run cv2_resize clahe_apply decode_picture
              np_mean np_std feature_extractor_predict
              feature_selector_transform classifier_predict_proba w buf)
    as (extra & calls & r & Hrun & _ & _).
  exists extra. unfold on_upload. rewrite run_try, run_bind, Hrun.
  destruct r as [x|e]; [|now rewrite run_emit].
  set (w1 := World (heap w ++ extra) (log w ++ map Call calls)).
  pose proof (render_heap x w1) as Hh.
  destruct (run (render x) w1) as [[[]|e] w2]; cbn [snd] in Hh.
  - split; [reflexivity|]. exact Hh.
  - rewrite run_emit. cbn [fst snd heap]. split; [reflexivity|]. exact Hh.
Qed.

End UploadClaims.

Section ChannelOrder.
Variable cv2_resize : nat * nat -> array3 u8 -> result (array3 u8).
Variable clahe_apply :
  spec_float -> nat * nat -> array2 u8 -> result (array2 u8).
Variable decode_picture : list u8 -> option picture.
Variable np_mean np_std : array3 spec_float -> spec_float.
Variable feature_extractor_predict :
  list (array3 spec_float) -> result (array2 spec_float).
Variable feature_selector_transform :
  array2 spec_float -> result (array2 spec_float).
Variable classifier_predict_proba :
  array2 spec_float -> result (array2 spec_float).
Hypothesis resize_ok : resize_contract cv2_resize.
Hypothesis clahe_ok : clahe_contract clahe_apply.
Hypothesis models_ok :
  models_contract feature_extractor_predict feature_selector_transform
    classifier_predict_proba.

Local Abbreviation predict :=
  (predict_image_class cv2_resize clahe_apply np_mean np_std
     feature_extractor_predict feature_selector_transform
     classifier_predict_proba).
Local Abbreviation infer :=
  (decode_and_predict cv2_resize clahe_apply decode_picture np_mean np_std
     feature_extractor_predict feature_selector_transform
     classifier_predict_proba).
Local Abbreviation upload :=
  (on_upload cv2_resize clahe_apply decode_picture np_mean np_std
     feature_extractor_predict feature_selector_transform
     classifier_predict_proba).

(** C8.  For an upload that decodes to a picture, the decoded array holds
    the picture in blue, green, red order and the array made from it holds
    it in red, green, blue order; this second array is the one the
    pipeline runs on and, after the pipeline has run, the one the preview
    shows, still the picture in red, green, blue order. *)
Theorem on_upload_channel_order (w : world) (buf : list u8) (pic : picture)
    (h wd : nat) :
  decode_picture buf = Some pic ->
  (0 < h)%nat -> (0 < wd)%nat -> has_shape2 h wd pic ->
  exists l0 l w1 w2 bars cls percent,
    run (decode_rgb decode_picture buf) w = (Ok l, w1) /\
    heap w1 !! l0 = Some (U8 (bgr_raster pic)) /\
    heap w1 !! l = Some (U8 (rgb_raster pic)) /\
    run (infer buf) w =
      run (predictions ← predict l;
           predicted_class ← lift (py_max (Dict.keys predictions)
                                          (Dict.get predictions));
           mret (l, predictions, predicted_class)) w1 /\
    run (upload buf) w = (Ok tt, w2) /\
    log w2 =
      log w ++
      [Call FeatureExtractor; Call FeatureSelector; Call Classifier;
       Show (Columns [3; 7]%nat);
       Show (Markdown
           "<h5 style='margin-bottom:10px;'>MRI Scan Preview</h5>");
       Show (StImage (rgb_raster pic) 230);
       Show (Markdown
           "<h5 style='margin-bottom:10px;'>Classification Confidence</h5>");
       Show (Pyplot bars CLASS_NAMES);
       Show (Diagnosis cls percent)].
Proof.
  intros Hdec Hh Hw Hpic.
  pose proof (decode_rgb_run decode_picture w buf) as Hrgb.
  rewrite Hdec, (bgr_raster_not_empty h wd pic Hh Hw Hpic) in Hrgb.
  set (l := S (length (heap w))) in *.
  set (w1 := World (heap w ++ [U8 (bgr_raster pic); U8 (rgb_raster pic)])
                   (log w)) in *.
  assert (Hl0 : heap w1 !! length (heap w) = Some (U8 (bgr_raster pic))).
  { subst w1. cbn [heap]. now rewrite lookup_app_here. }
  assert (Hl : heap w1 !! l = Some (U8 (rgb_raster pic))).
  { subst w1 l. cbn [heap]. rewrite <- Nat.add_1_r.
    now rewrite lookup_app_plus. }
  destruct (predict_value_ok cv2_resize clahe_apply np_mean np_std
              feature_extractor_predict feature_selector_transform
              classifier_predict_proba resize_ok clahe_ok models_ok
              h wd (rgb_raster pic) Hh Hw (rgb_raster_shape h wd pic Hpic))
    as (a & b & c & e & Hprob & Hval).
  destruct (predict_image_class_run cv2_resize clahe_apply np_mean np_std
              feature_extractor_predict feature_selector_transform
              classifier_predict_proba w1 l _ Hl) as (extra & Hrun).
  rewrite Hval, (predict_calls_all _ _ _ _ _ _ _ _ _ Hval) in Hrun.
  set (d := zip CLASS_NAMES [a; b; c; e]) in *.
  assert (Hnan : Forall (fun v => is_nan v = false) [a; b; c; e]).
  { eapply Forall_impl; [exact Hprob|]. apply probability_not_nan. }
  destruct (py_max_first_argmax d (keys_zip_nodup _) (zip_no_nan _ _ Hnan))
    as (i & cls & conf & Hmax & Hi & _); [discriminate|].
  assert (Hconf : Dict.getitem d cls = Ok conf).
  { unfold Dict.getitem.
    now rewrite (dict_get_lookup d i cls conf (keys_zip_nodup _) Hi). }
  assert (Hinfer : run (infer buf) w =
            run (predictions ← predict l;
                 predicted_class ← lift (py_max (Dict.keys predictions)
                                                (Dict.get predictions));
                 mret (l, predictions, predicted_class)) w1).
  { unfold decode_and_predict. now rewrite run_bind, Hrgb. }
  exists (length (heap w)), l, w1.
  eexists. exists [a; b; c; e], cls. eexists.
  split; [exact Hrgb|]. split; [exact Hl0|]. split; [exact Hl|].
  split; [exact Hinfer|].
  unfold on_upload. rewrite run_try, run_bind, Hinfer.
  rewrite run_bind, Hrun, run_bind, run_lift, Hmax, run_ret.
  rewrite (render_run _ l d cls (rgb_raster pic) [a; b; c; e] conf).
  - split; [reflexivity|]. cbn [log map]. now rewrite <- app_assoc.
  - cbn [heap]. now apply lookup_app_l_Some.
  - reflexivity.
  - exact Hconf.
Qed.
End ChannelOrder.

(** A failure of the rendering code itself is outside what precedes: with
    a class missing from the distribution the chart cannot be built, and
    the preview drawn before it stays on the page. *)
Lemma render_missing_class (w : world) (l : loc) (d : Dict.t spec_float)
    (c : string) (img : array3 u8) (e : exn) :
  heap w !! l = Some (U8 img) ->
  mapM (Dict.getitem d) CLASS_NAMES = Raise e ->
  run (render (l, d, c)) w =
    (Raise e,
     World (heap w)
       (log w ++
        [Show (Columns [3; 7]%nat);
         Show (Markdown
           "<h5 style='margin-bottom:10px;'>MRI Scan Preview</h5>");
         Show (StImage img 230);
         Show (Markdown
           "<h5 style='margin-bottom:10px;'>Classification Confidence</h5>")])).
Proof.
  intros Hl He. unfold render.
  rewrite !run_emit_then, run_bind, (run_read_u8 l img) by exact Hl.
  rewrite !run_emit_then, run_bind, run_lift, He.
  cbn [heap log]. now rewrite <- !app_assoc.
Qed.

Example three_classes_no_chart :
  mapM (Dict.getitem
          (Dict.of_pairs (zip CLASS_NAMES
             [Fixture.p_20; Fixture.p_60; Fixture.p_20])))
       CLASS_NAMES
  = Raise (KeyError "'Pituitary'").
Proof. reflexivity. Qed.

Lemma on_upload_failure_single_error_witness :
  exists calls w2,
    run (on_upload Fixture.resize Fixture.clahe Fixture.decode Fixture.mean
           Fixture.std Fixture.extractor Fixture.selector Fixture.classifier
           []) (World [] []) = (Ok tt, w2) /\
    log w2 =
      [] ++ map Call calls ++
      [Show (StError ("Error processing image: " +:+ exn_str buf_empty))] /\
    calls `prefix_of` [FeatureExtractor; FeatureSelector; Classifier].
Proof.
  apply (on_upload_failure_single_error Fixture.resize Fixture.clahe
           Fixture.decode Fixture.mean Fixture.std Fixture.extractor
           Fixture.selector Fixture.classifier
           (World [] []) (World [] []) [] buf_empty).
  reflexivity.
Defined.

Lemma on_upload_channel_order_witness :
  let pic := [[Color Byte.xff Byte.x00 Byte.x00;
               Color Byte.x00 Byte.x00 Byte.xff]] in
  exists l0 l w1 w2 bars cls percent,
    run (decode_rgb Fixture.decode Fixture.two_pixels) (World [] [])
      = (Ok l, w1) /\
    heap w1 !! l0 = Some (U8 (bgr_raster pic)) /\
    heap w1 !! l = Some (U8 (rgb_raster pic)) /\
    run (decode_and_predict Fixture.resize Fixture.clahe Fixture.decode
           Fixture.mean Fixture.std Fixture.extractor Fixture.selector
           Fixture.classifier Fixture.two_pixels) (World [] []) =
      run (predictions ← predict_image_class Fixture.resize Fixture.clahe
                           Fixture.mean Fixture.std Fixture.extractor
                           Fixture.selector Fixture.classifier l;
           predicted_class ← lift (py_max (Dict.keys predictions)
                                          (Dict.get predictions));
           mret (l, predictions, predicted_class)) w1 /\
    run (on_upload Fixture.resize Fixture.clahe Fixture.decode Fixture.mean
           Fixture.std Fixture.extractor Fixture.selector Fixture.classifier
           Fixture.two_pixels) (World [] []) = (Ok tt, w2) /\
    log w2 =
      [] ++
      [Call FeatureExtractor; Call FeatureSelector; Call Classifier;
       Show (Columns [3; 7]%nat);
       Show (Markdown
         "<h5 style='margin-bottom:10px;'>MRI Scan Preview</h5>");
       Show (StImage (rgb_raster pic) 230);
       Show (Markdown
         "<h5 style='margin-bottom:10px;'>Classification Confidence</h5>");
       Show (Pyplot bars CLASS_NAMES);
       Show (Diagnosis cls percent)].
Proof.
  apply (on_upload_channel_order Fixture.resize Fixture.clahe Fixture.decode
           Fixture.mean Fixture.std Fixture.extractor Fixture.selector
           Fixture.classifier fixture_resize_ok fixture_clahe_ok
           fixture_models_ok (World [] []) Fixture.two_pixels
           [[Color Byte.xff Byte.x00 Byte.x00;
             Color Byte.x00 Byte.x00 Byte.xff]] 1%nat 2%nat).
  - reflexivity.
  - lia.
  - lia.
  - split; [reflexivity|]. repeat constructor.
Defined.

(** C9 as stated fails.  On a 2 x 2 image held in the only array of the
    heap, [preprocess_image] returns array 7, not array 0; array 0 still
    holds the uploaded bytes, and seven arrays have been created. *)
Lemma preprocess_image_not_in_place :
  exists out w',
    run (preprocess_image Fixture.resize Fixture.clahe Fixture.mean
           Fixture.std 0%nat) (Fixture.start Fixture.tiny)
      = (Ok 7%nat, w') /\
    heap w' !! 0%nat = Some (U8 Fixture.tiny) /\
    heap w' !! 7%nat = Some (F32a out) /\
    length (heap w') = 8%nat.
Proof.
  destruct (preprocess_value_ok Fixture.resize Fixture.clahe Fixture.mean
              Fixture.std fixture_resize_ok fixture_clahe_ok 2 2 Fixture.tiny)
    as (out & Hval & _); [lia|lia|exact fixture_tiny_shape|].
  destruct (preprocess_image_run Fixture.resize Fixture.clahe Fixture.mean
              Fixture.std (Fixture.start Fixture.tiny) 0%nat Fixture.tiny
              eq_refl) as (extra & Hrun & Hout).
  rewrite Hval in Hrun. destruct (Hout out Hval) as [H6 H7].
  exists out. eexists. split; [exact Hrun|]. cbn [heap Fixture.start].
  split; [reflexivity|]. split; [exact H6|].
  cbn [app length]. now rewrite H7.
Qed.

(** * Further properties of the script *)

(** ** The choice of the class, whatever the probabilities *)

(** A float that compares greater than another is not NaN. *)
Lemma SFltb_not_nan (x y : spec_float) :
  SFltb x y = true -> is_nan y = false.
Proof. destruct x as [| | |], y as [| | |]; try reflexivity; discriminate. Qed.

(** The loop of [max] returns the running maximum it was given or an item
    whose key is a float other than NaN. *)
Lemma max_loop_result (key : string -> option spec_float)
    (items : list string) :
  forall (k : string) (mv : option spec_float) (k' : string),
    max_loop key items k mv = Ok k' ->
    k' = k \/
    (k' ∈ items /\ exists v, key k' = Some v /\ is_nan v = false).
Proof.
  induction items as [|item items IH]; intros k mv k' H; cbn [max_loop] in H.
  - left. congruence.
  - destruct (key item) as [v1|] eqn:Hk; destruct mv as [v|];
      cbn [py_gt rbind] in H; try discriminate.
    destruct (SFltb v v1) eqn:Hlt.
    + apply IH in H. destruct H as [->|(Hin & v' & Hv' & Hn)].
      * right. split; [apply list_elem_of_here|].
        exists v1. split; [exact Hk|]. exact (SFltb_not_nan _ _ Hlt).
      * right. split; [now apply list_elem_of_further|]. eauto.
    + apply IH in H. destruct H as [->|(Hin & v' & Hv' & Hn)];
        [now left|].
      right. split; [now apply list_elem_of_further|]. eauto.
Qed.

(** The loop does not fail when every item has a float for key. *)
Lemma max_loop_total (key : string -> option spec_float)
    (items : list string) :
  Forall (fun item => is_Some (key item)) items ->
  forall (k : string) (v : spec_float),
    exists k', max_loop key items k (Some v) = Ok k'.
Proof.
  induction 1 as [|item items [v1 Hk] _ IH]; intros k v; cbn [max_loop].
  - eauto.
  - rewrite Hk. cbn [py_gt rbind]. destruct (SFltb v v1); apply IH.
Qed.

(** With NaN for running maximum nothing replaces it. *)
Lemma max_loop_nan (key : string -> option spec_float)
    (items : list string) (k : string) :
  Forall (fun item => is_Some (key item)) items ->
  max_loop key items k (Some S754_nan) = Ok k.
Proof.
  induction 1 as [|item items [v1 Hk] _ IH]; cbn [max_loop];
    [reflexivity|].
  rewrite Hk. cbn [py_gt rbind].
  replace (SFltb S754_nan v1) with false by now destruct v1.
  exact IH.
Qed.

Lemma dict_keys_resolve {V} (d : Dict.t V) :
  NoDup (Dict.keys d) ->
  Forall (fun k => is_Some (Dict.get d k)) (Dict.keys d).
Proof.
  intros Hnd. apply Forall_forall. intros k Hk.
  unfold Dict.keys in Hk. apply list_elem_of_In, in_map_iff in Hk.
  destruct Hk as ([k' v] & <- & Hin). apply list_elem_of_In in Hin.
  apply list_elem_of_lookup_1 in Hin. destruct Hin as [i Hi].
  exists v. exact (dict_get_lookup d i k' v Hnd Hi).
Qed.

Lemma distribution_keys_resolve (p : list spec_float) :
  Forall (fun k => is_Some (Dict.get (zip CLASS_NAMES p) k))
         (Dict.keys (zip CLASS_NAMES p)).
Proof. apply dict_keys_resolve, keys_zip_nodup. Qed.

(** X1.  Picking the class fails on the empty distribution only: with an
    empty probability row [max] raises [ValueError]; with any other row,
    NaN or infinities included, it returns one of the class names the
    row reaches. *)
Theorem predicted_class_fails_only_when_empty (p : list spec_float) :
  let predictions := Dict.of_pairs (zip CLASS_NAMES p) in
  match p with
  | [] =>
      exists e,
        py_max (Dict.keys predictions) (Dict.get predictions) = Raise e /\
        exn_class e = "ValueError"%string
  | _ :: _ =>
      exists (i : nat) (name : string),
        py_max (Dict.keys predictions) (Dict.get predictions) = Ok name /\
        CLASS_NAMES !! i = Some name /\ (i < length p)%nat
  end.
Proof.
  cbv zeta. rewrite distribution_zip. destruct p as [|v0 p].
  - eexists. split; reflexivity.
  - pose proof (distribution_keys_resolve (v0 :: p)) as Hres.
    change (zip CLASS_NAMES (v0 :: p))
      with (("Glioma"%string, v0) :: zip (tail CLASS_NAMES) p) in *.
    rewrite dict_keys_cons in *. apply Forall_cons in Hres.
    destruct Hres as [[v Hv] Hres]. cbn [py_max]. rewrite Hv.
    destruct (max_loop_total _ _ Hres "Glioma"%string v) as [k' Hk'].
    rewrite Hk'.
    assert (Hin : k' ∈ take (length (v0 :: p)) CLASS_NAMES).
    { rewrite <- keys_zip.
      change (zip CLASS_NAMES (v0 :: p))
        with (("Glioma"%string, v0) :: zip (tail CLASS_NAMES) p).
      rewrite dict_keys_cons.
      destruct (max_loop_result _ _ _ _ _ Hk') as [->|[Hin _]].
      - apply list_elem_of_here.
      - now apply list_elem_of_further. }
    apply elem_of_take in Hin. destruct Hin as (i & Hi & Hlt).
    exists i, k'. now repeat split.
Qed.

(** X2.  A class whose probability is NaN is reported only when it is
    the first class: a NaN never compares greater, so it can stay the
    maximum but never become it. *)
Theorem nan_class_reported_only_if_first
    (p : list spec_float) (name : string) (v : spec_float) :
  let predictions := Dict.of_pairs (zip CLASS_NAMES p) in
  py_max (Dict.keys predictions) (Dict.get predictions) = Ok name ->
  Dict.get predictions name = Some v ->
  is_nan v = true ->
  name = "Glioma"%string.
Proof.
  cbv zeta. rewrite distribution_zip. destruct p as [|v0 p];
    [discriminate|].
  change (zip CLASS_NAMES (v0 :: p))
    with (("Glioma"%string, v0) :: zip (tail CLASS_NAMES) p).
  rewrite dict_keys_cons. cbn [py_max]. intros Hmax Hget Hnan.
  destruct (max_loop_result _ _ _ _ _ Hmax) as [->|(_ & v' & Hv' & Hn)];
    [reflexivity|].
  rewrite Hget in Hv'. injection Hv' as <-. congruence.
Qed.

Lemma nan_class_reported_only_if_first_witness :
  let p := [S754_nan; Fixture.p_60; Fixture.p_20; Fixture.p_10] in
  let predictions := Dict.of_pairs (zip CLASS_NAMES p) in
  py_max (Dict.keys predictions) (Dict.get predictions)
    = Ok "Glioma"%string /\
  Dict.get predictions "Glioma"%string = Some S754_nan /\
  is_nan S754_nan = true /\
  "Glioma"%string = "Glioma"%string.
Proof.
  split; [reflexivity|]. split; [reflexivity|]. split; [reflexivity|].
  apply (nan_class_reported_only_if_first
           [S754_nan; Fixture.p_60; Fixture.p_20; Fixture.p_10]
           "Glioma"%string S754_nan); reflexivity.
Defined.

(** X3.  When the first probability is NaN the first class is reported,
    whatever the other probabilities are. *)
Theorem nan_first_reports_first_class (rest : list spec_float) :
  let predictions := Dict.of_pairs (zip CLASS_NAMES (S754_nan :: rest)) in
  py_max (Dict.keys predictions) (Dict.get predictions)
    = Ok "Glioma"%string.
Proof.
  cbv zeta. rewrite distribution_zip.
  pose proof (distribution_keys_resolve (S754_nan :: rest)) as Hres.
  change (zip CLASS_NAMES (S754_nan :: rest))
    with (("Glioma"%string, S754_nan) :: zip (tail CLASS_NAMES) rest) in *.
  rewrite dict_keys_cons in *. apply Forall_cons in Hres.
  destruct Hres as [_ Hres]. cbn [py_max].
  replace (Dict.get _ "Glioma"%string) with (Some S754_nan)
    by (cbn [Dict.get]; now rewrite decide_True).
  now apply max_loop_nan.
Qed.

(** ** The percentage of the diagnosis *)

(** No finite non-zero number is canonical both as a [float32] and as a
    [float64]. *)
Lemma formats_disjoint (x : spec_float) :
  valid_binary F32.prec F32.emax x = true ->
  valid_binary F64.prec F64.emax x = true ->
  match x with S754_finite _ _ _ => False | _ => True end.
Proof.
  destruct x as [s|s| |s m e]; try easy.
  unfold valid_binary, bounded, canonical_mantissa, fexp, emin,
    F32.prec, F32.emax, F64.prec, F64.emax.
  intros H32 H64.
  apply andb_true_iff in H32 as [H32 _]. apply andb_true_iff in H64 as [H64 _].
  apply Z.eqb_eq in H32, H64. lia.
Qed.

Lemma percent_f32 (x : spec_float) :
  valid_binary F32.prec F32.emax x = true ->
  percent x = F32.mul x (F32.of_Z 100).
Proof. intros H. unfold percent. now rewrite H. Qed.

Lemma percent_f64 (x : spec_float) :
  valid_binary F64.prec F64.emax x = true ->
  percent x = SFmul F64.prec F64.emax x hundred.
Proof.
  intros H64. unfold percent.
  destruct (valid_binary F32.prec F32.emax x) eqn:H32; [|reflexivity].
  pose proof (formats_disjoint x H32 H64) as Hx.
  destruct x as [s|s| |s m e]; [now destruct s..|reflexivity|easy].
Qed.

(** The [float32] nearest to 0.6 gives the [float32] nearest to its
    hundredfold, the [float64] nearest to 0.6 gives 60 in [float64]. *)
Example percent_of_a_float32 :
  percent (S754_finite false 10066330 (-24)) =
  S754_finite false 15728641 (-18).
Proof. reflexivity. Qed.

Example percent_of_a_float64 :
  percent Fixture.p_60 = S754_finite false 8444249301319680 (-47).
Proof. reflexivity. Qed.

(** ** The handler, case by case *)

Lemma py_max_distribution (p : list spec_float) :
  p <> [] ->
  exists name v,
    py_max (Dict.keys (zip CLASS_NAMES p)) (Dict.get (zip CLASS_NAMES p))
      = Ok name /\
    Dict.get (zip CLASS_NAMES p) name = Some v /\ v ∈ p.
Proof.
  intros Hne. destruct p as [|v0 p]; [congruence|].
  pose proof (distribution_keys_resolve (v0 :: p)) as Hres.
  pose proof Hres as Hall.
  change (zip CLASS_NAMES (v0 :: p))
    with (("Glioma"%string, v0) :: zip (tail CLASS_NAMES) p) in Hres |- *.
  rewrite dict_keys_cons in *. apply Forall_cons in Hres.
  destruct Hres as [[v Hv] Hres]. cbn [py_max]. rewrite Hv.
  destruct (max_loop_total _ _ Hres "Glioma"%string v) as [k' Hk'].
  rewrite Hk'.
  assert (Hin : k' ∈ Dict.keys (zip CLASS_NAMES (v0 :: p))).
  { change (zip CLASS_NAMES (v0 :: p))
      with (("Glioma"%string, v0) :: zip (tail CLASS_NAMES) p).
    rewrite dict_keys_cons.
    destruct (max_loop_result _ _ _ _ _ Hk') as [->|[Hin _]].
    - apply list_elem_of_here.
    - now apply list_elem_of_further. }
  rewrite Forall_forall in Hall. destruct (Hall k' Hin) as [v' Hv'].
  exists k', v'. split; [reflexivity|]. split; [exact Hv'|].
  apply dict_get_Some in Hv'. destruct Hv' as [i Hi].
  apply list_elem_of_lookup_2 in Hi. now apply elem_of_zip_r in Hi.
Qed.

(** With fewer than four probabilities the chart cannot be built: the
    first class without a probability is a missing key. *)
Lemma chart_missing_class (p : list spec_float) :
  (length p < 4)%nat ->
  exists e,
    mapM (Dict.getitem (zip CLASS_NAMES p)) CLASS_NAMES = Raise e /\
    exn_class e = "KeyError"%string.
Proof.
  intros Hlen. destruct p as [|a [|b [|c [|e p]]]];
    try (cbn in Hlen; lia); eexists; split; reflexivity.
Qed.

(** With four or more, the chart shows the first four. *)
Lemma chart_values (p : list spec_float) :
  (4 <= length p)%nat ->
  mapM (Dict.getitem (zip CLASS_NAMES p)) CLASS_NAMES = Ok (take 4 p).
Proof.
  intros Hlen. destruct p as [|a [|b [|c [|e p]]]];
    try (cbn in Hlen; lia). reflexivity.
Qed.

Section HandlerCases.
Variable cv2_resize : nat * nat -> array3 u8 -> result (array3 u8).
Variable clahe_apply :
  spec_float -> nat * nat -> array2 u8 -> result (array2 u8).
Variable decode_picture : list u8 -> option picture.
Variable np_mean np_std : array3 spec_float -> spec_float.
Variable feature_extractor_predict :
  list (array3 spec_float) -> result (array2 spec_float).
Variable feature_selector_transform :
  array2 spec_float -> result (array2 spec_float).
Variable classifier_predict_proba :
  array2 spec_float -> result (array2 spec_float).

Local Abbreviation pre :=
  (preprocess_image cv2_resize clahe_apply np_mean np_std).
Local Abbreviation pre_value :=
  (preprocess_value cv2_resize clahe_apply np_mean np_std).
Local Abbreviation predict :=
  (predict_image_class cv2_resize clahe_apply np_mean np_std
     feature_extractor_predict feature_selector_transform
     classifier_predict_proba).
Local Abbreviation predicted :=
  (predict_value cv2_resize clahe_apply np_mean np_std
     feature_extractor_predict feature_selector_transform
     classifier_predict_proba).
Local Abbreviation invoked :=
  (predict_calls cv2_resize clahe_apply np_mean np_std
     feature_extractor_predict feature_selector_transform).
Local Abbreviation infer :=
  (decode_and_predict cv2_resize clahe_apply decode_picture np_mean np_std
     feature_extractor_predict feature_selector_transform
     classifier_predict_proba).
Local Abbreviation upload :=
  (on_upload cv2_resize clahe_apply decode_picture np_mean np_std
     feature_extractor_predict feature_selector_transform
     classifier_predict_proba).

(** Lines 82-88 for an upload that decodes: two arrays for the picture,
    then the inference on the second, then the choice of the class. *)
Lemma decode_and_predict_decoded (w : world) (buf : list u8)
    (pic : picture) :
  decode_picture buf = Some pic ->
  empty (bgr_raster pic) = false ->
  exists extra,
    run (infer buf) w =
      (match predicted (rgb_raster pic) with
       | Ok d => rmap (fun c => (S (length (heap w)), d, c))
                      (py_max (Dict.keys d) (Dict.get d))
       | Raise e => Raise e
       end,
       World (heap w ++ U8 (bgr_raster pic) :: U8 (rgb_raster pic) :: extra)
             (log w ++ map Call (invoked (rgb_raster pic)))).
Proof.
  intros Hdec Hne.
  pose proof (decode_rgb_run decode_picture w buf) as Hrgb.
  rewrite Hdec, Hne in Hrgb.
  set (w1 := World (heap w ++ [U8 (bgr_raster pic); U8 (rgb_raster pic)])
                   (log w)) in *.
  assert (Hl : heap w1 !! S (length (heap w))
               = Some (U8 (rgb_raster pic))).
  { subst w1. cbn [heap]. rewrite <- Nat.add_1_r.
    now rewrite lookup_app_plus. }
  destruct (predict_image_class_run cv2_resize clahe_apply np_mean np_std
              feature_extractor_predict feature_selector_transform
              classifier_predict_proba w1 _ _ Hl) as (extra & Hrun).
  exists extra. unfold decode_and_predict.
  rewrite run_bind, Hrgb, run_bind, Hrun. subst w1. cbn [heap log].
  rewrite <- app_assoc. cbn [app].
  destruct (predicted (rgb_raster pic)) as [d|e]; [|reflexivity].
  rewrite run_bind, run_lift.
  destruct (py_max (Dict.keys d) (Dict.get d)) as [c|e]; reflexivity.
Qed.

(** What the models' answers make of [predict_value]. *)
Lemma predict_value_answer (img : array3 u8) (x : array3 spec_float)
    (f s : array2 spec_float) (p : list spec_float)
    (rest : array2 spec_float) :
  pre_value img = Ok x ->
  feature_extractor_predict [x] = Ok f ->
  feature_selector_transform f = Ok s ->
  classifier_predict_proba s = Ok (p :: rest) ->
  predicted img = Ok (zip CLASS_NAMES p) /\
  invoked img = [FeatureExtractor; FeatureSelector; Classifier].
Proof.
  intros Hx Hf Hs Hp.
  assert (H : predicted img = Ok (zip CLASS_NAMES p)).
  { unfold predict_value. rewrite Hx. cbn [rbind]. unfold Np.expand_dims.
    rewrite Hf. cbn [rbind]. rewrite Hs. cbn [rbind]. rewrite Hp.
    cbn [rbind row0]. now rewrite distribution_zip. }
  split; [exact H|]. eapply predict_calls_all. exact H.
Qed.

(** X4.  When the classifier yields one, two or three probabilities the
    inference succeeds and the preview and the chart's heading are drawn,
    but the chart raises [KeyError] on the first class without a
    probability: the page ends with the error message and has neither
    chart nor diagnosis. *)
Theorem on_upload_short_row_keeps_preview (w : world) (buf : list u8)
    (pic : picture) (x : array3 spec_float) (f s : array2 spec_float)
    (p : list spec_float) (rest : array2 spec_float) :
  decode_picture buf = Some pic ->
  empty (bgr_raster pic) = false ->
  pre_value (rgb_raster pic) = Ok x ->
  feature_extractor_predict [x] = Ok f ->
  feature_selector_transform f = Ok s ->
  classifier_predict_proba s = Ok (p :: rest) ->
  (0 < length p < 4)%nat ->
  exists e w2,
    exn_class e = "KeyError"%string /\
    run (upload buf) w = (Ok tt, w2) /\
    log w2 =
      log w ++
      [Call FeatureExtractor; Call FeatureSelector; Call Classifier;
       Show (Columns [3; 7]%nat);
       Show (Markdown
         "<h5 style='margin-bottom:10px;'>MRI Scan Preview</h5>");
       Show (StImage (rgb_raster pic) 230);
       Show (Markdown
         "<h5 style='margin-bottom:10px;'>Classification Confidence</h5>");
       Show (StError ("Error processing image: " +:+ exn_str e))].
Proof.
  intros Hdec Hne Hx Hf Hs Hp [Hpos Hlt].
  destruct (predict_value_answer _ x f s p rest Hx Hf Hs Hp) as [Hd Hcalls].
  destruct (decode_and_predict_decoded w buf pic Hdec Hne)
    as (extra & Hrun).
  rewrite Hd, Hcalls in Hrun.
  destruct (py_max_distribution p) as (c & v & Hmax & _);
    [destruct p; [cbn in Hpos; lia|discriminate]|].
  rewrite Hmax in Hrun. cbn [rmap] in Hrun.
  destruct (chart_missing_class p Hlt) as (e & He & Hclass).
  exists e. eexists. split; [exact Hclass|].
  unfold on_upload. rewrite run_try, run_bind, Hrun.
  rewrite (render_missing_class _ _ _ _ (rgb_raster pic) e);
    [|cbn [heap]; rewrite <- Nat.add_1_r, lookup_app_plus; reflexivity
     |exact He].
  rewrite run_emit. cbn [heap log map].
  split; [reflexivity|]. now rewrite <- !app_assoc.
Qed.

(** X5.  When the classifier yields an empty row the three models have
    run, the distribution is empty and [max] raises: the page gets the
    error message and nothing else, no preview. *)
Theorem on_upload_empty_row_error_only (w : world) (buf : list u8)
    (pic : picture) (x : array3 spec_float) (f s : array2 spec_float)
    (rest : array2 spec_float) :
  decode_picture buf = Some pic ->
  empty (bgr_raster pic) = false ->
  pre_value (rgb_raster pic) = Ok x ->
  feature_extractor_predict [x] = Ok f ->
  feature_selector_transform f = Ok s ->
  classifier_predict_proba s = Ok ([] :: rest) ->
  exists e w2,
    exn_class e = "ValueError"%string /\
    run (upload buf) w = (Ok tt, w2) /\
    log w2 =
      log w ++
      [Call FeatureExtractor; Call FeatureSelector; Call Classifier;
       Show (StError ("Error processing image: " +:+ exn_str e))].
Proof.
  intros Hdec Hne Hx Hf Hs Hp.
  destruct (predict_value_answer _ x f s [] rest Hx Hf Hs Hp) as [Hd Hcalls].
  destruct (decode_and_predict_decoded w buf pic Hdec Hne)
    as (extra & Hrun).
  rewrite Hd, Hcalls in Hrun.
  change (zip CLASS_NAMES (@nil spec_float))
    with (@nil (string * spec_float)) in Hrun.
  cbn [Dict.keys map py_max rmap] in Hrun.
  exists (ValueError "max() iterable argument is empty"). eexists.
  split; [reflexivity|]. split.
  - unfold on_upload. rewrite run_try, run_bind, Hrun, run_emit.
    reflexivity.
  - cbn [heap log map]. now rewrite <- !app_assoc.
Qed.

(** X6.  An upload no codec reads costs nothing: no array is created,
    no model is invoked, and the page gets one error message, of class
    [cv2.error], alone.  On a zero-byte upload it is [cv2.imdecode]
    itself that raises; on any other such upload [cv2.imdecode] returns
    [None] and it is [cv2.cvtColor] that raises. *)
Theorem on_upload_undecodable (w : world) (buf : list u8) :
  decode_picture buf = None ->
  exists e,
    exn_class e = "cv2.error"%string /\
    match buf with
    | [] => run (cv2_imdecode decode_picture buf) w = (Raise e, w)
    | _ :: _ =>
        run (cv2_imdecode decode_picture buf) w = (Ok None, w) /\
        run (cv2_cvtColor_BGR2RGB None) w = (Raise e, w)
    end /\
    run (upload buf) w =
      (Ok tt,
       World (heap w)
         (log w ++
          [Show (StError ("Error processing image: " +:+ exn_str e))])).
Proof.
  intros Hdec. exists (undecodable buf). split; [now destruct buf|]. split.
  - unfold cv2_imdecode. rewrite Hdec. now destruct buf.
  - unfold on_upload, decode_and_predict.
    rewrite run_try, !run_bind, decode_rgb_run, Hdec, run_emit.
    reflexivity.
Qed.

(** X7.  With four or more probabilities the whole page is drawn: the
    preview, a chart of the first four probabilities, and a diagnosis
    naming the class [max] picks with one hundred times its probability,
    the product taken in the probability's own format: a [float32]
    product for a [float32] probability, a [float64] product for a
    [float64] one.  A fifth probability and further rows of the
    classifier's answer are ignored. *)
Theorem on_upload_full_page (w : world) (buf : list u8)
    (pic : picture) (x : array3 spec_float) (f s : array2 spec_float)
    (p : list spec_float) (rest : array2 spec_float) :
  decode_picture buf = Some pic ->
  empty (bgr_raster pic) = false ->
  pre_value (rgb_raster pic) = Ok x ->
  feature_extractor_predict [x] = Ok f ->
  feature_selector_transform f = Ok s ->
  classifier_predict_proba s = Ok (p :: rest) ->
  (4 <= length p)%nat ->
  exists cls conf w2,
    py_max (Dict.keys (zip CLASS_NAMES p)) (Dict.get (zip CLASS_NAMES p))
      = Ok cls /\
    Dict.get (zip CLASS_NAMES p) cls = Some conf /\
    conf ∈ take 4 p /\
    run (upload buf) w = (Ok tt, w2) /\
    log w2 =
      log w ++
      [Call FeatureExtractor; Call FeatureSelector; Call Classifier;
       Show (Columns [3; 7]%nat);
       Show (Markdown
         "<h5 style='margin-bottom:10px;'>MRI Scan Preview</h5>");
       Show (StImage (rgb_raster pic) 230);
       Show (Markdown
         "<h5 style='margin-bottom:10px;'>Classification Confidence</h5>");
       Show (Pyplot (take 4 p) CLASS_NAMES);
       Show (Diagnosis cls (percent conf))] /\
    (valid_binary F32.prec F32.emax conf = true ->
     percent conf = F32.mul conf (F32.of_Z 100)) /\
    (valid_binary F64.prec F64.emax conf = true ->
     percent conf = SFmul F64.prec F64.emax conf hundred).
Proof.
  intros Hdec Hne Hx Hf Hs Hp Hlen.
  destruct (predict_value_answer _ x f s p rest Hx Hf Hs Hp) as [Hd Hcalls].
  destruct (decode_and_predict_decoded w buf pic Hdec Hne)
    as (extra & Hrun).
  rewrite Hd, Hcalls in Hrun.
  destruct (py_max_distribution p) as (c & v & Hmax & Hget & _);
    [destruct p; [cbn in Hlen; lia|discriminate]|].
  rewrite Hmax in Hrun. cbn [rmap] in Hrun.
  exists c, v. eexists. split; [exact Hmax|]. split; [exact Hget|]. split.
  { pose proof Hget as Hi. apply dict_get_Some in Hi. destruct Hi as [i Hi].
    apply lookup_zip_Some in Hi. destruct Hi as [Hname Hv].
    apply elem_of_take. exists i. split; [exact Hv|].
    apply lookup_lt_Some in Hname. exact Hname. }
  unfold on_upload. rewrite run_try, run_bind, Hrun.
  rewrite (render_run _ _ _ _ (rgb_raster pic) (take 4 p) v);
    [|cbn [heap]; rewrite <- Nat.add_1_r, lookup_app_plus; reflexivity
     |now apply chart_values
     |unfold Dict.getitem; now rewrite Hget].
  cbn [heap log map]. split; [reflexivity|].
  split; [now rewrite <- !app_assoc|].
  split; [apply percent_f32|apply percent_f64].
Qed.
(** ** What a later upload meets *)

(** [render] draws the same widgets wherever the image lies. *)
Lemma render_independent (l1 l2 : loc) (d : Dict.t spec_float) (c : string)
    (img : array3 u8) (w1 w2 : world) :
  heap w1 !! l1 = Some (U8 img) ->
  heap w2 !! l2 = Some (U8 img) ->
  exists r shown,
    run (render (l1, d, c)) w1 = (r, World (heap w1) (log w1 ++ shown)) /\
    run (render (l2, d, c)) w2 = (r, World (heap w2) (log w2 ++ shown)).
Proof.
  intros H1 H2.
  destruct (mapM (Dict.getitem d) CLASS_NAMES) as [vs|e] eqn:Hvs.
  - destruct (Dict.getitem d c) as [conf|e] eqn:Hc.
    + eexists _, _.
      rewrite (render_run w1 l1 d c img vs conf H1 Hvs Hc).
      rewrite (render_run w2 l2 d c img vs conf H2 Hvs Hc).
      split; reflexivity.
    + eexists _, _. unfold render. split.
      * rewrite !run_emit_then, run_bind, (run_read_u8 l1 img) by exact H1.
        rewrite !run_emit_then, run_bind, run_lift, Hvs.
        rewrite run_emit_then, run_bind, run_lift, Hc.
        cbn [heap log]. rewrite <- !app_assoc. reflexivity.
      * rewrite !run_emit_then, run_bind, (run_read_u8 l2 img) by exact H2.
        rewrite !run_emit_then, run_bind, run_lift, Hvs.
        rewrite run_emit_then, run_bind, run_lift, Hc.
        cbn [heap log]. rewrite <- !app_assoc. reflexivity.
  - eexists _, _.
    rewrite (render_missing_class w1 l1 d c img e H1 Hvs).
    rewrite (render_missing_class w2 l2 d c img e H2 Hvs).
    split; reflexivity.
Qed.

(** What the handler draws depends on the upload alone, not on the
    arrays or the page it starts from. *)
Lemma on_upload_independent (buf : list u8) (w1 w2 : world) :
  exists shown extra1 extra2,
    run (upload buf) w1 =
      (Ok tt, World (heap w1 ++ extra1) (log w1 ++ shown)) /\
    run (upload buf) w2 =
      (Ok tt, World (heap w2 ++ extra2) (log w2 ++ shown)).
Proof.
  unfold on_upload. rewrite !run_try, !run_bind.
  destruct (decode_picture buf) as [pic|] eqn:Hdec.
  2: { unfold decode_and_predict.
       rewrite !run_bind, !decode_rgb_run, Hdec, !run_emit.
       eexists _, [], [].
       rewrite (app_nil_r (heap w1)), (app_nil_r (heap w2)).
       split; reflexivity. }
  destruct (empty (bgr_raster pic)) eqn:Hne.
  { unfold decode_and_predict.
    rewrite !run_bind, !decode_rgb_run, Hdec, Hne, !run_emit.
    eexists _, _, _. split; reflexivity. }
  destruct (decode_and_predict_decoded w1 buf pic Hdec Hne) as (x1 & ->).
  destruct (decode_and_predict_decoded w2 buf pic Hdec Hne) as (x2 & ->).
  destruct (predicted (rgb_raster pic)) as [d|e].
  2: { rewrite !run_emit. cbn [heap log]. rewrite <- !app_assoc.
       eexists _, _, _. split; reflexivity. }
  destruct (py_max (Dict.keys d) (Dict.get d)) as [c|e]; cbn [rmap].
  2: { rewrite !run_emit. cbn [heap log]. rewrite <- !app_assoc.
       eexists _, _, _. split; reflexivity. }
  set (v1 := World (heap w1 ++ _) _). set (v2 := World (heap w2 ++ _) _).
  destruct (render_independent (S (length (heap w1))) (S (length (heap w2)))
              d c (rgb_raster pic) v1 v2) as (r & shown & E1 & E2).
  { subst v1. cbn [heap]. rewrite <- Nat.add_1_r.
    now rewrite lookup_app_plus. }
  { subst v2. cbn [heap]. rewrite <- Nat.add_1_r.
    now rewrite lookup_app_plus. }
  unfold loc in E1, E2.
  destruct r as [[]|e].
  - exists (map Call (invoked (rgb_raster pic)) ++ shown),
      (U8 (bgr_raster pic) :: U8 (rgb_raster pic) :: x1),
      (U8 (bgr_raster pic) :: U8 (rgb_raster pic) :: x2).
    rewrite E1, E2. subst v1 v2. cbn [heap log].
    rewrite <- !app_assoc. split; reflexivity.
  - exists (map Call (invoked (rgb_raster pic)) ++ shown ++
            [Show (StError ("Error processing image: " +:+ exn_str e))]),
      (U8 (bgr_raster pic) :: U8 (rgb_raster pic) :: x1),
      (U8 (bgr_raster pic) :: U8 (rgb_raster pic) :: x2).
    rewrite E1, E2, !run_emit. subst v1 v2. cbn [heap log].
    rewrite <- !app_assoc. split; reflexivity.
Qed.

(** C9 as the code has it.  No stage works on the uploaded image's own
    array: [preprocess_image] leaves every array that existed before the
    call as it was, creates its arrays after them (seven when it returns)
    and returns the last of these, a new array; a whole inference and the
    whole handler likewise only add arrays, and the handler returns no
    reference to any of them.  Nor is anything of one inference used by
    a later one: an upload handled after this one is handled as by a
    process that has handled none, drawing the very same widgets. *)
Theorem pipeline_leaves_image_unchanged (w : world) (l : loc)
    (buf : list u8) :
  (exists extra,
     snd (run (pre l) w) = World (heap w ++ extra) (log w) /\
     forall l', fst (run (pre l) w) = Ok l' ->
                l' = (length (heap w) + 6)%nat /\ length extra = 7%nat) /\
  (exists extra, heap (snd (run (predict l) w)) = heap w ++ extra) /\
  (exists extra,
     fst (run (upload buf) w) = Ok tt /\
     heap (snd (run (upload buf) w)) = heap w ++ extra) /\
  (forall later, exists shown extra1 extra2,
     run (upload later) (snd (run (upload buf) w)) =
       (Ok tt,
        World (heap (snd (run (upload buf) w)) ++ extra1)
              (log (snd (run (upload buf) w)) ++ shown)) /\
     run (upload later) (World [] []) = (Ok tt, World extra2 shown)).
Proof.
  split; [|split; [|split;
    [apply (on_upload_frame cv2_resize clahe_apply decode_picture np_mean
              np_std feature_extractor_predict feature_selector_transform
              classifier_predict_proba)
    |intros later;
     exact (on_upload_independent later (snd (run (upload buf) w))
              (World [] []))]]].
  - destruct (heap w !! l) as [[img|a]|] eqn:Hl.
    + destruct (preprocess_image_run cv2_resize clahe_apply np_mean np_std
                  w l img Hl) as (extra & Hrun & Hout).
      exists extra. rewrite Hrun. cbn [fst snd]. split; [reflexivity|].
      intros l' Hl'.
      destruct (preprocess_value _ _ _ _ img) as [out|]; [|discriminate].
      injection Hl' as <-. split; [reflexivity|].
      exact (proj2 (Hout out eq_refl)).
    + destruct (preprocess_image_dangling cv2_resize clahe_apply np_mean
                  np_std w l) as [e He]; [intros img; congruence|].
      exists []. rewrite He. cbn [fst snd].
      rewrite app_nil_r, world_eta. split; [reflexivity|discriminate].
    + destruct (preprocess_image_dangling cv2_resize clahe_apply np_mean
                  np_std w l) as [e He]; [intros img; congruence|].
      exists []. rewrite He. cbn [fst snd].
      rewrite app_nil_r, world_eta. split; [reflexivity|discriminate].
  - destruct (heap w !! l) as [[img|a]|] eqn:Hl.
    + destruct (predict_image_class_run cv2_resize clahe_apply np_mean
                  np_std feature_extractor_predict feature_selector_transform
                  classifier_predict_proba w l img Hl) as (extra & Hrun).
      exists extra. now rewrite Hrun.
    + destruct (predict_image_class_dangling cv2_resize clahe_apply np_mean
                  np_std feature_extractor_predict feature_selector_transform
                  classifier_predict_proba w l) as [e He];
        [intros img; congruence|].
      exists []. rewrite He. cbn [snd]. now rewrite app_nil_r.
    + destruct (predict_image_class_dangling cv2_resize clahe_apply np_mean
                  np_std feature_extractor_predict feature_selector_transform
                  classifier_predict_proba w l) as [e He];
        [intros img; congruence|].
      exists []. rewrite He. cbn [snd]. now rewrite app_nil_r.
Qed.
End HandlerCases.

Lemma fixture_red_blue_shape : has_shape 1 2 3 (rgb_raster Fixture.red_blue).
Proof. now apply has_shapeb_spec. Qed.

Lemma on_upload_short_row_keeps_preview_witness :
  exists e w2,
    exn_class e = "KeyError"%string /\
    run (on_upload Fixture.resize Fixture.clahe Fixture.decode Fixture.mean
           Fixture.std Fixture.extractor Fixture.selector Fixture.classifier3
           Fixture.two_pixels) (World [] []) = (Ok tt, w2) /\
    log w2 =
      [] ++
      [Call FeatureExtractor; Call FeatureSelector; Call Classifier;
       Show (Columns [3; 7]%nat);
       Show (Markdown
         "<h5 style='margin-bottom:10px;'>MRI Scan Preview</h5>");
       Show (StImage (rgb_raster Fixture.red_blue) 230);
       Show (Markdown
         "<h5 style='margin-bottom:10px;'>Classification Confidence</h5>");
       Show (StError ("Error processing image: " +:+ exn_str e))].
Proof.
  destruct (preprocess_value_ok Fixture.resize Fixture.clahe Fixture.mean
              Fixture.std fixture_resize_ok fixture_clahe_ok 1 2
              (rgb_raster Fixture.red_blue))
    as (x & Hx & _); [lia|lia|exact fixture_red_blue_shape|].
  apply (on_upload_short_row_keeps_preview Fixture.resize Fixture.clahe
           Fixture.decode Fixture.mean Fixture.std Fixture.extractor
           Fixture.selector Fixture.classifier3 (World [] [])
           Fixture.two_pixels Fixture.red_blue x [[f_one]] [[f_one]]
           [Fixture.p_20; Fixture.p_60; Fixture.p_20] []).
  - reflexivity.
  - reflexivity.
  - exact Hx.
  - reflexivity.
  - reflexivity.
  - reflexivity.
  - cbn. lia.
Defined.

Lemma on_upload_empty_row_error_only_witness :
  exists e w2,
    exn_class e = "ValueError"%string /\
    run (on_upload Fixture.resize Fixture.clahe Fixture.decode Fixture.mean
           Fixture.std Fixture.extractor Fixture.selector Fixture.classifier0
           Fixture.two_pixels) (World [] []) = (Ok tt, w2) /\
    log w2 =
      [] ++
      [Call FeatureExtractor; Call FeatureSelector; Call Classifier;
       Show (StError ("Error processing image: " +:+ exn_str e))].
Proof.
  destruct (preprocess_value_ok Fixture.resize Fixture.clahe Fixture.mean
              Fixture.std fixture_resize_ok fixture_clahe_ok 1 2
              (rgb_raster Fixture.red_blue))
    as (x & Hx & _); [lia|lia|exact fixture_red_blue_shape|].
  apply (on_upload_empty_row_error_only Fixture.resize Fixture.clahe
           Fixture.decode Fixture.mean Fixture.std Fixture.extractor
           Fixture.selector Fixture.classifier0 (World [] [])
           Fixture.two_pixels Fixture.red_blue x [[f_one]] [[f_one]] []).
  - reflexivity.
  - reflexivity.
  - exact Hx.
  - reflexivity.
  - reflexivity.
  - reflexivity.
Defined.

Lemma on_upload_undecodable_witness :
  exists e,
    exn_class e = "cv2.error"%string /\
    run (cv2_imdecode Fixture.decode []) (World [] []) =
      (Raise e, World [] []) /\
    run (on_upload Fixture.resize Fixture.clahe Fixture.decode Fixture.mean
           Fixture.std Fixture.extractor Fixture.selector Fixture.classifier
           []) (World [] []) =
      (Ok tt,
       World []
         ([] ++
          [Show (StError ("Error processing image: " +:+ exn_str e))])).
Proof.
  apply (on_upload_undecodable Fixture.resize Fixture.clahe Fixture.decode
           Fixture.mean Fixture.std Fixture.extractor Fixture.selector
           Fixture.classifier (World [] []) []).
  reflexivity.
Defined.

Lemma on_upload_full_page_witness :
  let p := [Fixture.p_10; Fixture.p_20; Fixture.p_60; Fixture.p_10;
            Fixture.p_20] in
  exists cls conf w2,
    py_max (Dict.keys (zip CLASS_NAMES p)) (Dict.get (zip CLASS_NAMES p))
      = Ok cls /\
    Dict.get (zip CLASS_NAMES p) cls = Some conf /\
    conf ∈ take 4 p /\
    run (on_upload Fixture.resize Fixture.clahe Fixture.decode Fixture.mean
           Fixture.std Fixture.extractor Fixture.selector Fixture.classifier5
           Fixture.two_pixels) (World [] []) = (Ok tt, w2) /\
    log w2 =
      [] ++
      [Call FeatureExtractor; Call FeatureSelector; Call Classifier;
       Show (Columns [3; 7]%nat);
       Show (Markdown
         "<h5 style='margin-bottom:10px;'>MRI Scan Preview</h5>");
       Show (StImage (rgb_raster Fixture.red_blue) 230);
       Show (Markdown
         "<h5 style='margin-bottom:10px;'>Classification Confidence</h5>");
       Show (Pyplot (take 4 p) CLASS_NAMES);
       Show (Diagnosis cls (percent conf))] /\
    (valid_binary F32.prec F32.emax conf = true ->
     percent conf = F32.mul conf (F32.of_Z 100)) /\
    (valid_binary F64.prec F64.emax conf = true ->
     percent conf = SFmul F64.prec F64.emax conf hundred).
Proof.
  destruct (preprocess_value_ok Fixture.resize Fixture.clahe Fixture.mean
              Fixture.std fixture_resize_ok fixture_clahe_ok 1 2
              (rgb_raster Fixture.red_blue))
    as (x & Hx & _); [lia|lia|exact fixture_red_blue_shape|].
  apply (on_upload_full_page Fixture.resize Fixture.clahe
           Fixture.decode Fixture.mean Fixture.std Fixture.extractor
           Fixture.selector Fixture.classifier5 (World [] [])
           Fixture.two_pixels Fixture.red_blue x [[f_one]] [[f_one]]
           [Fixture.p_10; Fixture.p_20; Fixture.p_60; Fixture.p_10;
            Fixture.p_20] [[Fixture.p_60]]).
  - reflexivity.
  - reflexivity.
  - exact Hx.
  - reflexivity.
  - reflexivity.
  - reflexivity.
  - cbn. lia.
Defined.

(** ** One error message at most, and last *)

Lemma calls_not_errors (calls : list model) :
  Forall (fun e => is_error e = false) (map Call calls).
Proof. rewrite Forall_map. now apply Forall_forall. Qed.

(** [render] draws no error message, on any path. *)
Lemma render_log (r : loc * Dict.t spec_float * string) (w : world) :
  exists shown,
    log (snd (run (render r) w)) = log w ++ shown /\
    Forall (fun e => is_error e = false) shown.
Proof.
  destruct r as [[l d] c]. unfold render.
  rewrite !run_emit_then, run_bind. unfold run at 1, read_u8. cbn [heap].
  destruct (heap w !! l) as [[a|a]|];
    try (eexists; cbn [snd log]; rewrite <- !app_assoc;
         split; [reflexivity|]; now repeat constructor).
  rewrite !run_emit_then, run_bind, run_lift.
  destruct (mapM (Dict.getitem d) CLASS_NAMES) as [vs|e];
    try (eexists; cbn [snd log]; rewrite <- !app_assoc;
         split; [reflexivity|]; now repeat constructor).
  rewrite run_emit_then, run_bind, run_lift.
  destruct (Dict.getitem d c) as [conf|e]; [rewrite run_emit|];
    eexists; cbn [snd log heap]; rewrite <- !app_assoc;
    (split; [reflexivity|]); now repeat constructor.
Qed.

Section HandlerAlways.
Variable cv2_resize : nat * nat -> array3 u8 -> result (array3 u8).
Variable clahe_apply :
  spec_float -> nat * nat -> array2 u8 -> result (array2 u8).
Variable decode_picture : list u8 -> option picture.
Variable np_mean np_std : array3 spec_float -> spec_float.
Variable feature_extractor_predict :
  list (array3 spec_float) -> result (array2 spec_float).
Variable feature_selector_transform :
  array2 spec_float -> result (array2 spec_float).
Variable classifier_predict_proba :
  array2 spec_float -> result (array2 spec_float).

Local Abbreviation pre :=
  (preprocess_image cv2_resize clahe_apply np_mean np_std).
Local Abbreviation predict :=
  (predict_image_class cv2_resize clahe_apply np_mean np_std
     feature_extractor_predict feature_selector_transform
     classifier_predict_proba).
Local Abbreviation upload :=
  (on_upload cv2_resize clahe_apply decode_picture np_mean np_std
     feature_extractor_predict feature_selector_transform
     classifier_predict_proba).

(** X8.  Whatever the upload, the libraries and the models do, the
    handler returns normally, and what it adds to the page holds at most
    one error message, which then is the last thing drawn. *)
Theorem on_upload_error_is_last (w : world) (buf : list u8) :
  exists shown w2,
    run (upload buf) w = (Ok tt, w2) /\
    log w2 = log w ++ shown /\
    (Forall (fun e => is_error e = false) shown \/
     exists body msg,
       shown = body ++ [Show (StError msg)] /\
       Forall (fun e => is_error e = false) body).
Proof.
  destruct (decode_and_predict_run cv2_resize clahe_apply decode_picture
              np_mean np_std feature_extractor_predict
              feature_selector_transform classifier_predict_proba w buf)
    as (extra & calls & r & Hrun & _ & _).
  unfold on_upload. rewrite run_try, run_bind, Hrun.
  destruct r as [x|e].
  - set (w1 := World (heap w ++ extra) (log w ++ map Call calls)).
    destruct (render_log x w1) as (shown & Hlog & Hshown).
    destruct (run (render x) w1) as [[[]|e] w2]; cbn [snd] in Hlog.
    + exists (map Call calls ++ shown), w2. split; [reflexivity|].
      split; [rewrite Hlog; subst w1; cbn [log]; now rewrite app_assoc|].
      left. apply Forall_app. split; [apply calls_not_errors|exact Hshown].
    + rewrite run_emit. eexists _, _. split; [reflexivity|]. cbn [log].
      rewrite Hlog. subst w1. cbn [log]. rewrite <- !app_assoc.
      split; [reflexivity|]. right.
      exists (map Call calls ++ shown). eexists.
      split; [now rewrite <- app_assoc|].
      apply Forall_app. split; [apply calls_not_errors|exact Hshown].
  - rewrite run_emit. eexists _, _. split; [reflexivity|]. cbn [log].
    rewrite <- app_assoc. split; [reflexivity|]. right.
    exists (map Call calls). eexists. split; [reflexivity|].
    apply calls_not_errors.
Qed.

(** X9.  A call of [predict_image_class] that returns has invoked the
    feature extractor, the feature selector and the classifier once each,
    in this order, has drawn nothing, and has only added arrays. *)
Theorem predict_image_class_invokes_each_once
    (w w' : world) (l : loc) (d : Dict.t spec_float) :
  run (predict l) w = (Ok d, w') ->
  log w' =
    log w ++ [Call FeatureExtractor; Call FeatureSelector; Call Classifier]
  /\ exists extra, heap w' = heap w ++ extra.
Proof.
  intros Hrun.
  destruct (heap w !! l) as [[img|a]|] eqn:Hl.
  - destruct (predict_image_class_run cv2_resize clahe_apply np_mean np_std
                feature_extractor_predict feature_selector_transform
                classifier_predict_proba w l img Hl) as (extra & Hrun').
    rewrite Hrun in Hrun'. injection Hrun' as Hd ->. cbn [log heap].
    symmetry in Hd. rewrite (predict_calls_all _ _ _ _ _ _ _ _ _ Hd).
    split; [reflexivity|]. now exists extra.
  - destruct (predict_image_class_dangling cv2_resize clahe_apply np_mean
                np_std feature_extractor_predict feature_selector_transform
                classifier_predict_proba w l) as [e He];
      [intros img; congruence|]. congruence.
  - destruct (predict_image_class_dangling cv2_resize clahe_apply np_mean
                np_std feature_extractor_predict feature_selector_transform
                classifier_predict_proba w l) as [e He];
      [intros img; congruence|]. congruence.
Qed.

(** X10.  When [preprocess_image] raises, [predict_image_class] raises
    the same exception from the same state: no model is invoked and the
    page is as it was. *)
Theorem predict_image_class_preprocess_failure
    (w w1 : world) (l : loc) (e : exn) :
  run (pre l) w = (Raise e, w1) ->
  run (predict l) w = (Raise e, w1) /\ log w1 = log w.
Proof.
  intros Hfail. split.
  - unfold predict_image_class. now rewrite run_bind, Hfail.
  - destruct (heap w !! l) as [[img|a]|] eqn:Hl.
    + destruct (preprocess_image_run cv2_resize clahe_apply np_mean np_std
                  w l img Hl) as (extra & Hrun & _).
      rewrite Hfail in Hrun. now injection Hrun as _ ->.
    + destruct (preprocess_image_dangling cv2_resize clahe_apply np_mean
                  np_std w l) as [e' He]; [intros img; congruence|].
      congruence.
    + destruct (preprocess_image_dangling cv2_resize clahe_apply np_mean
                  np_std w l) as [e' He]; [intros img; congruence|].
      congruence.
Qed.
End HandlerAlways.

Lemma predict_image_class_invokes_each_once_witness :
  exists d w',
    run (predict_image_class Fixture.resize Fixture.clahe Fixture.mean
           Fixture.std Fixture.extractor Fixture.selector Fixture.classifier
           0%nat) (Fixture.start Fixture.tiny) = (Ok d, w') /\
    log w' =
      [] ++ [Call FeatureExtractor; Call FeatureSelector; Call Classifier]
    /\ exists extra, heap w' = [U8 Fixture.tiny] ++ extra.
Proof.
  destruct (preprocess_value_ok Fixture.resize Fixture.clahe Fixture.mean
              Fixture.std fixture_resize_ok fixture_clahe_ok 2 2 Fixture.tiny)
    as (x & Hx & _); [lia|lia|exact fixture_tiny_shape|].
  destruct (predict_image_class_answer Fixture.resize Fixture.clahe
              Fixture.mean Fixture.std Fixture.extractor Fixture.selector
              Fixture.classifier (Fixture.start Fixture.tiny) 0%nat
              Fixture.tiny x [[f_one]] [[f_one]]
              [Fixture.p_10; Fixture.p_20; Fixture.p_60; Fixture.p_10] []
              eq_refl Hx eq_refl eq_refl eq_refl) as (w' & Hrun).
  eexists _, w'. split; [exact Hrun|].
  exact (predict_image_class_invokes_each_once Fixture.resize Fixture.clahe
           Fixture.mean Fixture.std Fixture.extractor Fixture.selector
           Fixture.classifier (Fixture.start Fixture.tiny) w' 0%nat _ Hrun).
Defined.

Lemma predict_image_class_preprocess_failure_witness :
  run (predict_image_class Fixture.resize Fixture.clahe Fixture.mean
         Fixture.std Fixture.extractor Fixture.selector Fixture.classifier
         0%nat) (Fixture.start [])
    = (Raise (cv2_error "(-215:Assertion failed) !ssize.empty()"),
       Fixture.start []) /\
  log (Fixture.start []) = log (Fixture.start []).
Proof.
  apply (predict_image_class_preprocess_failure Fixture.resize Fixture.clahe
           Fixture.mean Fixture.std Fixture.extractor Fixture.selector
           Fixture.classifier (Fixture.start []) (Fixture.start []) 0%nat).
  reflexivity.
Defined.

(** ** Images with more than three channels *)

Lemma lookup_map {A B} (f : A -> B) (l : list A) (j : nat) :
  map f l !! j = option_map f (l !! j).
Proof.
  revert j. induction l as [|a l IH]; intros [|j]; cbn; auto.
Qed.

Lemma set_plane_forall {A} (P : list A -> Prop) (i : nat)
    (a : array3 A) (ch : array2 A) :
  (forall px v, P px -> P (<[i:=v]> px)) ->
  Forall (Forall P) a -> Forall (Forall P) (set_plane a i ch).
Proof.
  intros Hins Ha. unfold set_plane. revert ch.
  induction Ha as [|row a Hrow _ IH]; intros [|crow ch]; cbn;
    try constructor; [|apply IH].
  clear -Hins Hrow. revert crow.
  induction Hrow as [|px row Hpx _ IH]; intros [|v crow]; cbn;
    constructor; auto.
Qed.

Lemma tail_zero_insert {A} (zero : A) (i : nat) (px : list A) (v : A) :
  (i < 3)%nat -> tail_zero zero px -> tail_zero zero (<[i:=v]> px).
Proof.
  intros Hi Hpx j Hj Hlen. rewrite length_insert in Hlen.
  rewrite list_lookup_insert_ne by lia. now apply Hpx.
Qed.

Lemma tail_zero_zeros (a : array3 u8) :
  Forall (Forall (tail_zero Byte.x00)) (Np.zeros_like a).
Proof.
  unfold Np.zeros_like, map3. rewrite Forall_map. apply Forall_forall.
  intros row _. cbn beta. rewrite Forall_map. apply Forall_forall.
  intros px _ j _ Hlen. rewrite length_map in Hlen.
  rewrite lookup_map.
  destruct (lookup_lt_is_Some_2 px j Hlen) as [b ->]. reflexivity.
Qed.

Lemma tail_zero_map3 {A B} (g : A -> B) (za : A) (zb : B) (a : array3 A) :
  g za = zb ->
  Forall (Forall (tail_zero za)) a ->
  Forall (Forall (tail_zero zb)) (map3 g a).
Proof.
  intros Hg Ha. unfold map3. rewrite Forall_map.
  eapply Forall_impl; [exact Ha|]. intros row Hrow. cbn beta.
  rewrite Forall_map. eapply Forall_impl; [exact Hrow|].
  intros px Hpx j Hj Hlen. rewrite length_map in Hlen.
  rewrite lookup_map, (Hpx j Hj Hlen). cbn. now rewrite Hg.
Qed.

(** A channel read back after planes were written. *)
Lemma get_channel_row_set_same {A} (i c : nat) (row : list (list A))
    (ch : list A) :
  (i < c)%nat -> Forall (fun px => length px = c) row ->
  length ch = length row ->
  mapM (fun px : list A =>
          match px !! i with
          | Some v => Ok v
          | None => Raise (IndexError "index is out of bounds for axis 2")
          end) (zip_with (fun px v => <[i:=v]> px) row ch) = Ok ch.
Proof.
  intros Hi Hrow. revert ch.
  induction Hrow as [|px row Hpx _ IH]; intros [|v ch] Hlen;
    cbn in *; try discriminate; [reflexivity|].
  rewrite list_lookup_insert_eq by lia. cbn [rbind].
  rewrite IH by lia. reflexivity.
Qed.

Lemma get_channel_row_set_other {A} (i j : nat) (row : list (list A))
    (ch : list A) :
  i <> j -> length ch = length row ->
  mapM (fun px : list A =>
          match px !! i with
          | Some v => Ok v
          | None => Raise (IndexError "index is out of bounds for axis 2")
          end) (zip_with (fun px v => <[j:=v]> px) row ch) =
  mapM (fun px : list A =>
          match px !! i with
          | Some v => Ok v
          | None => Raise (IndexError "index is out of bounds for axis 2")
          end) row.
Proof.
  intros Hij. revert ch.
  induction row as [|px row IH]; intros [|v ch] Hlen;
    cbn in *; try discriminate; [reflexivity|].
  rewrite list_lookup_insert_ne by auto.
  rewrite IH by lia. reflexivity.
Qed.

Lemma get_channel_set_plane_same {A} (h w c i : nat) (a : array3 A)
    (ch : array2 A) :
  (i < c)%nat -> has_shape h w c a -> has_shape2 h w ch ->
  Np.get_channel (set_plane a i ch) i = Ok ch.
Proof.
  intros Hi [Hh Hrows] [Hh2 Hch]. subst h. unfold Np.get_channel, set_plane.
  revert ch Hh2 Hch.
  induction Hrows as [|row a [Hw Hpx] _ IH]; intros [|crow ch] Hlen Hch;
    cbn in *; try discriminate; [reflexivity|].
  apply Forall_cons in Hch. destruct Hch as [Hcrow Hch].
  rewrite (get_channel_row_set_same i c) by (auto; lia). cbn [rbind].
  rewrite IH by (auto; lia). reflexivity.
Qed.

Lemma get_channel_set_plane_other {A} (h w c i j : nat) (a : array3 A)
    (ch : array2 A) :
  i <> j -> has_shape h w c a -> has_shape2 h w ch ->
  Np.get_channel (set_plane a j ch) i = Np.get_channel a i.
Proof.
  intros Hij [Hh Hrows] [Hh2 Hch]. subst h. unfold Np.get_channel, set_plane.
  revert ch Hh2 Hch.
  induction Hrows as [|row a [Hw Hpx] _ IH]; intros [|crow ch] Hlen Hch;
    cbn in *; try discriminate; [reflexivity|].
  apply Forall_cons in Hch. destruct Hch as [Hcrow Hch].
  rewrite (get_channel_row_set_other i j) by (auto; lia).
  rewrite IH by (auto; lia). reflexivity.
Qed.

(** A channel of an array mapped element by element. *)
Lemma get_channel_map3 {A B} (f : A -> B) (a : array3 A) (i : nat) :
  Np.get_channel (map3 f a) i = rmap (map (map f)) (Np.get_channel a i).
Proof.
  unfold Np.get_channel, map3.
  induction a as [|row a IH]; cbn [map mapM]; [reflexivity|].
  rewrite IH. clear IH.
  assert (Hrow : mapM (fun px : list B =>
                   match px !! i with
                   | Some v => Ok v
                   | None =>
                       Raise (IndexError "index is out of bounds for axis 2")
                   end) (map (map f) row) =
                 rmap (map f)
                   (mapM (fun px : list A =>
                      match px !! i with
                      | Some v => Ok v
                      | None =>
                          Raise
                            (IndexError "index is out of bounds for axis 2")
                      end) row)).
  { induction row as [|px row IHr]; cbn [map mapM]; [reflexivity|].
    rewrite IHr, lookup_map. destruct (px !! i); cbn; [|reflexivity].
    now destruct (mapM _ row). }
  rewrite Hrow. destruct (mapM _ row); cbn; [|reflexivity].
  now destruct (mapM _ a).
Qed.

Section ExtraChannels.
Variable cv2_resize : nat * nat -> array3 u8 -> result (array3 u8).
Variable clahe_apply :
  spec_float -> nat * nat -> array2 u8 -> result (array2 u8).
Variable np_mean np_std : array3 spec_float -> spec_float.
Hypothesis resize_ok : resize_contract cv2_resize.
Hypothesis clahe_ok : clahe_contract clahe_apply.

(** What the loop leaves in each of the first three channels. *)
Lemma channel_loop_planes (h w c : nat) (q : array3 u8) :
  (3 <= c)%nat -> has_shape h w c q ->
  exists out,
    foldM (clahe_channel clahe_apply q) (seq 0 3) (Np.zeros_like q) = Ok out /\
    has_shape h w c out /\
    Forall (Forall (tail_zero Byte.x00)) out /\
    forall i, (i < 3)%nat ->
      exists plane equalized,
        Np.get_channel q i = Ok plane /\
        clahe_apply lit_0_02 (8, 8)%nat plane = Ok equalized /\
        Np.get_channel out i = Ok equalized.
Proof.
  intros Hc Hq.
  destruct (get_channel_ok h w c 0 q) as (p0 & G0 & S0); [lia|exact Hq|].
  destruct (get_channel_ok h w c 1 q) as (p1 & G1 & S1); [lia|exact Hq|].
  destruct (get_channel_ok h w c 2 q) as (p2 & G2 & S2); [lia|exact Hq|].
  destruct (clahe_ok lit_0_02 (8, 8)%nat h w p0 S0) as (c0 & E0 & T0).
  destruct (clahe_ok lit_0_02 (8, 8)%nat h w p1 S1) as (c1 & E1 & T1).
  destruct (clahe_ok lit_0_02 (8, 8)%nat h w p2 S2) as (c2 & E2 & T2).
  pose proof (zeros_like_shape h w c q Hq) as Z0.
  pose proof (set_plane_shape h w c 0 _ c0 Z0 T0) as Z1.
  pose proof (set_plane_shape h w c 1 _ c1 Z1 T1) as Z2.
  pose proof (set_plane_shape h w c 2 _ c2 Z2 T2) as Z3.
  exists (set_plane (set_plane (set_plane (Np.zeros_like q) 0 c0) 1 c1) 2 c2).
  split; [|split; [exact Z3|split]].
  - cbn [seq foldM]. unfold clahe_channel.
    rewrite G0. cbn [rbind]. rewrite E0. cbn [rbind].
    rewrite (set_channel_ok h w c 0) by (auto; lia). cbn [rbind].
    rewrite G1. cbn [rbind]. rewrite E1. cbn [rbind].
    rewrite (set_channel_ok h w c 1) by (auto; lia). cbn [rbind].
    rewrite G2. cbn [rbind]. rewrite E2. cbn [rbind].
    rewrite (set_channel_ok h w c 2) by (auto; lia). reflexivity.
  - repeat (apply set_plane_forall;
            [intros px v; apply tail_zero_insert; lia|]).
    apply tail_zero_zeros.
  - intros i Hi.
    destruct i as [|[|[|i]]]; [| | |lia].
    + exists p0, c0. split; [exact G0|]. split; [exact E0|].
      rewrite (get_channel_set_plane_other h w c 0 2) by (auto; lia).
      rewrite (get_channel_set_plane_other h w c 0 1) by (auto; lia).
      apply (get_channel_set_plane_same h w c); auto; lia.
    + exists p1, c1. split; [exact G1|]. split; [exact E1|].
      rewrite (get_channel_set_plane_other h w c 1 2) by (auto; lia).
      apply (get_channel_set_plane_same h w c); auto; lia.
    + exists p2, c2. split; [exact G2|]. split; [exact E2|].
      apply (get_channel_set_plane_same h w c); auto; lia.
Qed.

(** X11.  [preprocess_image] takes an image of more than three channels
    (an alpha channel, say) without complaint.  The result has as many
    channels.  Each of its first three channels is the plane CLAHE makes
    of that channel of the quantized array of line 54 (the fifth array
    the call creates), divided by 255; every further channel of the
    result is zero everywhere. *)
Theorem preprocess_image_extra_channels_zero
    (w : world) (l : loc) (h wd c : nat) (img : array3 u8) :
  heap w !! l = Some (U8 img) ->
  (0 < h)%nat -> (0 < wd)%nat -> (3 <= c)%nat -> has_shape h wd c img ->
  exists l' w' q out,
    run (preprocess_image cv2_resize clahe_apply np_mean np_std l) w
      = (Ok l', w') /\
    heap w' !! (length (heap w) + 4)%nat = Some (U8 q) /\
    has_shape 224 224 c q /\
    heap w' !! l' = Some (F32a out) /\
    has_shape 224 224 c out /\
    (forall i, (i < 3)%nat ->
       exists plane equalized,
         Np.get_channel q i = Ok plane /\
         clahe_apply lit_0_02 (8, 8)%nat plane = Ok equalized /\
         Np.get_channel out i =
           Ok (map (map (fun b => F32.div (Np.f32_of_u8 b)
                                          (F32.of_f64 lit_255)))
                   equalized)) /\
    forall r k row px j,
      out !! r = Some row -> row !! k = Some px ->
      (3 <= j < c)%nat -> px !! j = Some f_zero.
Proof.
  intros Hl Hh Hw Hc Himg.
  destruct (resize_ok 224 224 h wd c img Hh Hw Himg)%nat as (r & Hr & Sr).
  set (x1 := Np.astype_f32 r).
  set (x2 := Np.div_scalar (Np.sub_scalar x1 (np_mean x1))
                           (F32.add (np_std x1) eps)).
  assert (S2 : has_shape 224 224 c x2)
    by (unfold x2, x1, Np.div_scalar, Np.sub_scalar, Np.astype_f32;
        now repeat apply has_shape_map3).
  destruct (values_nonempty 224 224 c x2)%nat as (v & vs & Hv);
    [lia|lia|lia|exact S2|].
  destruct (ptp_ok x2 v vs Hv) as (lo & hi & Hlo & _ & Hptp).
  set (x3 := Np.div_scalar (Np.sub_scalar x2 lo)
               (F32.add (F32.sub hi lo) eps)).
  set (q := Np.astype_u8 (Np.mul_scalar x3 (F32.of_Z 255))).
  assert (Sq : has_shape 224 224 c q)
    by (unfold q, x3, Np.astype_u8, Np.mul_scalar, Np.div_scalar,
          Np.sub_scalar; now repeat apply has_shape_map3).
  destruct (channel_loop_planes 224 224 c q Hc Sq)
    as (z & Hloop & Sz & Hz & Hplanes).
  pose proof (preprocess_image_trace cv2_resize clahe_apply np_mean np_std
                w l img r lo (F32.sub hi lo) z Hl Hr Hlo Hptp Hloop) as Hrun.
  cbv zeta in Hrun. fold x1 x2 x3 q in Hrun.
  set (out := Np.div_scalar (Np.astype_f32 z) (F32.of_f64 lit_255)) in *.
  assert (Eout : out = map3 (fun b => F32.div (Np.f32_of_u8 b)
                                         (F32.of_f64 lit_255)) z)
    by (unfold out, Np.div_scalar, Np.astype_f32; now rewrite map3_map3).
  assert (Sout : has_shape 224 224 c out)
    by (rewrite Eout; now apply has_shape_map3).
  eexists _, _, q, out. split; [exact Hrun|]. cbn [heap].
  rewrite !lookup_app_plus. cbn [lookup list_lookup].
  split; [reflexivity|]. split; [exact Sq|]. split; [reflexivity|].
  split; [exact Sout|]. split.
  - intros i Hi. destruct (Hplanes i Hi) as (plane & eq & G & E & Gz).
    exists plane, eq. split; [exact G|]. split; [exact E|].
    rewrite Eout, get_channel_map3, Gz. reflexivity.
  - intros rr k row px j Hrow Hpx Hj.
    assert (Hall : Forall (Forall (tail_zero f_zero)) out).
    { rewrite Eout. eapply tail_zero_map3; [|exact Hz]. reflexivity. }
    rewrite Forall_forall in Hall.
    pose proof (Hall row (list_elem_of_lookup_2 _ _ _ Hrow)) as Hr'.
    rewrite Forall_forall in Hr'.
    pose proof (Hr' px (list_elem_of_lookup_2 _ _ _ Hpx)) as Hpx'.
    apply Hpx'; [lia|].
    destruct Sout as [_ Srows]. rewrite Forall_forall in Srows.
    destruct (Srows row (list_elem_of_lookup_2 _ _ _ Hrow)) as [_ Spx].
    rewrite Forall_forall in Spx.
    rewrite (Spx px (list_elem_of_lookup_2 _ _ _ Hpx)). lia.
Qed.
End ExtraChannels.

Lemma preprocess_image_extra_channels_zero_witness :
  let rgba := [[[Byte.x0a; Byte.x14; Byte.x1e; Byte.xff]]] in
  let w := Fixture.start rgba in
  exists l' w' q out,
    run (preprocess_image Fixture.resize Fixture.clahe Fixture.mean
           Fixture.std 0%nat) w = (Ok l', w') /\
    heap w' !! (length (heap w) + 4)%nat = Some (U8 q) /\
    has_shape 224 224 4 q /\
    heap w' !! l' = Some (F32a out) /\
    has_shape 224 224 4 out /\
    (forall i, (i < 3)%nat ->
       exists plane equalized,
         Np.get_channel q i = Ok plane /\
         Fixture.clahe lit_0_02 (8, 8)%nat plane = Ok equalized /\
         Np.get_channel out i =
           Ok (map (map (fun b => F32.div (Np.f32_of_u8 b)
                                          (F32.of_f64 lit_255)))
                   equalized)) /\
    forall r k row px j,
      out !! r = Some row -> row !! k = Some px ->
      (3 <= j < 4)%nat -> px !! j = Some f_zero.
Proof.
  apply (preprocess_image_extra_channels_zero Fixture.resize Fixture.clahe
           Fixture.mean Fixture.std fixture_resize_ok fixture_clahe_ok
           (Fixture.start [[[Byte.x0a; Byte.x14; Byte.x1e; Byte.xff]]])
           0%nat 1%nat 1%nat 4%nat
           [[[Byte.x0a; Byte.x14; Byte.x1e; Byte.xff]]]).
  - reflexivity.
  - lia.
  - lia.
  - lia.
  - now apply has_shapeb_spec.
Defined.

(** ** Whole runs of the script *)

Section ScriptProperties.
Variable cv2_resize : nat * nat -> array3 u8 -> result (array3 u8).
Variable clahe_apply :
  spec_float -> nat * nat -> array2 u8 -> result (array2 u8).
Variable decode_picture : list u8 -> option picture.
Variable np_mean np_std : array3 spec_float -> spec_float.
Variable feature_extractor_predict :
  list (array3 spec_float) -> result (array2 spec_float).
Variable feature_selector_transform :
  array2 spec_float -> result (array2 spec_float).
Variable classifier_predict_proba :
  array2 spec_float -> result (array2 spec_float).

Local Abbreviation upload :=
  (on_upload cv2_resize clahe_apply decode_picture np_mean np_std
     feature_extractor_predict feature_selector_transform
     classifier_predict_proba).
Local Abbreviation page :=
  (script cv2_resize clahe_apply decode_picture np_mean np_std
     feature_extractor_predict feature_selector_transform
     classifier_predict_proba).

(** The handler returns, and only adds to the page and to the arrays. *)
Lemma on_upload_log (w : world) (buf : list u8) :
  exists shown extra w2,
    run (upload buf) w = (Ok tt, w2) /\
    log w2 = log w ++ shown /\
    heap w2 = heap w ++ extra.
Proof.
  destruct (decode_and_predict_run cv2_resize clahe_apply decode_picture
              np_mean np_std feature_extractor_predict
              feature_selector_transform classifier_predict_proba w buf)
    as (extra & calls & r & Hrun & _ & _).
  unfold on_upload. rewrite run_try, run_bind, Hrun.
  destruct r as [x|e].
  - set (w1 := World (heap w ++ extra) (log w ++ map Call calls)).
    destruct (render_log x w1) as (shown & Hlog & _).
    pose proof (render_heap x w1) as Hh.
    destruct (run (render x) w1) as [[[]|e] w2];
      cbn [snd] in Hlog, Hh.
    + exists (map Call calls ++ shown), extra, w2.
      split; [reflexivity|].
      split; [rewrite Hlog; subst w1; cbn [log]; now rewrite app_assoc|].
      exact Hh.
    + rewrite run_emit. eexists _, extra, _. split; [reflexivity|].
      cbn [log heap]. rewrite Hlog. subst w1. cbn [log].
      rewrite <- !app_assoc. split; [reflexivity|]. exact Hh.
  - rewrite run_emit. eexists _, extra, _. split; [reflexivity|].
    cbn [log heap]. rewrite <- app_assoc. split; reflexivity.
Qed.

(** The page never raises. *)
Lemma script_returns (w : world) (uploaded_file : option (list u8)) :
  fst (run (page uploaded_file) w) = Ok tt.
Proof.
  unfold script. rewrite !run_emit_then.
  destruct uploaded_file as [buf|]; [|reflexivity].
  destruct (on_upload_log
              (World (heap w)
                 (((log w ++ [Show (Title "Brain Tumor Detection from MRI Scans")])
                   ++ [Show (Markdown "
**Upload an MRI scan for automated tumor classification**  
Supported formats: JPEG, PNG
")]) ++ [Show (FileUploader "Choose an MRI image...")])) buf)
    as (shown & extra & w2 & Hrun & _).
  cbn [heap log]. now rewrite Hrun.
Qed.

(** X13.  Once the models are loaded, a run of the page (lines 71-139)
    never raises.  It first draws the title, the introduction and the
    file uploader, in this order; every array that existed stays and
    arrays are only added.  Without an upload nothing more is drawn, no
    model is invoked and no array is created; with an upload the rest of
    the page is exactly what the handler does after these three
    widgets. *)
Theorem script_page (w : world) (uploaded_file : option (list u8)) :
  let top :=
    [Show (Title "Brain Tumor Detection from MRI Scans");
     Show (Markdown "
**Upload an MRI scan for automated tumor classification**  
Supported formats: JPEG, PNG
");
     Show (FileUploader "Choose an MRI image...")] in
  exists shown extra w2,
    run (page uploaded_file) w = (Ok tt, w2) /\
    log w2 = log w ++ top ++ shown /\
    heap w2 = heap w ++ extra /\
    match uploaded_file with
    | None => shown = [] /\ extra = []
    | Some buf =>
        run (upload buf) (World (heap w) (log w ++ top)) = (Ok tt, w2)
    end.
Proof.
  intros top. unfold script. rewrite !run_emit_then. cbn [heap log].
  rewrite <- !app_assoc. cbn [app]. fold top.
  destruct uploaded_file as [buf|].
  - destruct (on_upload_log (World (heap w) (log w ++ top)) buf)
      as (shown & extra & w2 & Hrun & Hlog & Hheap).
    exists shown, extra, w2. rewrite Hrun. cbn [log heap] in Hlog, Hheap.
    rewrite Hlog, <- app_assoc. now repeat split.
  - exists [], [], (World (heap w) (log w ++ top)).
    rewrite run_ret. cbn [log heap]. rewrite !app_nil_r. now repeat split.
Qed.
End ScriptProperties.

Section SessionProperties.
Variable cv2_resize : nat * nat -> array3 u8 -> result (array3 u8).
Variable clahe_apply :
  spec_float -> nat * nat -> array2 u8 -> result (array2 u8).
Variable decode_picture : list u8 -> option picture.
Variable np_mean np_std : array3 spec_float -> spec_float.

Local Abbreviation session' :=
  (session cv2_resize clahe_apply decode_picture np_mean np_std).

(** The page a run draws with the models [ms]. *)
Local Abbreviation page_with ms up :=
  (run (script cv2_resize clahe_apply decode_picture np_mean np_std
          (feature_extractor ms) (feature_selector ms) (mlp_loaded ms) up)
       (World [] [])).

(** With a filled cache the loaders are not consulted. *)
Lemma session_cached (ms : models) (runs : list interaction) :
  session' (Some ms) runs =
  (map (fun j => page_with ms (uploaded j)) runs, Some ms).
Proof.
  induction runs as [|i rest IH]; [reflexivity|].
  cbn [session map]. unfold rerun, load_models_cached. now rewrite IH.
Qed.

(** X14.  The models are loaded once per process ([@st.cache_resource],
    line 46).  In a session that starts with an empty cache: if the first
    run's [load_models] raises, that run stops with the exception on an
    empty page, nothing is cached, and the session goes on as from an
    empty cache (the next run loads again); if it returns, every run of
    the session, the first included, draws its page with these very
    three objects, whatever the files have become in between, none of
    the runs raises, and the cache holds the triple at the end. *)
Theorem session_loads_once (i : interaction) (rest : list interaction) :
  match load_models (at_keras i) (at_open i) (at_pickle i) with
  | Raise e =>
      session' None (i :: rest) =
      ((Raise e, World [] []) :: fst (session' None rest),
       snd (session' None rest))
  | Ok ms =>
      session' None (i :: rest) =
        (map (fun j => page_with ms (uploaded j)) (i :: rest), Some ms) /\
      Forall (fun j => fst (page_with ms (uploaded j)) = Ok tt) (i :: rest)
  end.
Proof.
  destruct (load_models _ _ _) as [ms|e] eqn:E;
    cbn [session]; unfold rerun, load_models_cached; rewrite E.
  - rewrite session_cached. split; [reflexivity|].
    apply Forall_forall. intros j _. apply script_returns.
  - now destruct (session' None rest).
Qed.
End SessionProperties.

(** ** Rounding and the sign of a result *)

Lemma succ_digits (p : positive) :
  (digits2_pos p <= digits2_pos (Pos.succ p) <= digits2_pos p + 1)%positive.
Proof.
  induction p as [p IH|p IH|];
    [change (Pos.succ p~1) with (Pos.succ p)~0%positive
    |change (Pos.succ p~0) with p~1%positive
    |change (Pos.succ 1) with 2%positive];
    cbn [digits2_pos]; lia.
Qed.

Lemma iter_xO_digits (p d : positive) :
  digits2_pos (Pos.iter xO p d) = (digits2_pos p + d)%positive.
Proof.
  induction d as [|d IH] using Pos.peano_ind.
  - cbn. lia.
  - rewrite Pos.iter_succ. cbn. rewrite IH. lia.
Qed.

Lemma shr_1_digits (mrs : shr_record) :
  0 <= shr_m mrs ->
  0 <= shr_m (shr_1 mrs) /\
  Zdigits2 (shr_m (shr_1 mrs)) = Z.max 0 (Zdigits2 (shr_m mrs) - 1).
Proof.
  destruct mrs as [m r s]. cbn [shr_m]. intros Hm.
  destruct m as [|p|p]; [cbn; lia| |lia].
  destruct p; cbn; lia.
Qed.

Lemma iter_shr_1_digits (n : positive) : forall mrs : shr_record,
  0 <= shr_m mrs ->
  0 <= shr_m (SpecFloat.iter_pos shr_1 n mrs) /\
  Zdigits2 (shr_m (SpecFloat.iter_pos shr_1 n mrs)) =
    Z.max 0 (Zdigits2 (shr_m mrs) - Zpos n).
Proof.
  induction n as [n IH|n IH|]; intros mrs Hm; cbn [SpecFloat.iter_pos].
  - destruct (shr_1_digits mrs Hm) as [H1 D1].
    destruct (IH _ H1) as [H2 D2]. destruct (IH _ H2) as [H3 D3].
    split; [exact H3|]. rewrite D3, D2, D1. lia.
  - destruct (IH _ Hm) as [H2 D2]. destruct (IH _ H2) as [H3 D3].
    split; [exact H3|]. rewrite D3, D2. lia.
  - now apply shr_1_digits.
Qed.

Lemma shr_record_of_loc_m (m : Z) (l : location) :
  shr_m (shr_record_of_loc m l) = m.
Proof. now destruct l as [|[]]. Qed.


Lemma digits2_pos_log2 (p : positive) :
  Zpos (digits2_pos p) = Z.log2 (Zpos p) + 1.
Proof.
  assert (H : digits2_pos p = Pos.size p) by (induction p; cbn; congruence).
  rewrite H. destruct p; cbn [Z.log2 Pos.size]; lia.
Qed.

Lemma digits_add (a b : positive) :
  Zpos (digits2_pos (a + b)) <=
  Z.max (Zpos (digits2_pos a)) (Zpos (digits2_pos b)) + 1.
Proof.
  rewrite !digits2_pos_log2.
  assert (H : Z.log2 (Zpos (a + b)) <= Z.log2 (2 * Z.max (Zpos a) (Zpos b)))
    by (apply Z.log2_le_mono; lia).
  rewrite Z.log2_double in H by lia.
  destruct (Z.max_spec (Zpos a) (Zpos b)) as [[_ E]|[_ E]]; rewrite E in H;
    lia.
Qed.

Section Rounding.
Variables prec emax : Z.
Hypothesis prec_pos : 0 < prec.

Local Abbreviation emin := (SpecFloat.emin prec emax).
Local Abbreviation fexp := (SpecFloat.fexp prec emax).

Lemma shr_fexp_nonneg (m e : Z) (l : location) :
  0 <= m ->
  0 <= shr_m (fst (shr_fexp prec emax m e l)) /\
  emin <= snd (shr_fexp prec emax m e l).
Proof.
  intros Hm. unfold shr_fexp, shr, SpecFloat.fexp.
  pose proof (shr_record_of_loc_m m l) as Hr.
  destruct (Z.max (Zdigits2 m + e - prec) emin - e) as [|n|n] eqn:En;
    cbn [fst snd]; rewrite ?Hr; try lia.
  split; [|lia].
  apply (iter_shr_1_digits n (shr_record_of_loc m l)). now rewrite Hr.
Qed.

(** Shifting a positive mantissa to its format exponent leaves it
    positive as long as the number is not below the smallest subnormal. *)
Lemma shr_fexp_positive (p : positive) (e : Z) (l : location) :
  emin < Zpos (digits2_pos p) + e ->
  exists p' r s e',
    shr_fexp prec emax (Zpos p) e l = (Build_shr_record (Zpos p') r s, e') /\
    Zpos (digits2_pos p') + e' = Zpos (digits2_pos p) + e /\
    e' = Z.max e (fexp (Zpos (digits2_pos p) + e)).
Proof.
  intros HE. unfold shr_fexp, shr. cbn [Zdigits2].
  pose proof (shr_record_of_loc_m (Zpos p) l) as Hm.
  unfold SpecFloat.fexp in *.
  destruct (Z.max (Zpos (digits2_pos p) + e - prec) emin - e)
    as [|n|n] eqn:En.
  - destruct (shr_record_of_loc (Zpos p) l) as [m r s]. cbn in Hm. subst m.
    exists p, r, s, e. split; [reflexivity|]. lia.
  - destruct (iter_shr_1_digits n (shr_record_of_loc (Zpos p) l))
      as [H0 D]; [rewrite Hm; lia|].
    rewrite Hm in D. cbn [Zdigits2] in D.
    destruct (SpecFloat.iter_pos shr_1 n _) as [m r s]. cbn [shr_m] in H0, D.
    destruct m as [|p'|p']; cbn [Zdigits2] in D; [lia| |lia].
    exists p', r, s, (e + Zpos n). split; [reflexivity|]. lia.
  - destruct (shr_record_of_loc (Zpos p) l) as [m r s]. cbn in Hm. subst m.
    exists p, r, s, e. split; [reflexivity|]. lia.
Qed.

Lemma round_nearest_even_nonneg (m : Z) (l : location) :
  0 <= m -> 0 <= round_nearest_even m l.
Proof.
  intros Hm. destruct l as [|[]]; cbn [round_nearest_even]; try lia.
  destruct (Z.even m); lia.
Qed.

Lemma round_nearest_even_positive (p : positive) (l : location) :
  exists p',
    round_nearest_even (Zpos p) l = Zpos p' /\
    (digits2_pos p <= digits2_pos p' <= digits2_pos p + 1)%positive.
Proof.
  pose proof (succ_digits p) as Hs.
  assert (Hadd : Zpos p + 1 = Zpos (Pos.succ p)) by lia.
  destruct l as [|[]]; cbn [round_nearest_even].
  - exists p. split; [reflexivity|lia].
  - destruct (Z.even (Zpos p)).
    + exists p. split; [reflexivity|lia].
    + exists (Pos.succ p). split; [exact Hadd|lia].
  - exists p. split; [reflexivity|lia].
  - exists (Pos.succ p). split; [exact Hadd|lia].
Qed.

(** Rounding a non-negative mantissa never gives NaN or a negative
    number. *)
Lemma binary_round_aux_nonneg (m e : Z) (l : location) :
  0 <= m -> nonneg_float emin (binary_round_aux prec emax false m e l) = true.
Proof.
  intros Hm. unfold binary_round_aux.
  destruct (shr_fexp_nonneg m e l Hm) as [H1 _].
  destruct (shr_fexp prec emax m e l) as [mrs1 e1]. cbn [fst] in H1.
  destruct (shr_fexp_nonneg
              (round_nearest_even (shr_m mrs1) (loc_of_shr_record mrs1))
              e1 loc_Exact) as [H2 E2];
    [now apply round_nearest_even_nonneg|].
  destruct (shr_fexp prec emax _ e1 loc_Exact) as [mrs2 e2].
  cbn [fst snd] in H2, E2.
  destruct (shr_m mrs2) as [|q|q]; [reflexivity| |lia].
  destruct (e2 <=? emax - prec); [|reflexivity].
  cbn. now apply Z.leb_le.
Qed.

Lemma binary_round_aux_not_nan (s : bool) (m e : Z) (l : location) :
  0 <= m -> is_nan (binary_round_aux prec emax s m e l) = false.
Proof.
  intros Hm. pose proof (binary_round_aux_nonneg m e l Hm) as H.
  unfold binary_round_aux in *.
  destruct (shr_fexp prec emax m e l) as [mrs1 e1].
  destruct (shr_fexp prec emax _ e1 loc_Exact) as [mrs2 e2].
  destruct (shr_m mrs2); [reflexivity| |discriminate].
  now destruct (e2 <=? emax - prec).
Qed.

(** Rounding a positive number that is not below the smallest subnormal
    gives a non-zero number of the same sign: finite when its exponent
    fits, the infinity otherwise. *)
Lemma binary_round_aux_positive (s : bool) (p : positive) (e : Z)
    (l : location) :
  emin < Zpos (digits2_pos p) + e ->
  exists m' e',
    binary_round_aux prec emax s (Zpos p) e l =
      (if e' <=? emax - prec then S754_finite s m' e' else S754_infinity s) /\
    emin <= e' <= Z.max e (fexp (Zpos (digits2_pos p) + e + 1)) /\
    Zpos (digits2_pos m') + e' <= Zpos (digits2_pos p) + e + 1.
Proof.
  intros HE. unfold binary_round_aux.
  destruct (shr_fexp_positive p e l HE) as (p1 & r1 & s1 & e1 & -> & D1 & E1).
  cbn [shr_m].
  destruct (round_nearest_even_positive p1
              (loc_of_shr_record (Build_shr_record (Zpos p1) r1 s1)))
    as (p2 & -> & D2).
  destruct (shr_fexp_positive p2 e1 loc_Exact)
    as (p3 & r3 & s3 & e3 & -> & D3 & E3); [lia|].
  cbn [shr_m]. exists p3, e3. split; [reflexivity|].
  unfold SpecFloat.fexp in *. lia.
Qed.

Lemma shl_align_digits (p : positive) (e e' : Z) :
  Zpos (digits2_pos (fst (shl_align p e e'))) + snd (shl_align p e e') =
  Zpos (digits2_pos p) + e /\
  snd (shl_align p e e') = Z.min e e'.
Proof.
  unfold shl_align. destruct (e' - e) as [|d|d] eqn:Ed; cbn [fst snd];
    [lia..|].
  rewrite iter_xO_digits. lia.
Qed.

Lemma binary_round_positive (s : bool) (p : positive) (e : Z) :
  emin < Zpos (digits2_pos p) + e ->
  exists m' e',
    binary_round prec emax s p e =
      (if e' <=? emax - prec then S754_finite s m' e' else S754_infinity s) /\
    emin <= e' <= fexp (Zpos (digits2_pos p) + e + 1) /\
    Zpos (digits2_pos m') + e' <= Zpos (digits2_pos p) + e + 1.
Proof.
  intros HE. unfold binary_round.
  destruct (shl_align_digits p e
              (SpecFloat.fexp prec emax (Zpos (digits2_pos p) + e)))
    as [Hd Hs].
  destruct (shl_align _ _ _) as [mz ez]. cbn [fst snd] in Hd, Hs.
  destruct (binary_round_aux_positive s mz ez loc_Exact)
    as (m' & e' & -> & He & Hm); [lia|].
  exists m', e'. split; [reflexivity|].
  rewrite Hd in He, Hm. unfold SpecFloat.fexp in *. lia.
Qed.

(** The sum of two non-negative numbers is non-negative, and zero only
    when both are. *)
Lemma SFadd_nonneg (x y : spec_float) :
  nonneg_float emin x = true -> nonneg_float emin y = true ->
  nonneg_float emin (SFadd prec emax x y) = true /\
  (is_zero (SFadd prec emax x y) = true ->
   is_zero x = true /\ is_zero y = true).
Proof.
  destruct x as [sx|sx| |sx mx ex], y as [sy|sy| |sy my ey];
    cbn [nonneg_float SFadd is_zero]; try discriminate;
    try (destruct sx; try discriminate); try (destruct sy; try discriminate);
    cbn; try auto; try (intros; split; [assumption|discriminate]).
  intros Hx Hy. apply Z.leb_le in Hx, Hy.
  set (a := fst (shl_align mx ex (Z.min ex ey))).
  set (b := fst (shl_align my ey (Z.min ex ey))).
  change (Z.pos a + Z.pos b) with (Z.pos (a + b)).
  cbn [binary_normalize].
  destruct (binary_round_positive false (a + b) (Z.min ex ey))
    as (m' & e' & -> & He & _).
  - pose proof (Pos2Z.is_pos (digits2_pos (a + b))). lia.
  - destruct (e' <=? emax - prec); cbn; (split; [|discriminate]);
      [now apply Z.leb_le|reflexivity].
Qed.

(** The sum of two numbers of [[0, 2^b)] is finite and below [2^(b+2)],
    if that is in range. *)
Lemma SFadd_below (b : Z) (x y : spec_float) :
  b + 2 <= emax -> emin <= emax - prec ->
  below emin b x = true -> below emin b y = true ->
  below emin (b + 2) (SFadd prec emax x y) = true.
Proof.
  intros Hb Hrange.
  destruct x as [sx|sx| |sx mx ex], y as [sy|sy| |sy my ey];
    cbn [below SFadd]; try discriminate.
  - intros _ _. now destruct sx, sy.
  - intros _ H. apply andb_true_iff in H as [H1 H2]. rewrite H1. cbn.
    apply Z.leb_le in H2. apply Z.leb_le. lia.
  - intros H _. apply andb_true_iff in H as [H1 H2]. rewrite H1. cbn.
    apply Z.leb_le in H2. apply Z.leb_le. lia.
  - intros Hx Hy.
    apply andb_true_iff in Hx as [Hx Bx]. apply andb_true_iff in Hx as [Sx Ex].
    apply andb_true_iff in Hy as [Hy By]. apply andb_true_iff in Hy as [Sy Ey].
    destruct sx; [discriminate|]. destruct sy; [discriminate|].
    apply Z.leb_le in Ex, Ey, Bx, By. cbn [cond_Zopp].
    destruct (shl_align_digits mx ex (Z.min ex ey)) as [Da Sa].
    destruct (shl_align_digits my ey (Z.min ex ey)) as [Db Sb].
    set (a := fst (shl_align mx ex (Z.min ex ey))) in *.
    set (c := fst (shl_align my ey (Z.min ex ey))) in *.
    change (Z.pos a + Z.pos c) with (Z.pos (a + c)).
    cbn [binary_normalize].
    pose proof (digits_add a c) as Hadd.
    destruct (binary_round_positive false (a + c) (Z.min ex ey))
      as (m' & e' & -> & He & Hm).
    + pose proof (Pos2Z.is_pos (digits2_pos (a + c))). lia.
    + unfold SpecFloat.fexp in He.
      assert (Hfin : e' <= emax - prec) by lia.
      apply Z.leb_le in Hfin. rewrite Hfin. cbn.
      apply andb_true_iff. split; apply Z.leb_le; lia.
Qed.

Lemma below_nonneg (b : Z) (x : spec_float) :
  below emin b x = true ->
  nonneg_float emin x = true /\ is_finite x = true.
Proof.
  destruct x as [s|s| |s m e]; cbn; try discriminate; [easy|].
  intros H. apply andb_true_iff in H as [H _]. easy.
Qed.

(** A quotient of a number that is not NaN and not negative by a positive
    finite number is not NaN and not negative. *)
Lemma SFdiv_nonneg (x y : spec_float) :
  nonneg_float emin x = true ->
  positive_float emin y = true -> is_finite y = true ->
  nonneg_float emin (SFdiv prec emax x y) = true /\
  (is_zero x = true -> is_zero (SFdiv prec emax x y) = true).
Proof.
  unfold positive_float.
  destruct x as [sx|sx| |sx mx ex], y as [sy|sy| |sy my ey];
    cbn [nonneg_float SFdiv is_zero is_finite negb andb]; try discriminate;
    try (destruct sx; try discriminate); try (destruct sy; try discriminate);
    cbn [negb andb xorb nonneg_float is_zero]; try easy.
  intros _ _ _. split; [|discriminate].
  unfold SFdiv_core_binary.
  set (m' := match _ - _ - _ with Z0 => _ | Zpos _ => _ | Zneg _ => _ end).
  assert (Hm' : 0 <= m').
  { subst m'. destruct (_ - _ - _) as [|s|s]; [lia| |lia].
    apply Z.shiftl_nonneg. lia. }
  pose proof (Z.div_pos m' (Zpos my) Hm' (Pos2Z.is_pos my)) as Hq.
  unfold Z.div in Hq. destruct (Z.div_eucl m' (Z.pos my)) as [q r].
  now apply binary_round_aux_nonneg.
Qed.

Lemma SFmul_nonneg (x y : spec_float) :
  nonneg_float emin x = true -> nonneg_float emin y = true ->
  (is_zero x = true -> is_finite y = true) ->
  (is_zero y = true -> is_finite x = true) ->
  nonneg_float emin (SFmul prec emax x y) = true /\
  (is_zero x || is_zero y = true -> is_zero (SFmul prec emax x y) = true).
Proof.
  destruct x as [sx|sx| |sx mx ex], y as [sy|sy| |sy my ey];
    cbn [nonneg_float SFmul is_zero is_finite negb andb orb];
    try discriminate; try easy.
  - intros _ _ H _. now specialize (H eq_refl).
  - intros _ _ _ H. now specialize (H eq_refl).
  - intros Hx Hy. now destruct sx, sy.
  - intros Hx Hy _ _. destruct sx; [discriminate|]. now destruct sy.
  - intros Hx Hy _ _. destruct sy; [discriminate|]. now destruct sx.
  - intros Hx Hy _ _. destruct sx; [discriminate|].
    destruct sy; [discriminate|].
    cbn [xorb]. split; [|discriminate].
    apply binary_round_aux_nonneg. lia.
Qed.

Lemma SFmul_comm (x y : spec_float) :
  SFmul prec emax x y = SFmul prec emax y x.
Proof.
  destruct x as [sx|sx| |sx mx ex], y as [sy|sy| |sy my ey];
    cbn [SFmul]; rewrite ?(xorb_comm sx sy); try reflexivity.
  now rewrite Pos.mul_comm, Z.add_comm.
Qed.

Lemma SFadd_comm (x y : spec_float) :
  SFadd prec emax x y = SFadd prec emax y x.
Proof.
  destruct x as [sx|sx| |sx mx ex], y as [sy|sy| |sy my ey];
    cbn [SFadd]; try reflexivity; try (now destruct sx, sy).
  now rewrite Z.add_comm, (Z.min_comm ex ey).
Qed.
End Rounding.

Lemma unit_interval_below (x : spec_float) :
  valid_binary F32.prec F32.emax x = true ->
  in_unit_interval x = true ->
  below f32_emin 1 x = true.
Proof.
  unfold in_unit_interval, SFleb.
  destruct x as [s|s| |s m e]; cbn [valid_binary below].
  - reflexivity.
  - intros _. destruct s; cbn; discriminate.
  - intros _. cbn. discriminate.
  - unfold bounded, canonical_mantissa, SpecFloat.fexp.
    intros Hv Hu. apply andb_true_iff in Hv as [Hc _].
    apply Z.eqb_eq in Hc. apply andb_true_iff in Hu as [H0 H1].
    destruct s; [discriminate|]. cbn [negb andb]. clear H0.
    cbn [SFcompare f_one] in H1.
    assert (He : e <= -23).
    { destruct (Z.compare_spec e (-23)); [lia..|discriminate]. }
    clear H1.
    unfold f32_emin, SpecFloat.emin, F32.prec, F32.emax in *.
    apply andb_true_iff. split; apply Z.leb_le; lia.
Qed.

Lemma binary_round_not_nan (s : bool) (p : positive) (e : Z) :
  is_nan (binary_round F32.prec F32.emax s p e) = false.
Proof.
  unfold binary_round. destruct (shl_align _ _ _) as [mz ez].
  apply binary_round_aux_not_nan. lia.
Qed.

Lemma sub_not_nan (x y : spec_float) :
  is_finite x = true -> is_nan y = false -> is_nan (F32.sub x y) = false.
Proof.
  unfold F32.sub.
  destruct x as [sx|sx| |sx mx ex], y as [sy|sy| |sy my ey];
    cbn [is_finite is_nan SFsub]; try discriminate; try reflexivity.
  - intros _ _. now destruct sx, sy.
  - intros _ _.
    destruct (Z.sub _ _) as [|p|p]; cbn [binary_normalize];
      [reflexivity|apply binary_round_not_nan..].
Qed.

(** A quotient by a positive finite number is NaN only if the dividend
    is. *)
Lemma div_not_nan (x y : spec_float) :
  is_nan x = false ->
  positive_float f32_emin y = true -> is_finite y = true ->
  is_nan (F32.div x y) = false.
Proof.
  unfold F32.div, positive_float.
  destruct x as [sx|sx| |sx mx ex], y as [sy|sy| |sy my ey];
    cbn [nonneg_float SFdiv is_zero is_finite is_nan negb andb];
    try discriminate; try reflexivity.
  intros _ _ _. unfold SFdiv_core_binary.
  set (m' := match _ - _ - _ with Z0 => _ | Zpos _ => _ | Zneg _ => _ end).
  assert (Hm' : 0 <= m').
  { subst m'. destruct (_ - _ - _) as [|s|s]; [lia| |lia].
    apply Z.shiftl_nonneg. lia. }
  pose proof (Z.div_pos m' (Zpos my) Hm' (Pos2Z.is_pos my)) as Hq.
  unfold Z.div in Hq. destruct (Z.div_eucl m' (Z.pos my)) as [q r].
  now apply binary_round_aux_not_nan.
Qed.

Lemma f32_of_u8_finite (b : u8) : is_finite (Np.f32_of_u8 b) = true.
Proof. destruct b; vm_compute; reflexivity. Qed.

Lemma eps_below : below f32_emin 126 eps = true /\ is_zero eps = false.
Proof. now vm_compute. Qed.

(** The guarded divisor: finite and strictly positive. *)
Lemma guarded_divisor (s : spec_float) :
  below f32_emin 126 s = true ->
  is_finite (F32.add s eps) = true /\
  positive_float f32_emin (F32.add s eps) = true.
Proof.
  intros Hs. destruct eps_below as [He Hz].
  assert (B : below f32_emin 128 (F32.add s eps) = true)
    by (apply (SFadd_below F32.prec F32.emax eq_refl 126); easy).
  destruct (below_nonneg F32.prec F32.emax 128 _ B) as [N F].
  split; [exact F|]. unfold positive_float, f32_emin. rewrite N. cbn [andb].
  destruct (is_zero (F32.add s eps)) eqn:Z; [|reflexivity].
  destruct (below_nonneg F32.prec F32.emax 126 _ Hs) as [Ns _].
  destruct (below_nonneg F32.prec F32.emax 126 _ He) as [Ne _].
  destruct (SFadd_nonneg F32.prec F32.emax eq_refl _ _ Ns Ne) as [_ H].
  destruct (H Z) as [_ H']. congruence.
Qed.

(** ** The epsilon guards of [preprocess_image] *)

(** X15.  The epsilon of lines 52 and 53 does what it is there for, on
    every image: for a statistic [s] (the standard deviation, the
    peak-to-peak range) that is a [float32] with [0 <= s < 2^126], the
    divisor [s + 1e-8] is finite and strictly positive, and dividing an
    array by it creates no NaN: a quotient is NaN only where the dividend
    already was. *)
Theorem epsilon_guard (s : spec_float) (x : array3 spec_float) :
  below f32_emin 126 s = true ->
  let d := F32.add s eps in
  is_finite d = true /\ positive_float f32_emin d = true /\
  (Forall (fun v => is_nan v = false) (values x) ->
   Forall (fun v => is_nan v = false) (values (Np.div_scalar x d))).
Proof.
  intros Hs d. destruct (guarded_divisor s Hs) as [F P].
  split; [exact F|]. split; [exact P|].
  intros Hx. unfold Np.div_scalar. rewrite values_map3, Forall_map.
  eapply Forall_impl; [exact Hx|]. intros v Hv. cbn.
  now apply div_not_nan.
Qed.

Section Standardize.
Variable np_mean np_std : array3 spec_float -> spec_float.

(** X16.  Line 52 on any [uint8] image: when NumPy's mean of the pixels
    is not NaN and its standard deviation is a [float32] with
    [0 <= std < 2^126], the standardized array holds no NaN, whatever the
    image. *)
Theorem standardize_no_nan (a : array3 u8) :
  let x := Np.astype_f32 a in
  is_nan (np_mean x) = false ->
  below f32_emin 126 (np_std x) = true ->
  Forall (fun v => is_nan v = false)
    (values (Np.div_scalar (Np.sub_scalar x (np_mean x))
                           (F32.add (np_std x) eps))).
Proof.
  intros x Hmean Hstd. destruct (guarded_divisor _ Hstd) as [F P].
  unfold Np.div_scalar, Np.sub_scalar, x, Np.astype_f32.
  rewrite !map3_map3. apply Forall_values_map3. intros b.
  apply div_not_nan; [|exact P|exact F].
  apply sub_not_nan; [apply f32_of_u8_finite|exact Hmean].
Qed.
End Standardize.

Lemma epsilon_guard_witness :
  let d := F32.add f_one eps in
  is_finite d = true /\ positive_float f32_emin d = true /\
  (Forall (fun v => is_nan v = false) (values [[[f_zero; f_one]]]) ->
   Forall (fun v => is_nan v = false)
     (values (Np.div_scalar [[[f_zero; f_one]]] d))).
Proof.
  apply (epsilon_guard f_one [[[f_zero; f_one]]]). reflexivity.
Defined.

Lemma standardize_no_nan_witness :
  Forall (fun v => is_nan v = false)
    (values (Np.div_scalar
               (Np.sub_scalar (Np.astype_f32 Fixture.tiny)
                  (Fixture.mean (Np.astype_f32 Fixture.tiny)))
               (F32.add (Fixture.std (Np.astype_f32 Fixture.tiny)) eps))).
Proof.
  apply (standardize_no_nan Fixture.mean Fixture.std Fixture.tiny).
  - vm_compute. reflexivity.
  - vm_compute. reflexivity.
Defined.

(** ** The F1 score *)

Lemma epsilon_below :
  below f32_emin 3 F1Score.epsilon = true /\
  is_zero F1Score.epsilon = false.
Proof. now vm_compute. Qed.

Lemma two_positive :
  nonneg_float f32_emin (F32.of_Z 2) = true /\
  is_finite (F32.of_Z 2) = true /\ is_zero (F32.of_Z 2) = false.
Proof. now vm_compute. Qed.

(** The formula of line 27 on a precision and a recall of [[0, 1]]. *)
Lemma f1_formula (p r : spec_float) :
  valid_binary F32.prec F32.emax p = true -> in_unit_interval p = true ->
  valid_binary F32.prec F32.emax r = true -> in_unit_interval r = true ->
  let den := F32.add (F32.add p r) F1Score.epsilon in
  let f1 := F32.div (F32.mul (F32.of_Z 2) (F32.mul p r)) den in
  is_finite den = true /\ positive_float f32_emin den = true /\
  nonneg_float f32_emin f1 = true /\
  (is_zero p || is_zero r = true -> is_zero f1 = true).
Proof.
  intros Vp Up Vr Ur den f1.
  pose proof (unit_interval_below p Vp Up) as Bp.
  pose proof (unit_interval_below r Vr Ur) as Br.
  destruct epsilon_below as [He Hz]. destruct two_positive as (N2 & F2 & Z2).
  unfold f32_emin in *.
  destruct (below_nonneg F32.prec F32.emax 1 p Bp) as [Np Fp].
  destruct (below_nonneg F32.prec F32.emax 1 r Br) as [Nr Fr].
  assert (Bs : below (SpecFloat.emin F32.prec F32.emax) 3 (F32.add p r) = true)
    by (apply (SFadd_below F32.prec F32.emax eq_refl 1); easy).
  assert (Bd : below (SpecFloat.emin F32.prec F32.emax) 5 den = true)
    by (apply (SFadd_below F32.prec F32.emax eq_refl 3); easy).
  destruct (below_nonneg F32.prec F32.emax 5 _ Bd) as [Nd Fd].
  assert (Pd : positive_float (SpecFloat.emin F32.prec F32.emax) den = true).
  { unfold positive_float. rewrite Nd. cbn [andb].
    destruct (is_zero den) eqn:Z; [|reflexivity].
    destruct (below_nonneg F32.prec F32.emax 3 _ Bs) as [Ns _].
    destruct (below_nonneg F32.prec F32.emax 3 _ He) as [Ne _].
    destruct (SFadd_nonneg F32.prec F32.emax eq_refl _ _ Ns Ne) as [_ H].
    destruct (H Z) as [_ H']. congruence. }
  destruct (SFmul_nonneg F32.prec F32.emax p r Np Nr (fun _ => Fr)
              (fun _ => Fp)) as [Nm Zm].
  destruct (SFmul_nonneg F32.prec F32.emax (F32.of_Z 2) (F32.mul p r) N2 Nm)
    as [Nn Zn]; [congruence|easy|].
  destruct (SFdiv_nonneg F32.prec F32.emax _ _ Nn Pd Fd) as [Nq Zq].
  split; [exact Fd|]. split; [exact Pd|]. split; [exact Nq|].
  intros H0. apply Zq, Zn. apply orb_true_iff. right. exact (Zm H0).
Qed.

Section F1Properties.
Variables precision_t recall_t : Type.
Variable precision_result : precision_t -> spec_float.
Variable recall_result : recall_t -> spec_float.

Local Abbreviation result := (F1Score.result precision_result recall_result).

(** X17.  [F1Score.result] on a precision and a recall that are
    [float32] values of [[0, 1]]: the denominator [p + r + epsilon()] is
    finite and strictly positive, so the division is never by zero; the
    score is not NaN and not negative; and it is zero as soon as the
    precision or the recall is zero. *)
Theorem F1Score_result_defined (self : F1Score.t precision_t recall_t) :
  let p := precision_result (F1Score.precision self) in
  let r := recall_result (F1Score.recall self) in
  valid_binary F32.prec F32.emax p = true -> in_unit_interval p = true ->
  valid_binary F32.prec F32.emax r = true -> in_unit_interval r = true ->
  positive_float f32_emin (F32.add (F32.add p r) F1Score.epsilon) = true /\
  is_nan (result self) = false /\
  nonneg_float f32_emin (result self) = true /\
  (is_zero p || is_zero r = true -> is_zero (result self) = true).
Proof.
  intros p r Vp Up Vr Ur.
  destruct (f1_formula p r Vp Up Vr Ur) as (_ & Pd & Nq & Zq).
  split; [exact Pd|]. unfold F1Score.result. fold p r.
  split; [|split; [exact Nq|exact Zq]].
  now destruct (F32.div _ _).
Qed.

(** X18.  The score treats precision and recall alike: two metric
    objects whose precision and recall are exchanged report the same
    score, bit for bit. *)
Theorem F1Score_result_symmetric (self self' : F1Score.t precision_t recall_t) :
  precision_result (F1Score.precision self) =
    recall_result (F1Score.recall self') ->
  recall_result (F1Score.recall self) =
    precision_result (F1Score.precision self') ->
  result self = result self'.
Proof.
  intros Hp Hr. unfold F1Score.result. rewrite Hp, Hr.
  unfold F32.mul, F32.add.
  now rewrite (SFmul_comm F32.prec F32.emax (recall_result _)),
              (SFadd_comm F32.prec F32.emax (recall_result _)).
Qed.
End F1Properties.

Lemma F1Score_result_defined_witness :
  let self :=
    F1Score.update_state FixtureMetric.update FixtureMetric.update
      (F1Score.init FixtureMetric.new FixtureMetric.new) (1, 2) in
  let p := FixtureMetric.ratio (F1Score.precision self) in
  let r := FixtureMetric.ratio (F1Score.recall self) in
  let result := F1Score.result FixtureMetric.ratio FixtureMetric.ratio in
  positive_float f32_emin (F32.add (F32.add p r) F1Score.epsilon) = true /\
  is_nan (result self) = false /\
  nonneg_float f32_emin (result self) = true /\
  (is_zero p || is_zero r = true -> is_zero (result self) = true).
Proof.
  apply (F1Score_result_defined _ _ FixtureMetric.ratio FixtureMetric.ratio
           (F1Score.update_state FixtureMetric.update FixtureMetric.update
              (F1Score.init FixtureMetric.new FixtureMetric.new) (1, 2)));
    reflexivity.
Defined.

Lemma F1Score_result_symmetric_witness :
  F1Score.result FixtureMetric.ratio FixtureMetric.ratio
    (F1Score.Metric (1, 2) (3, 4)) =
  F1Score.result FixtureMetric.ratio FixtureMetric.ratio
    (F1Score.Metric (3, 4) (1, 2)).
Proof.
  apply (F1Score_result_symmetric _ _ FixtureMetric.ratio
           FixtureMetric.ratio); reflexivity.
Defined.

(** ** An image of fewer than three channels *)

Lemma get_channel_out_of_range {A} (h w c i : nat) (a : array3 A) :
  (0 < h)%nat -> (0 < w)%nat -> (c <= i)%nat -> has_shape h w c a ->
  Np.get_channel a i = Raise (IndexError "index is out of bounds for axis 2").
Proof.
  intros Hh Hw Hi [Hlen Hrows].
  destruct a as [|row a]; simpl in Hlen; [lia|].
  apply Forall_cons in Hrows. destruct Hrows as [[Hrow Hpx] _].
  destruct row as [|px row]; simpl in Hrow; [lia|].
  apply Forall_cons in Hpx. destruct Hpx as [Hp _].
  unfold Np.get_channel. cbn [mapM].
  rewrite (lookup_ge_None_2 px i) by lia. reflexivity.
Qed.

Section TwoChannels.
Variable cv2_resize : nat * nat -> array3 u8 -> result (array3 u8).
Variable clahe_apply :
  spec_float -> nat * nat -> array2 u8 -> result (array2 u8).
Variable np_mean np_std : array3 spec_float -> spec_float.
Hypothesis resize_ok : resize_contract cv2_resize.
Hypothesis clahe_ok : clahe_contract clahe_apply.

(** The loop on an array of two channels: two planes are equalized, the
    third turn fails on [img[..., 2]]. *)
Lemma channel_loop_narrow (h w : nat) (q : array3 u8) :
  (0 < h)%nat -> (0 < w)%nat -> has_shape h w 2 q ->
  foldM (clahe_channel clahe_apply q) (seq 0 3) (Np.zeros_like q) =
  Raise (IndexError "index is out of bounds for axis 2").
Proof.
  intros Hh Hw Hq.
  destruct (get_channel_ok h w 2 0 q) as (p0 & G0 & S0); [lia|exact Hq|].
  destruct (get_channel_ok h w 2 1 q) as (p1 & G1 & S1); [lia|exact Hq|].
  destruct (clahe_ok lit_0_02 (8, 8)%nat h w p0 S0) as (c0 & E0 & T0).
  destruct (clahe_ok lit_0_02 (8, 8)%nat h w p1 S1) as (c1 & E1 & T1).
  pose proof (zeros_like_shape h w 2 q Hq) as Z0.
  pose proof (set_plane_shape h w 2 0 _ c0 Z0 T0) as Z1.
  cbn [seq foldM]. unfold clahe_channel.
  rewrite G0. cbn [rbind]. rewrite E0. cbn [rbind].
  rewrite (set_channel_ok h w 2 0) by (auto; lia). cbn [rbind].
  rewrite G1. cbn [rbind]. rewrite E1. cbn [rbind].
  rewrite (set_channel_ok h w 2 1) by (auto; lia). cbn [rbind].
  now rewrite (get_channel_out_of_range h w 2 2 q Hh Hw).
Qed.

(** X20.  [preprocess_image] needs three channels: on a two-channel
    image (of any size) the resizing, both normalizations and the
    equalization of the two channels succeed, then the third turn of the
    loop raises [IndexError]; the call returns no array and draws
    nothing. *)
Theorem preprocess_image_two_channels
    (w : world) (l : loc) (h wd : nat) (img : array3 u8) :
  heap w !! l = Some (U8 img) ->
  (0 < h)%nat -> (0 < wd)%nat -> has_shape h wd 2 img ->
  exists e w',
    run (preprocess_image cv2_resize clahe_apply np_mean np_std l) w
      = (Raise e, w') /\
    exn_class e = "IndexError"%string /\
    log w' = log w /\
    exists extra, heap w' = heap w ++ extra.
Proof.
  intros Hl Hh Hw Himg.
  destruct (preprocess_image_run cv2_resize clahe_apply np_mean np_std
              w l img Hl) as (extra & Hrun & _).
  destruct (resize_ok 224 224 h wd 2 img Hh Hw Himg)%nat as (r & Hr & Sr).
  unfold preprocess_value, IMG_SIZE in *. rewrite Hr in *.
  cbn [rbind] in *.
  set (x1 := Np.astype_f32 r) in *.
  set (x2 := Np.div_scalar (Np.sub_scalar x1 (np_mean x1))
                           (F32.add (np_std x1) eps)) in *.
  assert (S2 : has_shape 224 224 2 x2)
    by (unfold x2, x1, Np.div_scalar, Np.sub_scalar, Np.astype_f32;
        now repeat apply has_shape_map3).
  destruct (values_nonempty 224 224 2 x2)%nat as (v & vs & Hv);
    [lia|lia|lia|exact S2|].
  destruct (ptp_ok x2 v vs Hv) as (lo & hi & Hlo & _ & Hptp).
  rewrite Hlo, Hptp in *. cbn [rbind] in *.
  set (x3 := Np.div_scalar (Np.sub_scalar x2 lo)
               (F32.add (F32.sub hi lo) eps)) in *.
  set (q := Np.astype_u8 (Np.mul_scalar x3 (F32.of_Z 255))) in *.
  assert (Sq : has_shape 224 224 2 q)
    by (unfold q, x3, Np.astype_u8, Np.mul_scalar, Np.div_scalar,
          Np.sub_scalar; now repeat apply has_shape_map3).
  rewrite (channel_loop_narrow 224 224 q) in Hrun by (lia || exact Sq).
  cbn [rbind rmap] in Hrun.
  eexists _, _. split; [exact Hrun|]. split; [reflexivity|].
  split; [reflexivity|]. now exists extra.
Qed.
End TwoChannels.

Lemma preprocess_image_two_channels_witness :
  let gray_alpha := [[[Byte.x0a; Byte.xff]; [Byte.x14; Byte.xff]]] in
  exists e w',
    run (preprocess_image Fixture.resize Fixture.clahe Fixture.mean
           Fixture.std 0%nat) (Fixture.start gray_alpha) = (Raise e, w') /\
    exn_class e = "IndexError"%string /\
    log w' = log (Fixture.start gray_alpha) /\
    exists extra, heap w' = heap (Fixture.start gray_alpha) ++ extra.
Proof.
  apply (preprocess_image_two_channels Fixture.resize Fixture.clahe
           Fixture.mean Fixture.std fixture_resize_ok fixture_clahe_ok
           (Fixture.start [[[Byte.x0a; Byte.xff]; [Byte.x14; Byte.xff]]])
           0%nat 1%nat 2%nat
           [[[Byte.x0a; Byte.xff]; [Byte.x14; Byte.xff]]]).
  - reflexivity.
  - lia.
  - lia.
  - now apply has_shapeb_spec.
Defined.

Lemma session_loads_once_witness :
  let missing := Interaction FixtureLoad.keras_ok FixtureLoad.open_no_mlp
                   FixtureLoad.unpickle None in
  let present := Interaction FixtureLoad.keras_ok FixtureLoad.open_ok
                   FixtureLoad.unpickle None in
  let session' := session Fixture.resize Fixture.clahe Fixture.decode
                    Fixture.mean Fixture.std in
  session' None [missing; present] =
  ((Raise (Exn "FileNotFoundError" "No such file or directory"), World [] [])
     :: fst (session' None [present]),
   snd (session' None [present])).
Proof.
  exact (session_loads_once Fixture.resize Fixture.clahe Fixture.decode
           Fixture.mean Fixture.std
           (Interaction FixtureLoad.keras_ok FixtureLoad.open_no_mlp
              FixtureLoad.unpickle None)
           [Interaction FixtureLoad.keras_ok FixtureLoad.open_ok
              FixtureLoad.unpickle None]).
Defined.
